(** * The greedy task scheduler of [models.py] and [scheduler.py]

    A shallow embedding of the assignment engine: the [Employee], [Task] and
    [Schedule] data classes of [models.py], the [AutoScheduler] of
    [scheduler.py] and the training lists of [utils.py], followed by the
    properties the specification states about them and by further
    properties of the code.

    Conventions of the embedding.
    - Python objects live in a store indexed by their identity ([loc]); a
      list of employees or tasks is a list of identities, so two entries of
      a roster may be the same object, and two different objects may carry
      equal field values.
    - [float] values (hours, durations, scores) are exact rationals [Q];
      [int] values (ids, ranks, priorities) are [Z].  Rounding is not
      modelled: a statement that holds for exact numbers only says so.
    - A deadline is a [datetime], naive or aware, since deadlines are
      compared; the dates of a period, which are only stored, are their
      position on the time line, a [Z].
    - A Python exception is the [Raise] outcome of the [result] monad.
    - What the language leaves to the interpreter (the iteration order of a
      [set], the text printed for a float) is a field of the class
      [Interp]. *)

From Stdlib Require Import ZArith QArith Qminmax Qround String Ascii List
  Sorted DecimalString Lia Lqa.
From stdpp Require Import base option list gmap strings sorting.

(** ** Exceptions *)

Inductive exn : Set :=
| TypeError
| ZeroDivisionError
| IndexError.

Inductive result (A : Type) : Type :=
| Ok (a : A)
| Raise (e : exn).
Arguments Ok {A} a.
Arguments Raise {A} e.

#[global] Instance result_ret : MRet result := λ A a, Ok a.
#[global] Instance result_bind : MBind result := λ A B f r,
  match r with
  | Ok a => f a
  | Raise e => Raise e
  end.
#[global] Instance result_fmap : FMap result := λ A B f r,
  match r with
  | Ok a => Ok (f a)
  | Raise e => Raise e
  end.

(** ** Numbers *)

Module Float.
(** [x < y], [x <= y] and [x == y] on floats. *)
Definition ltb (x y : Q) : bool := negb (Qle_bool y x).
Definition leb (x y : Q) : bool := Qle_bool x y.
Definition eqb (x y : Q) : bool := Qeq_bool x y.

(** [x / y]: Python raises on a zero divisor, where [Qdiv] returns 0. *)
Definition div (x y : Q) : result Q :=
  if Qeq_bool y 0 then Raise ZeroDivisionError else Ok (x / y)%Q.

(** [max(a, b)]: the first argument unless the second is greater. *)
Definition max (a b : Q) : Q := if ltb a b then b else a.

(** [round(x, 2)]: to two decimals, a tie going to the even neighbour. *)
Definition round2 (x : Q) : Q :=
  let y := (x * 100)%Q in
  let f := Qfloor y in
  let r := (y - inject_Z f)%Q in
  let n := if ltb r (1 # 2) then f
           else if ltb (1 # 2) r then (f + 1)%Z
           else if Z.even f then f else (f + 1)%Z in
  (inject_Z n / 100)%Q.
End Float.

(** [str(n)] for an [int]. *)
Definition str_int (n : Z) : string := NilZero.string_of_int (Z.to_int n).

(** ** [datetime]

    A [datetime] without UTC offset (naive) is a position of the wall
    clock, one with a UTC offset (aware) an instant of UTC.  Two naive or
    two aware values are compared by their position; a naive and an aware
    value are not equal, and ordering them raises [TypeError]. *)

Inductive datetime : Set :=
| Naive (t : Z)
| Aware (utc : Z).

#[global] Instance datetime_eq_dec : EqDecision datetime.
Proof. solve_decision. Defined.

(** [a < b] on two [datetime] values. *)
Definition datetime_lt (a b : datetime) : result bool :=
  match a, b with
  | Naive x, Naive y | Aware x, Aware y => Ok (x <? y)%Z
  | Naive _, Aware _ | Aware _, Naive _ => Raise TypeError
  end.

(** ** What the interpreter decides *)

Class Interp := {
  (** the order in which a [set] of strings with these members is iterated;
      CPython derives it from string hashes, which are salted per process,
      so that it is fixed within a run for sets built in the same way and
      is not the sorted order in general *)
  set_iter : gset string → list string;
  set_iter_perm : ∀ X, set_iter X ≡ₚ elements X;
  (** the text an f-string prints for a number of hours *)
  str_float : Q → string;
}.

(** ** [sorted] and [list.sort]

    Python's sort is stable and compares with [<] only; a comparison may
    raise, and the exception then leaves the sort.  It is modelled as an
    insertion sort, which is what [list.sort] runs on short lists, here with
    a linear search: the elements are taken from left to right, and each
    goes behind the elements of the sorted prefix that it is not smaller
    than. *)

Section PySort.
Context {A : Type} (lt : A → A → result bool).

Fixpoint insert_sorted (x : A) (l : list A) : result (list A) :=
  match l with
  | [] => Ok [x]
  | y :: ys =>
      b ← lt x y;
      if b : bool then Ok (x :: y :: ys)
      else (r ← insert_sorted x ys; Ok (y :: r))
  end.

Fixpoint sort_onto (acc : list A) (l : list A) : result (list A) :=
  match l with
  | [] => Ok acc
  | x :: xs => acc' ← insert_sorted x acc; sort_onto acc' xs
  end.

(** [sorted(l, key=...)], with [lt] comparing the keys of two elements. *)
Definition py_sorted (l : list A) : result (list A) := sort_onto [] l.

(** [reverse=True]: the list is reversed, sorted, and reversed again, which
    keeps equal elements in their original order. *)
Definition py_sorted_reverse (l : list A) : result (list A) :=
  reverse <$> py_sorted (reverse l).
End PySort.

(** ** The object store *)

Definition loc := nat.

Record Store (E T : Type) : Type := {
  employee_at : loc → E;
  task_at : loc → T;
}.
Arguments employee_at {E T} _ _.
Arguments task_at {E T} _ _.

Definition upd {A : Type} (f : loc → A) (l : loc) (a : A) : loc → A :=
  λ l', if Nat.eqb l' l then a else f l'.

Definition write_employee {E T} (h : Store E T) (l : loc) (e : E) : Store E T :=
  {| employee_at := upd (employee_at h) l e; task_at := task_at h |}.

Definition write_task {E T} (h : Store E T) (l : loc) (t : T) : Store E T :=
  {| employee_at := employee_at h; task_at := upd (task_at h) l t |}.

(** ** [class Employee] *)

Module Employee.
Record t : Type := {
  id : Z;
  name : string;
  training : gset string;
  rank : Z;
  position : string;
  max_hours : Q;
  current_hours : Q;
}.

Definition set_current_hours (self : t) (h : Q) : t :=
  {| id := id self; name := name self; training := training self;
     rank := rank self; position := position self;
     max_hours := max_hours self; current_hours := h |}.

Definition has_training (self : t) (required_training : gset string) : bool :=
  bool_decide (required_training ⊆ training self).

Definition can_work_hours (self : t) (hours : Q) : bool :=
  Float.leb (current_hours self + hours) (max_hours self).

Definition assign_hours (self : t) (hours : Q) : t :=
  set_current_hours self (current_hours self + hours).

Definition reset_hours (self : t) : t := set_current_hours self 0.

Definition available_hours (self : t) : Q :=
  Float.max 0 (max_hours self - current_hours self).

(** [__eq__] as [@dataclass] generates it: the fields are compared, in
    order, with [==]. *)
Definition eqb (a b : t) : bool :=
  Z.eqb (id a) (id b) && String.eqb (name a) (name b)
  && bool_decide (training a = training b)
  && Z.eqb (rank a) (rank b) && String.eqb (position a) (position b)
  && Float.eqb (max_hours a) (max_hours b)
  && Float.eqb (current_hours a) (current_hours b).
End Employee.

(** ** [class Task] *)

Module Task.
Record t : Type := {
  id : Z;
  name : string;
  required_training : gset string;
  duration : Q;
  priority : Z;
  min_rank : Z;
  deadline : option datetime;
  assigned_employee : option loc;
}.

Definition heap : Type := Store Employee.t t.

Definition set_assigned_employee (self : t) (e : option loc) : t :=
  {| id := id self; name := name self;
     required_training := required_training self;
     duration := duration self; priority := priority self;
     min_rank := min_rank self; deadline := deadline self;
     assigned_employee := e |}.

Definition is_assigned (self : t) : bool :=
  match assigned_employee self with
  | Some _ => true
  | None => false
  end.

Definition can_be_assigned_to (self : t) (employee : Employee.t) : bool :=
  Employee.has_training employee (required_training self)
  && Employee.can_work_hours employee (duration self)
  && (min_rank self <=? Employee.rank employee)%Z.

(** [self] and [employee] are the identities of the two objects. *)
Definition assign_to (self employee : loc) (h : heap) : bool * heap :=
  if can_be_assigned_to (task_at h self) (employee_at h employee) then
    let h := write_task h self
               (set_assigned_employee (task_at h self) (Some employee)) in
    let h := write_employee h employee
               (Employee.assign_hours (employee_at h employee)
                  (duration (task_at h self))) in
    (true, h)
  else (false, h).

Definition unassign (self : loc) (h : heap) : heap :=
  match assigned_employee (task_at h self) with
  | Some e =>
      let h := write_employee h e
                 (Employee.set_current_hours (employee_at h e)
                    (Employee.current_hours (employee_at h e)
                     - duration (task_at h self))) in
      write_task h self (set_assigned_employee (task_at h self) None)
  | None => h
  end.

Definition get_unassignment_reasons `{Interp}
    (self : t) (employee : Employee.t) : list string :=
  let reasons := [] in
  let reasons :=
    if negb (Employee.has_training employee (required_training self)) then
      let missing := required_training self ∖ Employee.training employee in
      reasons ++ ["Missing required training: "
                  +:+ String.concat ", " (set_iter missing)]
    else reasons in
  let reasons :=
    if negb (Employee.can_work_hours employee (duration self)) then
      reasons ++ ["Insufficient hours available ("
                  +:+ str_float (Employee.available_hours employee)
                  +:+ "h available, " +:+ str_float (duration self)
                  +:+ "h needed)"]
    else reasons in
  let reasons :=
    if (Employee.rank employee <? min_rank self)%Z then
      reasons ++ ["Rank too low (rank " +:+ str_int (Employee.rank employee)
                  +:+ ", minimum " +:+ str_int (min_rank self)
                  +:+ " required)"]
    else reasons in
  reasons.
End Task.

(** ** [class Schedule] *)

Module Schedule.
Import Task (heap).

Record t : Type := {
  employees : list loc;
  tasks : list loc;
  period_start : Z;
  period_end : Z;
  created_at : Z;
}.

Record statistics : Type := {
  total_employees : Z;
  total_tasks : Z;
  assigned_tasks : Z;
  unassigned_tasks : Z;
  completion_rate : Q;
  total_hours_scheduled : Q;
  average_hours_per_employee : Q;
  is_valid_ : bool;
}.

Definition len {A} (l : list A) : Z := Z.of_nat (length l).

(** [sum(...)]: starts from 0 and adds from left to right. *)
Definition sum (l : list Q) : Q := fold_left Qplus l 0%Q.

Definition get_assigned_tasks (self : t) (h : heap) : list loc :=
  List.filter (λ task, Task.is_assigned (task_at h task)) (tasks self).

Definition get_unassigned_tasks (self : t) (h : heap) : list loc :=
  List.filter (λ task, negb (Task.is_assigned (task_at h task))) (tasks self).

(** [task.assigned_employee == employee]: [None] equals no employee, and
    two employees are compared by [Employee.__eq__]. *)
Definition get_employee_tasks (self : t) (h : heap) (employee : loc)
  : list loc :=
  List.filter
    (λ task,
       match Task.assigned_employee (task_at h task) with
       | Some e => Employee.eqb (employee_at h e) (employee_at h employee)
       | None => false
       end)
    (tasks self).

Definition get_completion_rate (self : t) (h : heap) : result Q :=
  match tasks self with
  | [] => Ok 100%Q
  | _ =>
      r ← Float.div (inject_Z (len (get_assigned_tasks self h)))
                    (inject_Z (len (tasks self)));
      Ok (r * 100)%Q
  end.

Definition is_valid (self : t) (h : heap) : bool :=
  forallb
    (λ employee,
       negb (Float.ltb (Employee.max_hours (employee_at h employee))
                       (Employee.current_hours (employee_at h employee))))
    (employees self)
  && forallb
       (λ task,
          match Task.assigned_employee (task_at h task) with
          | Some e =>
              Task.can_be_assigned_to (task_at h task) (employee_at h e)
          | None => true
          end)
       (get_assigned_tasks self h).

Definition reset (self : t) (h : heap) : heap :=
  let h :=
    fold_left
      (λ h employee,
         write_employee h employee
           (Employee.reset_hours (employee_at h employee)))
      (employees self) h in
  fold_left (λ h task, Task.unassign task h) (tasks self) h.

Definition get_statistics (self : t) (h : heap) : result statistics :=
  rate ← get_completion_rate self h;
  let hours :=
    sum (map (λ emp, Employee.current_hours (employee_at h emp))
           (employees self)) in
  average ←
    match employees self with
    | [] => Ok 0%Q
    | _ => Float.round2 <$> Float.div hours (inject_Z (len (employees self)))
    end;
  Ok {| total_employees := len (employees self);
        total_tasks := len (tasks self);
        assigned_tasks := len (get_assigned_tasks self h);
        unassigned_tasks := len (get_unassigned_tasks self h);
        completion_rate := Float.round2 rate;
        total_hours_scheduled := hours;
        average_hours_per_employee := average;
        is_valid_ := is_valid self h |}.
End Schedule.

(** ** [class AutoScheduler] *)

Module AutoScheduler.
Import Task (heap).

(** [score_log] is not a field of the Python object: it keeps, for each call
    of [_select_best_employee], the task and the list [scored_employees]
    the call builds, so that properties of the scores can be stated. *)
Record t : Type := {
  schedule : Schedule.t;
  unassigned_reasons : gmap Z (list string);
  score_log : list (loc * list (loc * Q));
}.

Definition __init__ (schedule : Schedule.t) : t :=
  {| schedule := schedule; unassigned_reasons := ∅; score_log := [] |}.

(** The second component of the sort key: a deadline, or [float('inf')]. *)
Inductive deadline_key : Set :=
| Datetime (d : datetime)
| Inf.

Definition sort_key (task : Task.t) : Z * deadline_key :=
  ((- Task.priority task)%Z,
   match Task.deadline task with
   | Some d => Datetime d
   | None => Inf
   end).

(** [a < b] on two keys.  Tuples are compared at the first position where
    they differ under [==]; a [datetime] neither equals a [float] nor can be
    ordered against one, and two equal [datetime] values are two values of
    the same kind, for which [<] returns [False]. *)
Definition sort_key_lt (a b : Z * deadline_key) : result bool :=
  if (a.1 =? b.1)%Z then
    match a.2, b.2 with
    | Datetime x, Datetime y => datetime_lt x y
    | Inf, Inf => Ok false
    | Datetime _, Inf | Inf, Datetime _ => Raise TypeError
    end
  else Ok (a.1 <? b.1)%Z.

Definition _sort_tasks_by_priority (self : t) (h : heap)
  : result (list loc) :=
  py_sorted
    (λ x y, sort_key_lt (sort_key (task_at h x)) (sort_key (task_at h y)))
    (Schedule.tasks (schedule self)).

Definition _get_eligible_employees (self : t) (h : heap) (task : loc)
  : list loc :=
  List.filter
    (λ emp, Task.can_be_assigned_to (task_at h task) (employee_at h emp))
    (Schedule.employees (schedule self)).

Definition _score_employee_for_task (task : Task.t) (employee : Employee.t)
  : result Q :=
  let score := 0%Q in
  let rank_diff := (Employee.rank employee - Task.min_rank task)%Z in
  let score :=
    if (rank_diff =? 0)%Z then (score + 50)%Q
    else if (rank_diff <=? 2)%Z then (score + 40)%Q
    else if (rank_diff <=? 4)%Z then (score + 20)%Q
    else (score + 10)%Q in
  availability_ratio ←
    Float.div (Employee.available_hours employee)
              (Employee.max_hours employee);
  let score := (score + availability_ratio * 30)%Q in
  ratio ← Float.div (Employee.current_hours employee)
                    (Employee.max_hours employee);
  let workload_ratio := (1 - ratio)%Q in
  let score := (score + workload_ratio * 20)%Q in
  Ok score.

Fixpoint score_all (h : heap) (task : loc) (eligible_employees : list loc)
  : result (list (loc * Q)) :=
  match eligible_employees with
  | [] => Ok []
  | emp :: rest =>
      s ← _score_employee_for_task (task_at h task) (employee_at h emp);
      l ← score_all h task rest;
      Ok ((emp, s) :: l)
  end.

Definition _select_best_employee (self : t) (h : heap) (task : loc)
    (eligible_employees : list loc) : result (loc * t) :=
  scored_employees ← score_all h task eligible_employees;
  let self :=
    {| schedule := schedule self;
       unassigned_reasons := unassigned_reasons self;
       score_log := score_log self ++ [(task, scored_employees)] |} in
  sorted ← py_sorted_reverse (λ x y, Ok (Float.ltb x.2 y.2)) scored_employees;
  match sorted with
  | best :: _ => Ok (best.1, self)
  | [] => Raise IndexError
  end.

Definition _assign_task (self : t) (h : heap) (task : loc)
  : result (bool * t * heap) :=
  let eligible_employees := _get_eligible_employees self h task in
  match eligible_employees with
  | [] => Ok (false, self, h)
  | _ =>
      '(best_employee, self) ←
        _select_best_employee self h task eligible_employees;
      let '(ok, h) := Task.assign_to task best_employee h in
      Ok (ok, self, h)
  end.

Definition _get_all_unassignment_reasons `{Interp}
    (self : t) (h : heap) (task : loc) : list string :=
  match Schedule.employees (schedule self) with
  | [] => ["No employees available"]
  | _ =>
      let all_reasons : gset string :=
        fold_left
          (λ all_reasons employee,
             all_reasons
             ∪ list_to_set
                 (Task.get_unassignment_reasons (task_at h task)
                    (employee_at h employee)))
          (Schedule.employees (schedule self)) ∅ in
      if decide (all_reasons = ∅)
      then ["Unknown reason (this shouldn't happen)"]
      else set_iter all_reasons
  end.

Definition record_reasons (self : t) (k : Z) (reasons : list string) : t :=
  {| schedule := schedule self;
     unassigned_reasons := <[k := reasons]> (unassigned_reasons self);
     score_log := score_log self |}.

(** The [for task in sorted_tasks] loop of [schedule_all]. *)
Fixpoint schedule_loop `{Interp} (self : t) (h : heap)
    (sorted_tasks : list loc) : result (t * heap) :=
  match sorted_tasks with
  | [] => Ok (self, h)
  | task :: rest =>
      '(ok, self, h) ← _assign_task self h task;
      let self :=
        if ok : bool then self
        else record_reasons self (Task.id (task_at h task))
               (_get_all_unassignment_reasons self h task) in
      schedule_loop self h rest
  end.

Definition schedule_all `{Interp} (self : t) (h : heap)
  : result (bool * t * heap) :=
  let h := Schedule.reset (schedule self) h in
  let self :=
    {| schedule := schedule self; unassigned_reasons := ∅;
       score_log := [] |} in
  sorted_tasks ← _sort_tasks_by_priority self h;
  '(self, h) ← schedule_loop self h sorted_tasks;
  Ok (Nat.eqb (length (Schedule.get_unassigned_tasks (schedule self) h)) 0,
      self, h).

Record unassigned_entry : Type := {
  task_id : Z;
  task_name : string;
  priority : Z;
  duration : Q;
  required_training : list string;
  min_rank : Z;
  reasons : list string;
}.

Definition get_unassigned_tasks_report `{Interp} (self : t) (h : heap)
  : list unassigned_entry :=
  map
    (λ task,
       let t := task_at h task in
       {| task_id := Task.id t;
          task_name := Task.name t;
          priority := Task.priority t;
          duration := Task.duration t;
          required_training := set_iter (Task.required_training t);
          min_rank := Task.min_rank t;
          reasons := default ["Unknown"]
                       (unassigned_reasons self !! Task.id t) |})
    (Schedule.get_unassigned_tasks (schedule self) h).

Record workload_entry : Type := {
  employee_id : Z;
  employee_name : string;
  position : string;
  rank : Z;
  assigned_hours : Q;
  max_hours : Q;
  available_hours : Q;
  utilization : Q;
  task_count : Z;
  tasks : list (Z * string * Q);
}.

(** One pass of the [for employee in ...] loop of
    [get_employee_workload_report]. *)
Definition workload_of (self : t) (h : heap) (employee : loc)
  : result workload_entry :=
  let tasks := Schedule.get_employee_tasks (schedule self) h employee in
  let e := employee_at h employee in
  utilization ←
    (if Float.ltb 0 (Employee.max_hours e) then
       r ← Float.div (Employee.current_hours e) (Employee.max_hours e);
       Ok (Float.round2 (r * 100))
     else Ok 0%Q);
  Ok {| employee_id := Employee.id e;
        employee_name := Employee.name e;
        position := Employee.position e;
        rank := Employee.rank e;
        assigned_hours := Employee.current_hours e;
        max_hours := Employee.max_hours e;
        available_hours := Employee.available_hours e;
        utilization := utilization;
        task_count := Schedule.len tasks;
        tasks := map (λ t, (Task.id (task_at h t), Task.name (task_at h t),
                            Task.duration (task_at h t))) tasks |}.

Fixpoint workload_entries (self : t) (h : heap) (employees : list loc)
  : result (list workload_entry) :=
  match employees with
  | [] => Ok []
  | employee :: rest =>
      entry ← workload_of self h employee;
      report ← workload_entries self h rest;
      Ok (entry :: report)
  end.

Definition get_employee_workload_report (self : t) (h : heap)
  : result (list workload_entry) :=
  report ← workload_entries self h (Schedule.employees (schedule self));
  py_sorted_reverse
    (λ x y, Ok (Float.ltb (utilization x) (utilization y))) report.
End AutoScheduler.

(** ** The training lists of [utils.py]

    A [str] is a [string]: its characters are the code points below 256. *)

Module Utils.
(** [str.isspace] on one character: tab to carriage return, the four
    separators from 28, the space, and the code points 133 and 160. *)
Definition isspace (c : ascii) : bool :=
  let n := nat_of_ascii c in
  ((9 <=? n) && (n <=? 13) || (28 <=? n) && (n <=? 32)
   || (n =? 133) || (n =? 160))%nat.

(** [s.split(sep)] for a separator of one character: the pieces between
    the occurrences of [sep], empty pieces included. *)
Fixpoint split (sep : ascii) (s : string) : list string :=
  match s with
  | EmptyString => [EmptyString]
  | String c rest =>
      if Ascii.eqb c sep then EmptyString :: split sep rest
      else match split sep rest with
           | item :: items => String c item :: items
           | [] => [String c EmptyString]
           end
  end.

Fixpoint lstrip (s : string) : string :=
  match s with
  | EmptyString => EmptyString
  | String c rest => if isspace c then lstrip rest else s
  end.

Fixpoint rstrip (s : string) : string :=
  match s with
  | EmptyString => EmptyString
  | String c rest =>
      match rstrip rest with
      | EmptyString => if isspace c then EmptyString else String c EmptyString
      | r => String c r
      end
  end.

(** [s.strip()]. *)
Definition strip (s : string) : string := rstrip (lstrip s).

Definition parse_training_list (training_str : string) : gset string :=
  if String.eqb training_str "" then ∅
  else
    list_to_set
      (map strip
         (List.filter (λ item, negb (String.eqb (strip item) ""))
            (split "," training_str))).

(** [sorted] on strings compares with [<], the order of the code points. *)
Definition format_training_list `{Interp} (training_set : gset string)
  : result string :=
  sorted ← py_sorted (λ x y, Ok (String.ltb x y)) (set_iter training_set);
  Ok (String.concat ", " sorted).
End Utils.

(** ** Concrete schedules

    The rosters and task lists on which the statements below are
    evaluated. *)

Module Examples.
(** An interpreter that iterates a set from its last member to its first
    and prints hours as a fraction. *)
#[export] Instance interp : Interp := {|
  set_iter X := reverse (elements X);
  set_iter_perm X := reverse_Permutation (elements X);
  str_float q := str_int (Qnum q) +:+ "/" +:+ str_int (Zpos (Qden q));
|}.

Definition employee (id : Z) (name : string) (training : gset string)
    (rank : Z) (max_hours : Q) : Employee.t :=
  {| Employee.id := id; Employee.name := name;
     Employee.training := training; Employee.rank := rank;
     Employee.position := "Developer"; Employee.max_hours := max_hours;
     Employee.current_hours := 0 |}.

Definition task (id : Z) (name : string) (required_training : gset string)
    (duration : Q) (priority min_rank : Z) (deadline : option datetime)
  : Task.t :=
  {| Task.id := id; Task.name := name;
     Task.required_training := required_training;
     Task.duration := duration; Task.priority := priority;
     Task.min_rank := min_rank; Task.deadline := deadline;
     Task.assigned_employee := None |}.

(** The store holding the objects of [employees] and [tasks] at the
    identities 0, 1, ... in order. *)
Definition store (employees : list Employee.t) (tasks : list Task.t)
  : Task.heap :=
  {| employee_at l := nth l employees (employee 0 "" ∅ 0 0);
     task_at l := nth l tasks (task 0 "" ∅ 0 0 0 None) |}.

Definition schedule (employees tasks : list loc) : Schedule.t :=
  {| Schedule.employees := employees; Schedule.tasks := tasks;
     Schedule.period_start := 0; Schedule.period_end := 13;
     Schedule.created_at := 0 |}.

Definition alice := employee 1 "Alice" {["Python"; "Database"]} 8 80.
Definition bob := employee 2 "Bob" {["Python"]} 5 80.
Definition backend :=
  task 1 "Backend" {["Python"; "Database"]} 20 9 5 None.
Definition scripts := task 2 "Scripts" {["Python"]} 70 5 1 None.

(** One employee and one task that fits. *)
Definition solo_heap := store [alice] [backend].
Definition solo := schedule [0] [0].

(** The two-employee roster of the end-to-end scenario. *)
Definition team_heap := store [alice; bob] [backend; scripts].
Definition team := schedule [0; 1] [0; 1].

(** Two tasks of equal priority, only the first with a deadline. *)
Definition mixed_heap :=
  store [alice]
    [task 1 "Dated" {["Python"]} 10 5 1 (Some (Naive 1700000000));
     task 2 "Undated" {["Python"]} 10 5 1 None].
Definition mixed := schedule [0] [0; 1].

(** Two employee objects with the same field values, and two tasks of the
    same duration. *)
Definition twins_heap :=
  store [bob; bob]
    [task 1 "Morning" {["Python"]} 20 9 1 None;
     task 2 "Evening" {["Python"]} 20 5 1 None].
Definition twins := schedule [0; 1] [0; 1].

(** A task whose two required skills nobody has. *)
Definition unskilled_heap :=
  store [alice] [task 1 "Systems" {["Rust"; "Go"]} 10 5 1 None].
Definition unskilled := schedule [0] [0].

(** One employee with 80 hours and two tasks of 50 hours. *)
Definition busy_heap :=
  store [bob]
    [task 1 "First" {["Python"]} 50 9 1 None;
     task 2 "Second" {["Python"]} 50 5 1 None].
Definition busy := schedule [0] [0; 1].

(** An employee with no capacity next to one with capacity. *)
Definition idle_heap :=
  store [employee 1 "Zed" {["Python"]} 5 0; bob] [scripts].
Definition idle := schedule [0; 1] [0].

(** The same, the first task already assigned to the employee, as
    [assign_to] leaves it. *)
Definition busy_linked_heap := (Task.assign_to 0 0 busy_heap).2.

(** The same after the first employee has taken the task and has then lost
    all capacity: the task is linked to it, with its 70 hours. *)
Definition idle_linked_heap :=
  store [Employee.set_current_hours (employee 1 "Zed" {["Python"]} 5 0) 70;
         bob]
    [Task.set_assigned_employee scripts (Some 0%nat)].


(** Two tasks of equal priority, with a naive and an aware deadline. *)
Definition zoned_heap :=
  store [alice]
    [task 1 "Local" {["Python"]} 10 5 1 (Some (Naive 1700000000));
     task 2 "Zoned" {["Python"]} 10 5 1 (Some (Aware 1700000000))].
Definition zoned := schedule [0] [0; 1].
End Examples.

(** ** The specification's reading of two queries *)

(** "Tasks whose employee link equals that employee, by identity". *)
Definition tasks_linked_to (self : Schedule.t) (h : Task.heap) (employee : loc)
  : list loc :=
  List.filter
    (λ task,
       bool_decide (Task.assigned_employee (task_at h task) = Some employee))
    (Schedule.tasks self).

(** Two employees with the same field values. *)
Definition same_fields (a b : Employee.t) : Prop :=
  Employee.id a = Employee.id b ∧ Employee.name a = Employee.name b
  ∧ Employee.training a = Employee.training b
  ∧ Employee.rank a = Employee.rank b
  ∧ Employee.position a = Employee.position b
  ∧ (Employee.max_hours a == Employee.max_hours b)%Q
  ∧ (Employee.current_hours a == Employee.current_hours b)%Q.

(** ** Sorting with a comparison that cannot raise *)

Section PureSort.
Context {A : Type} (ltb : A → A → bool).

Fixpoint insert_pure (x : A) (l : list A) : list A :=
  match l with
  | [] => [x]
  | y :: ys => if ltb x y then x :: y :: ys else y :: insert_pure x ys
  end.

Definition isort_onto (acc l : list A) : list A :=
  fold_left (λ acc x, insert_pure x acc) l acc.

(** "First maximal element wins": the head of the list, unless a later
    element is strictly greater than it. *)
Fixpoint first_max (l : list A) : option A :=
  match l with
  | [] => None
  | x :: xs =>
      match first_max xs with
      | Some m => if ltb x m then Some m else Some x
      | None => Some x
      end
  end.

(** The last element of a list is an upper bound of it. *)
Definition last_bounds (l : list A) : Prop :=
  ∀ m, last l = Some m → ∀ y, y ∈ l → ltb m y = false.

(** A list in which no element is smaller than an element before it. *)
Definition sorted_by : list A → Prop :=
  StronglySorted (λ a b, ltb b a = false).
End PureSort.

(** ** Vocabulary of the statements *)

(** Two stores that differ at most in what the methods write: the
    [current_hours] of employees and the [assigned_employee] of tasks. *)
Definition same_static (h h' : Task.heap) : Prop :=
  (∀ l, Employee.set_current_hours (employee_at h' l) 0
        = Employee.set_current_hours (employee_at h l) 0)
  ∧ (∀ l, Task.set_assigned_employee (task_at h' l) None
          = Task.set_assigned_employee (task_at h l) None).

(** The two loops of [Schedule.reset]. *)
Definition reset_hours_loop (employees : list loc) (h : Task.heap)
  : Task.heap :=
  fold_left
    (λ h employee,
       write_employee h employee
         (Employee.reset_hours (employee_at h employee)))
    employees h.

Definition unassign_loop (tasks : list loc) (h : Task.heap) : Task.heap :=
  fold_left (λ h task, Task.unassign task h) tasks h.

(** Every employee of the roster without capacity has no hours. *)
Definition no_capacity_idle (sch : Schedule.t) (h : Task.heap) : Prop :=
  ∀ l, l ∈ Schedule.employees sch →
       (Employee.max_hours (employee_at h l) == 0)%Q →
       (Employee.current_hours (employee_at h l) == 0)%Q.

(** Two stores that hold the same employees of the roster and the same
    tasks of the task list. *)
Definition agree (sch : Schedule.t) (h1 h2 : Task.heap) : Prop :=
  (∀ l, l ∈ Schedule.employees sch → employee_at h1 l = employee_at h2 l)
  ∧ (∀ l, l ∈ Schedule.tasks sch → task_at h1 l = task_at h2 l).

(** A store in which the employees of the roster have no hours and the
    tasks of the list no employee, and which is otherwise like [h0]. *)
Definition clean (sch : Schedule.t) (h0 h : Task.heap) : Prop :=
  (∀ l, l ∈ Schedule.employees sch →
        employee_at h l = Employee.set_current_hours (employee_at h0 l) 0)
  ∧ (∀ l, l ∈ Schedule.tasks sch →
          task_at h l = Task.set_assigned_employee (task_at h0 l) None).

(** Two outcomes that raise the same exception, or return the same value
    and stores that agree. *)
Definition same_outcome {A : Type} (sch : Schedule.t)
    (r1 r2 : result (A * Task.heap)) : Prop :=
  match r1, r2 with
  | Ok (a1, h1), Ok (a2, h2) => a1 = a2 ∧ agree sch h1 h2
  | Raise e1, Raise e2 => e1 = e2
  | _, _ => False
  end.

(** What an invocation of [schedule_all] shows: the value returned, the
    employee each task of the list is linked to, the hours of each employee
    of the roster, the recorded reasons, and the scores computed for the
    candidates of each task. *)
Definition observation (sch : Schedule.t)
    (r : result (bool * AutoScheduler.t * Task.heap))
  : result (bool * list (option loc) * list Q * gmap Z (list string)
            * list (loc * list (loc * Q))) :=
  '(ok, self, h) ← r;
  Ok (ok,
      map (λ task, Task.assigned_employee (task_at h task))
        (Schedule.tasks sch),
      map (λ emp, Employee.current_hours (employee_at h emp))
        (Schedule.employees sch),
      AutoScheduler.unassigned_reasons self,
      AutoScheduler.score_log self).

(** [schedule_all], followed [n] times by [reset] and [schedule_all]. *)
Fixpoint rerun `{Interp} (n : nat) (self : AutoScheduler.t) (h : Task.heap)
  : result (bool * AutoScheduler.t * Task.heap) :=
  match n with
  | O => AutoScheduler.schedule_all self h
  | S n =>
      '(_, self, h) ← rerun n self h;
      AutoScheduler.schedule_all self
        (Schedule.reset (AutoScheduler.schedule self) h)
  end.

(** The earlier of two deadlines.  Between a naive and an aware deadline
    there is no earlier one; the naive one is put first, so that the
    relation is an order, and the choice shows in no statement, since
    tasks with such deadlines are set apart by [mixed_deadlines]. *)
Definition deadline_before (x y : datetime) : bool :=
  match x, y with
  | Naive a, Naive b | Aware a, Aware b => (a <? b)%Z
  | Naive _, Aware _ => true
  | Aware _, Naive _ => false
  end.

(** The order of the specification on tasks: the higher priority first, then
    the earlier deadline, a task without deadline after every task with
    one. *)
Definition comes_before (a b : Task.t) : bool :=
  (Task.priority b <? Task.priority a)%Z
  || (Task.priority a =? Task.priority b)%Z
     && match Task.deadline a, Task.deadline b with
        | Some x, Some y => deadline_before x y
        | Some _, None => true
        | None, _ => false
        end.

(** Two tasks of equal priority whose deadlines cannot be ordered: one with
    and one without a deadline, or one with a naive and one with an aware
    deadline. *)
Definition mixed_deadlines (a b : Task.t) : bool :=
  (Task.priority a =? Task.priority b)%Z
  && match Task.deadline a, Task.deadline b with
     | Some (Naive _), Some (Naive _) | Some (Aware _), Some (Aware _)
     | None, None => false
     | _, _ => true
     end.

(** The same on the tasks of a store. *)
Definition task_before (h : Task.heap) (a b : loc) : bool :=
  comes_before (task_at h a) (task_at h b).

Definition tasks_mixed (h : Task.heap) (a b : loc) : bool :=
  mixed_deadlines (task_at h a) (task_at h b).


(** The total duration of the tasks of [tasks] that are linked to
    [employee]. *)
Definition linked_hours (h : Task.heap) (employee : loc) (tasks : list loc)
  : Q :=
  Schedule.sum
    (map (λ task, Task.duration (task_at h task))
       (List.filter
          (λ task,
             bool_decide
               (Task.assigned_employee (task_at h task) = Some employee))
          tasks)).

(** The string has the character. *)
Fixpoint contains (c : ascii) (s : string) : bool :=
  match s with
  | EmptyString => false
  | String c' rest => Ascii.eqb c' c || contains c rest
  end.

(** A training item as it can be read back from a comma-separated list:
    not empty, without comma, and without white space at either end. *)
Definition clean_item (s : string) : Prop :=
  s ≠ EmptyString ∧ Utils.strip s = s ∧ contains "," s = false.

(** * Properties *)

Import Examples.

(** ** Numbers and the store *)

Lemma Float_ltb_lt (x y : Q) : Float.ltb x y = true ↔ (x < y)%Q.
Proof.
  unfold Float.ltb. rewrite negb_true_iff, <- not_true_iff_false, Qle_bool_iff.
  split; [apply Qnot_le_lt | apply Qlt_not_le].
Qed.

Lemma Float_ltb_ge (x y : Q) : Float.ltb x y = false ↔ (y <= x)%Q.
Proof.
  unfold Float.ltb. rewrite negb_false_iff. apply Qle_bool_iff.
Qed.

Lemma Float_leb_le (x y : Q) : Float.leb x y = true ↔ (x <= y)%Q.
Proof. apply Qle_bool_iff. Qed.

Lemma Float_div_nonzero (x y : Q) :
  ¬ (y == 0)%Q → Float.div x y = Ok (x / y)%Q.
Proof.
  intros Hy. unfold Float.div.
  destruct (Qeq_bool y 0) eqn:E; [|done].
  apply Qeq_bool_iff in E. contradiction.
Qed.

Lemma Float_max_0 (x : Q) : (Float.max 0 x == Qmax 0 x)%Q.
Proof.
  unfold Float.max. destruct (Float.ltb 0 x) eqn:E.
  - apply Float_ltb_lt in E. symmetry. apply Q.max_r.
    by apply Qlt_le_weak.
  - apply Float_ltb_ge in E. symmetry. by apply Q.max_l.
Qed.

Lemma upd_eq {A} (f : loc → A) l a : upd f l a l = a.
Proof. unfold upd. by rewrite Nat.eqb_refl. Qed.

Lemma upd_ne {A} (f : loc → A) l l' a : l' ≠ l → upd f l a l' = f l'.
Proof. intros Hne. unfold upd. by apply Nat.eqb_neq in Hne as ->. Qed.

(** ** Committing one assignment *)

(** C10.  [Task.assign_to] returns the value of [can_be_assigned_to] at the
    moment of the call.  When that is [True] the task is linked to the
    employee and the employee's hours grow by the task's duration, and
    nothing else changes; when it is [False] the store is left as it
    was. *)
Theorem assign_to_atomic (task employee : loc) (h : Task.heap) :
  let t := task_at h task in
  let e := employee_at h employee in
  let h' := (Task.assign_to task employee h).2 in
  (Task.assign_to task employee h).1 = Task.can_be_assigned_to t e
  ∧ if Task.can_be_assigned_to t e then
      task_at h' task = Task.set_assigned_employee t (Some employee)
      ∧ employee_at h' employee
        = Employee.set_current_hours e
            (Employee.current_hours e + Task.duration t)
      ∧ (∀ l, l ≠ task → task_at h' l = task_at h l)
      ∧ (∀ l, l ≠ employee → employee_at h' l = employee_at h l)
    else h' = h.
Proof.
  intros t e h'. subst t e h'. unfold Task.assign_to.
  destruct (Task.can_be_assigned_to _ _); simpl; [|done].
  rewrite !upd_eq. repeat split; try done; intros l Hl; by apply upd_ne.
Qed.

(** ** The score *)

(** C6.  For an eligible employee whose [max_hours] is not zero the score is
    the sum of the rank-fit term, of [available_hours / max_hours * 30] and
    of [(1 - current_hours / max_hours) * 20], all read from the employee as
    it is when the function is called; the rank-fit term is 50, 40, 20 or
    10 as the specification tabulates it, for a rank difference that is
    never negative. *)
Theorem score_is_sum_of_three_terms (task : Task.t) (employee : Employee.t) :
  Task.can_be_assigned_to task employee = true →
  ¬ (Employee.max_hours employee == 0)%Q →
  let d := (Employee.rank employee - Task.min_rank task)%Z in
  let max_hours := Employee.max_hours employee in
  let current_hours := Employee.current_hours employee in
  ∃ score rank_fit : Q,
    AutoScheduler._score_employee_for_task task employee = Ok score
    ∧ (score == rank_fit
               + Employee.available_hours employee / max_hours * 30
               + (1 - current_hours / max_hours) * 20)%Q
    ∧ (Employee.available_hours employee
       == Qmax 0 (max_hours - current_hours))%Q
    ∧ (0 ≤ d)%Z
    ∧ (d = 0%Z → rank_fit = 50%Q)
    ∧ ((0 < d ≤ 2)%Z → rank_fit = 40%Q)
    ∧ ((2 < d ≤ 4)%Z → rank_fit = 20%Q)
    ∧ ((4 < d)%Z → rank_fit = 10%Q).
Proof.
  intros Hel Hmax d max_hours current_hours.
  unfold Task.can_be_assigned_to in Hel.
  apply andb_true_iff in Hel as [_ Hrank]. apply Z.leb_le in Hrank.
  unfold AutoScheduler._score_employee_for_task.
  rewrite !Float_div_nonzero by done. simpl.
  fold d max_hours current_hours.
  eexists _, (if (d =? 0)%Z then 50 else if (d <=? 2)%Z then 40
              else if (d <=? 4)%Z then 20 else 10)%Q.
  split; [reflexivity|].
  split.
  { destruct (d =? 0)%Z, (d <=? 2)%Z, (d <=? 4)%Z; ring. }
  split; [apply Float_max_0|].
  split; [subst d; lia|].
  repeat split; intros Hd;
    destruct (Z.eqb_spec d 0), (Z.leb_spec d 2), (Z.leb_spec d 4);
    try reflexivity; lia.
Qed.

(** ** [sorted] and [list.sort] with a total comparison *)

Section PureSortFacts.
Context {A : Type} (ltb : A → A → bool).
Hypothesis ltb_irrefl : ∀ x, ltb x x = false.
Hypothesis ltb_asym : ∀ x y, ltb x y = true → ltb y x = false.
Hypothesis ltb_lt_le : ∀ x y z,
  ltb x y = true → ltb z y = false → ltb x z = true.

Lemma insert_sorted_total (x : A) (l : list A) :
  insert_sorted (λ x y, Ok (ltb x y)) x l = Ok (insert_pure ltb x l).
Proof.
  induction l as [|y ys IH]; simpl; [done|].
  destruct (ltb x y); simpl; [done|]. by rewrite IH.
Qed.

Lemma sort_onto_total (acc l : list A) :
  sort_onto (λ x y, Ok (ltb x y)) acc l = Ok (isort_onto ltb acc l).
Proof.
  revert acc. induction l as [|x xs IH]; intros acc; simpl; [done|].
  rewrite insert_sorted_total. simpl. apply IH.
Qed.

Lemma py_sorted_reverse_total (l : list A) :
  py_sorted_reverse (λ x y, Ok (ltb x y)) l
= Ok (reverse (isort_onto ltb [] (reverse l))).
Proof.
  unfold py_sorted_reverse, py_sorted. by rewrite sort_onto_total.
Qed.

Lemma isort_onto_snoc (acc l : list A) (x : A) :
  isort_onto ltb acc (l ++ [x]) = insert_pure ltb x (isort_onto ltb acc l).
Proof. unfold isort_onto. by rewrite fold_left_app. Qed.

Lemma insert_pure_elem (x z : A) (l : list A) :
  z ∈ insert_pure ltb x l ↔ z = x ∨ z ∈ l.
Proof.
  induction l as [|y ys IH]; simpl.
  - rewrite list_elem_of_singleton, elem_of_nil. tauto.
  - destruct (ltb x y); rewrite !elem_of_cons; [tauto|].
    rewrite IH. tauto.
Qed.

Lemma last_insert_pure (x : A) (l : list A) :
  last_bounds ltb l →
  last (insert_pure ltb x l)
  = match last l with
    | Some m => if ltb x m then Some m else Some x
    | None => Some x
    end.
Proof.
  induction l as [|y ys IH]; intros Hub; [done|].
  simpl insert_pure. destruct (ltb x y) eqn:Hxy.
  - rewrite last_cons_cons.
    destruct (last (y :: ys)) as [m|] eqn:Hm; [|by apply last_None in Hm].
    rewrite (ltb_lt_le x y m); [done | done |].
    apply (Hub m Hm). left.
  - destruct ys as [|y' ys'].
    + simpl. by rewrite Hxy.
    + rewrite (last_cons_cons y y'), <- IH.
      * rewrite last_cons.
        destruct (last (insert_pure ltb x (y' :: ys'))) eqn:E; [done|].
        apply last_None in E. simpl in E. by destruct (ltb x y').
      * intros m Hm z Hz. apply (Hub m); [|by right].
        by rewrite last_cons_cons.
Qed.

Lemma last_bounds_insert_pure (x : A) (l : list A) :
  last_bounds ltb l → last_bounds ltb (insert_pure ltb x l).
Proof.
  intros Hub m. rewrite last_insert_pure by done.
  destruct (last l) as [m0|] eqn:Hm0.
  - destruct (ltb x m0) eqn:Hx; intros [= <-] y Hy;
      apply insert_pure_elem in Hy as [->|Hy]; eauto.
    destruct (ltb x y) eqn:Hxy; [|done].
    by rewrite (ltb_lt_le x y m0) in Hx by eauto.
  - apply last_None in Hm0 as ->. simpl.
    intros [= <-] y Hy. apply list_elem_of_singleton in Hy as ->. done.
Qed.

Lemma last_bounds_isort (l : list A) :
  last_bounds ltb (isort_onto ltb [] (reverse l)).
Proof.
  induction l as [|x xs IH]; [by intros m [=]|].
  rewrite reverse_cons, isort_onto_snoc. by apply last_bounds_insert_pure.
Qed.

(** A list sorted with [reverse=True] starts with the first maximal element
    of the original list. *)
Lemma head_sorted_reverse (l : list A) :
  head (reverse (isort_onto ltb [] (reverse l))) = first_max ltb l.
Proof.
  rewrite head_reverse.
  induction l as [|x xs IH]; [done|].
  rewrite reverse_cons, isort_onto_snoc, last_insert_pure, IH;
    [done | apply last_bounds_isort].
Qed.

Lemma first_max_nonempty (l : list A) : l ≠ [] → is_Some (first_max ltb l).
Proof.
  destruct l as [|x xs]; [done|]. intros _. simpl.
  destruct (first_max ltb xs); [destruct (ltb x a)|]; eauto.
Qed.

Lemma first_max_spec (l : list A) (m : A) :
  first_max ltb l = Some m →
  ∃ i, l !! i = Some m
       ∧ (∀ j y, l !! j = Some y → ltb m y = false)
       ∧ (∀ j y, l !! j = Some y → (j < i)%nat → ltb y m = true).
Proof.
  revert m. induction l as [|x xs IH]; intros m; [done|]. simpl.
  destruct (first_max ltb xs) as [m'|] eqn:Hxs.
  - destruct (IH m' eq_refl) as (i & Hi & Hmax & Hfirst).
    destruct (ltb x m') eqn:Hx; intros [= <-].
    + exists (S i). split; [done|]. split.
      * intros [|j] y; simpl; [intros [= <-]; eauto | eauto].
      * intros [|j] y; simpl; [by intros [= <-] | intros ? ?].
        apply (Hfirst j); [done | lia].
    + exists 0%nat. split; [done|]. split; [|intros; lia].
      intros [|j] y; simpl; [by intros [= <-]|]. intros Hy.
      destruct (ltb x y) eqn:Hxy; [|done].
      by rewrite (ltb_lt_le x y m') in Hx by eauto.
  - intros [= <-]. destruct xs as [|x' xs'].
    2: { destruct (first_max_nonempty (x' :: xs')) as [? E]; [done|].
         congruence. }
    exists 0%nat. split; [done|]. split; [|intros; lia].
    intros [|j] y; simpl; [by intros [= <-] | done].
Qed.

End PureSortFacts.

Lemma insert_pure_perm {A} (ltb : A → A → bool) x l :
  insert_pure ltb x l ≡ₚ x :: l.
Proof.
  induction l as [|y ys IH]; simpl; [done|].
  destruct (ltb x y); [done|]. rewrite IH. apply Permutation_swap.
Qed.

Lemma isort_onto_perm {A} (ltb : A → A → bool) acc l :
  isort_onto ltb acc l ≡ₚ acc ++ l.
Proof.
  revert acc. induction l as [|x xs IH]; intros acc; simpl.
  - by rewrite app_nil_r.
  - unfold isort_onto in *. rewrite IH, insert_pure_perm. simpl.
    apply Permutation_middle.
Qed.

Lemma py_sorted_reverse_perm {A} (ltb : A → A → bool) l :
  ∃ sorted, py_sorted_reverse (λ x y, Ok (ltb x y)) l = Ok sorted
            ∧ sorted ≡ₚ l.
Proof.
  eexists. split; [apply py_sorted_reverse_total|].
  by rewrite reverse_Permutation, isort_onto_perm, reverse_Permutation.
Qed.

Lemma filter_none {A} (p : A → bool) (l : list A) :
  (∀ a, a ∈ l → p a = false) → List.filter p l = [].
Proof.
  induction l as [|x xs IH]; intros Hnone; [done|]. simpl.
  rewrite (Hnone x) by left. apply IH. intros a Ha. apply Hnone. by right.
Qed.

Section PureSortSorted.
Context {A : Type} (ltb : A → A → bool).
Hypothesis ltb_asym : ∀ x y, ltb x y = true → ltb y x = false.
Hypothesis ltb_lt_le : ∀ x y z,
  ltb x y = true → ltb z y = false → ltb x z = true.

Lemma insert_pure_sorted (x : A) (l : list A) :
  sorted_by ltb l → sorted_by ltb (insert_pure ltb x l).
Proof.
  unfold sorted_by. induction l as [|y ys IH]; intros HS; simpl.
  - repeat constructor.
  - apply StronglySorted_inv in HS as [HSys Hy].
    destruct (ltb x y) eqn:Hxy.
    + constructor; [by constructor|]. constructor; [by apply ltb_asym|].
      apply Forall_forall. intros a Ha.
      rewrite Forall_forall in Hy. specialize (Hy a Ha). simpl in Hy.
      destruct (ltb a x) eqn:Hax; [|done].
      rewrite (ltb_lt_le a x y) in Hy; [done | done | by apply ltb_asym].
    + constructor; [by apply IH|]. apply Forall_forall. intros a Ha.
      apply insert_pure_elem in Ha as [->|Ha]; [done|].
      rewrite Forall_forall in Hy. by apply Hy.
Qed.

Lemma isort_onto_sorted (acc l : list A) :
  sorted_by ltb acc → sorted_by ltb (isort_onto ltb acc l).
Proof.
  revert acc. induction l as [|x xs IH]; intros acc HS; [done|].
  apply IH. by apply insert_pure_sorted.
Qed.



End PureSortSorted.

(** ** [sorted] with a comparison that may raise *)

Section PySortFacts.
Context {A : Type} (lt : A → A → result bool).

Lemma insert_sorted_perm x l r : insert_sorted lt x l = Ok r → r ≡ₚ x :: l.
Proof.
  revert r. induction l as [|y ys IH]; intros r; simpl.
  - by intros [= <-].
  - destruct (lt x y) as [[]|]; simpl; [by intros [= <-] | | done].
    destruct (insert_sorted lt x ys) as [r'|]; simpl; [|done].
    intros [= <-]. rewrite (IH r' eq_refl). apply Permutation_swap.
Qed.

Lemma sort_onto_perm acc l r : sort_onto lt acc l = Ok r → r ≡ₚ acc ++ l.
Proof.
  revert acc. induction l as [|x xs IH]; intros acc; simpl.
  - intros [= <-]. by rewrite app_nil_r.
  - destruct (insert_sorted lt x acc) as [acc'|] eqn:Hins; simpl; [|done].
    intros Hr. rewrite (IH _ Hr), (insert_sorted_perm _ _ _ Hins). simpl.
    apply Permutation_middle.
Qed.

Lemma insert_sorted_raise x l e :
  insert_sorted lt x l = Raise e → ∃ y, y ∈ l ∧ lt x y = Raise e.
Proof.
  induction l as [|y ys IH]; simpl; [done|].
  destruct (lt x y) as [[]|e'] eqn:Hxy; simpl.
  - done.
  - destruct (insert_sorted lt x ys); simpl; [done|].
    intros [= ->]. destruct IH as (z & Hz & Hlt); [done|].
    exists z. split; [by right | done].
  - intros [= ->]. exists y. split; [left | done].
Qed.

(** An exception that leaves the sort was raised by a comparison of two
    elements of the list. *)
Lemma sort_onto_raise acc l e :
  sort_onto lt acc l = Raise e →
  ∃ x y, x ∈ acc ++ l ∧ y ∈ acc ++ l ∧ lt x y = Raise e.
Proof.
  revert acc. induction l as [|x xs IH]; intros acc; simpl; [done|].
  destruct (insert_sorted lt x acc) as [acc'|e'] eqn:Hins; simpl.
  - intros Hr. destruct (IH _ Hr) as (a & b & Ha & Hb & Hab).
    pose proof (insert_sorted_perm _ _ _ Hins) as Hperm.
    exists a, b. rewrite <- Permutation_middle, app_comm_cons, <- Hperm.
    done.
  - intros [= ->]. apply insert_sorted_raise in Hins as (y & Hy & Hxy).
    exists x, y. rewrite !elem_of_app, !elem_of_cons. tauto.
Qed.

(** The sort reads the comparison on the elements of the list only. *)
Lemma insert_sorted_ext (lt' : A → A → result bool) x l :
  (∀ y, y ∈ l → lt x y = lt' x y) →
  insert_sorted lt x l = insert_sorted lt' x l.
Proof.
  induction l as [|y ys IH]; intros Hext; simpl; [done|].
  rewrite <- (Hext y) by left. rewrite IH; [done|].
  intros z Hz. apply Hext. by right.
Qed.

Lemma sort_onto_ext (lt' : A → A → result bool) acc l :
  (∀ x y, x ∈ acc ++ l → y ∈ acc ++ l → lt x y = lt' x y) →
  sort_onto lt acc l = sort_onto lt' acc l.
Proof.
  revert acc. induction l as [|x xs IH]; intros acc Hext; simpl; [done|].
  rewrite <- (insert_sorted_ext lt' x acc).
  2: { intros y Hy. apply Hext; rewrite elem_of_app, ?elem_of_cons; tauto. }
  destruct (insert_sorted lt x acc) as [acc'|] eqn:Hins; simpl; [|done].
  apply IH. intros a b Ha Hb.
  pose proof (insert_sorted_perm _ _ _ Hins) as Hperm.
  apply Hext; rewrite <- Permutation_middle, app_comm_cons, <- Hperm; done.
Qed.
End PySortFacts.

(** ** Selecting the best employee *)

Lemma score_total (task : Task.t) (employee : Employee.t) :
  ¬ (Employee.max_hours employee == 0)%Q →
  ∃ s, AutoScheduler._score_employee_for_task task employee = Ok s.
Proof.
  intros Hmax. unfold AutoScheduler._score_employee_for_task.
  rewrite !Float_div_nonzero by done. simpl. eauto.
Qed.

Lemma score_all_Forall2 (h : Task.heap) (task : loc) (eligible : list loc)
    (scored : list (loc * Q)) :
  AutoScheduler.score_all h task eligible = Ok scored →
  Forall2
    (λ emp p,
       p.1 = emp
       ∧ AutoScheduler._score_employee_for_task (task_at h task)
           (employee_at h emp) = Ok p.2)
    eligible scored.
Proof.
  revert scored. induction eligible as [|emp rest IH]; intros scored; simpl.
  - intros [= <-]. constructor.
  - destruct (AutoScheduler._score_employee_for_task _ _) as [s|] eqn:Hs;
      [simpl | done].
    destruct (AutoScheduler.score_all h task rest) as [l|]; [simpl | done].
    intros [= <-]. constructor; auto.
Qed.

Lemma score_all_total (h : Task.heap) (task : loc) (eligible : list loc) :
  (∀ emp, emp ∈ eligible →
          ¬ (Employee.max_hours (employee_at h emp) == 0)%Q) →
  ∃ scored, AutoScheduler.score_all h task eligible = Ok scored.
Proof.
  induction eligible as [|emp rest IH]; intros Hmax; simpl; [eauto|].
  destruct (score_total (task_at h task) (employee_at h emp)) as [s ->].
  { apply Hmax. left. }
  destruct IH as [l ->]; [|simpl; eauto].
  intros e He. apply Hmax. by right.
Qed.

Lemma score_ltb_irrefl (x : loc * Q) : Float.ltb x.2 x.2 = false.
Proof. apply Float_ltb_ge, Qle_refl. Qed.

Lemma score_ltb_asym (x y : loc * Q) :
  Float.ltb x.2 y.2 = true → Float.ltb y.2 x.2 = false.
Proof. rewrite Float_ltb_lt, Float_ltb_ge. apply Qlt_le_weak. Qed.

Lemma score_ltb_lt_le (x y z : loc * Q) :
  Float.ltb x.2 y.2 = true → Float.ltb z.2 y.2 = false →
  Float.ltb x.2 z.2 = true.
Proof. rewrite !Float_ltb_lt, Float_ltb_ge. apply Qlt_le_trans. Qed.

(** C5.  Given a non-empty list of candidates that can all be scored,
    [_select_best_employee] returns the candidate at a position [i] of the
    list whose score no other candidate exceeds, and which every candidate
    at an earlier position stays strictly below: the first maximal element
    of the list in encounter order. *)
Theorem select_best_employee_first_maximum
    (self : AutoScheduler.t) (h : Task.heap) (task : loc)
    (eligible : list loc) :
  eligible ≠ [] →
  (∀ emp, emp ∈ eligible →
          ¬ (Employee.max_hours (employee_at h emp) == 0)%Q) →
  let score emp :=
    AutoScheduler._score_employee_for_task (task_at h task)
      (employee_at h emp) in
  ∃ (i : nat) (best : loc) (s : Q) (self' : AutoScheduler.t),
    AutoScheduler._select_best_employee self h task eligible
    = Ok (best, self')
    ∧ eligible !! i = Some best
    ∧ score best = Ok s
    ∧ (∀ j emp s', eligible !! j = Some emp → score emp = Ok s' →
                   (s' <= s)%Q)
    ∧ (∀ j emp s', eligible !! j = Some emp → score emp = Ok s' →
                   (j < i)%nat → (s' < s)%Q).
Proof.
  intros Hne Hmax score.
  destruct (score_all_total h task eligible Hmax) as [scored Hscored].
  pose proof (score_all_Forall2 _ _ _ _ Hscored) as Hall.
  unfold AutoScheduler._select_best_employee. rewrite Hscored. simpl.
  rewrite (py_sorted_reverse_total (λ x y : loc * Q, Float.ltb x.2 y.2)).
  simpl.
  pose proof (head_sorted_reverse _ score_ltb_irrefl score_ltb_asym
                score_ltb_lt_le scored)
    as Hhead.
  destruct (first_max_nonempty (λ x y : loc * Q, Float.ltb x.2 y.2) scored)
    as [[best s] Hbest].
  { intros ->. apply Forall2_nil_inv_r in Hall. done. }
  rewrite Hbest in Hhead.
  destruct (reverse _) as [|b sorted]; [done|].
  injection Hhead as ->.
  destruct (first_max_spec _ score_ltb_irrefl score_ltb_asym score_ltb_lt_le
              _ _ Hbest) as (i & Hi & Hmaxi & Hfirst).
  destruct (Forall2_lookup_r _ _ _ _ _ Hall Hi) as (e & He & <- & Hs).
  exists i, (best, s).1, s. eexists. simpl in *.
  split; [reflexivity|]. split; [done|]. split; [done|].
  split.
  - intros j emp s' Hj Hs'.
    destruct (Forall2_lookup_l _ _ _ _ _ Hall Hj)
      as ([e' s''] & Hj' & ? & Hs'').
    simpl in *. subst e'. unfold score in Hs'. rewrite Hs' in Hs''.
    injection Hs'' as <-.
    apply Float_ltb_ge. apply (Hmaxi _ _ Hj').
  - intros j emp s' Hj Hs' Hlt.
    destruct (Forall2_lookup_l _ _ _ _ _ Hall Hj)
      as ([e' s''] & Hj' & ? & Hs'').
    simpl in *. subst e'. unfold score in Hs'. rewrite Hs' in Hs''.
    injection Hs'' as <-.
    apply Float_ltb_lt. apply (Hfirst _ _ Hj' Hlt).
Qed.

(** ** What the methods leave alone *)

Lemma same_static_refl h : same_static h h.
Proof. by split. Qed.

Lemma same_static_trans h1 h2 h3 :
  same_static h1 h2 → same_static h2 h3 → same_static h1 h3.
Proof.
  intros [He1 Ht1] [He2 Ht2]. split; intros l.
  - by rewrite He2, He1.
  - by rewrite Ht2, Ht1.
Qed.

Lemma same_static_max_hours h h' l :
  same_static h h' →
  Employee.max_hours (employee_at h' l) = Employee.max_hours (employee_at h l).
Proof. intros [He _]. exact (f_equal Employee.max_hours (He l)). Qed.

Lemma same_static_duration h h' l :
  same_static h h' →
  Task.duration (task_at h' l) = Task.duration (task_at h l).
Proof. intros [_ Ht]. exact (f_equal Task.duration (Ht l)). Qed.

Lemma same_static_write_employee h l q :
  same_static h
    (write_employee h l (Employee.set_current_hours (employee_at h l) q)).
Proof.
  split; [|done]. intros l'. simpl. unfold upd.
  by destruct (Nat.eqb_spec l' l) as [->|].
Qed.

Lemma same_static_write_task h l e :
  same_static h
    (write_task h l (Task.set_assigned_employee (task_at h l) e)).
Proof.
  split; [done|]. intros l'. simpl. unfold upd.
  by destruct (Nat.eqb_spec l' l) as [->|].
Qed.

Lemma assign_to_static task employee h :
  same_static h (Task.assign_to task employee h).2.
Proof.
  unfold Task.assign_to.
  destruct (Task.can_be_assigned_to _ _); [|apply same_static_refl].
  eapply (same_static_trans _ (write_task h task _));
    [apply same_static_write_task|].
  apply (same_static_write_employee (write_task h task _) employee).
Qed.

Lemma unassign_static task h : same_static h (Task.unassign task h).
Proof.
  unfold Task.unassign.
  destruct (Task.assigned_employee _) as [e|]; [|apply same_static_refl].
  eapply (same_static_trans _ (write_employee h e _));
    [apply same_static_write_employee|].
  apply (same_static_write_task (write_employee h e _) task).
Qed.

Lemma reset_hours_loop_static employees h :
  same_static h (reset_hours_loop employees h).
Proof.
  revert h. induction employees as [|e es IH]; intros h;
    [apply same_static_refl|]. simpl.
  eapply same_static_trans; [|apply IH]. apply same_static_write_employee.
Qed.

Lemma unassign_loop_static tasks h : same_static h (unassign_loop tasks h).
Proof.
  revert h. induction tasks as [|t ts IH]; intros h;
    [apply same_static_refl|]. simpl.
  eapply same_static_trans; [|apply IH]. apply unassign_static.
Qed.

Lemma reset_unfold sch h :
  Schedule.reset sch h
  = unassign_loop (Schedule.tasks sch)
      (reset_hours_loop (Schedule.employees sch) h).
Proof. done. Qed.

Lemma reset_static sch h : same_static h (Schedule.reset sch h).
Proof.
  rewrite reset_unfold. eapply same_static_trans;
    [apply reset_hours_loop_static | apply unassign_loop_static].
Qed.

(** ** The two loops of [reset] *)

Lemma reset_hours_loop_task_at employees h :
  task_at (reset_hours_loop employees h) = task_at h.
Proof.
  revert h. induction employees as [|e es IH]; intros h; [done|].
  simpl. by rewrite IH.
Qed.

Lemma reset_hours_loop_employee_at employees h l :
  employee_at (reset_hours_loop employees h) l
  = if decide (l ∈ employees) then Employee.reset_hours (employee_at h l)
    else employee_at h l.
Proof.
  revert h. induction employees as [|e es IH]; intros h; [done|].
  simpl. rewrite IH. simpl. unfold upd.
  destruct (Nat.eqb_spec l e) as [->|Hne].
  - rewrite (decide_True (P := e ∈ e :: es)) by left.
    by destruct (decide (e ∈ es)).
  - destruct (decide (l ∈ es)).
    + by rewrite decide_True by by right.
    + rewrite decide_False; [done|]. rewrite elem_of_cons. tauto.
Qed.

Lemma unassign_task_at task h l :
  task_at (Task.unassign task h) l
  = if decide (l = task)
    then Task.set_assigned_employee (task_at h l) None
    else task_at h l.
Proof.
  unfold Task.unassign.
  destruct (Task.assigned_employee (task_at h task)) eqn:Hlink; simpl.
  - unfold upd. destruct (Nat.eqb_spec l task) as [->|];
      [by rewrite decide_True | by rewrite decide_False].
  - destruct (decide (l = task)) as [->|]; [|done].
    by destruct (task_at h task); simpl in *; subst.
Qed.

Lemma unassign_loop_task_at tasks h l :
  task_at (unassign_loop tasks h) l
  = if decide (l ∈ tasks)
    then Task.set_assigned_employee (task_at h l) None
    else task_at h l.
Proof.
  revert h. induction tasks as [|t ts IH]; intros h; [done|].
  simpl. rewrite IH, unassign_task_at.
  destruct (decide (l = t)) as [->|Hne].
  - rewrite (decide_True (P := t ∈ t :: ts)) by left.
    by destruct (decide (t ∈ ts)).
  - destruct (decide (l ∈ ts)).
    + by rewrite decide_True by by right.
    + rewrite decide_False; [done|]. rewrite elem_of_cons. tauto.
Qed.

Lemma unassign_employee_at task h l :
  employee_at (Task.unassign task h) l
  = match Task.assigned_employee (task_at h task) with
    | Some e =>
        if decide (l = e)
        then Employee.set_current_hours (employee_at h l)
               (Employee.current_hours (employee_at h l)
                - Task.duration (task_at h task))
        else employee_at h l
    | None => employee_at h l
    end.
Proof.
  unfold Task.unassign.
  destruct (Task.assigned_employee (task_at h task)); simpl; [|done].
  unfold upd. destruct (Nat.eqb_spec l l0) as [->|];
    [by rewrite decide_True | by rewrite decide_False].
Qed.

(** Employees that no task of the list is linked to keep their hours. *)
Lemma unassign_loop_untouched (S : loc → Prop) tasks h :
  (∀ task e, task ∈ tasks →
             Task.assigned_employee (task_at h task) = Some e → ¬ S e) →
  ∀ l, S l → employee_at (unassign_loop tasks h) l = employee_at h l.
Proof.
  revert h. induction tasks as [|t ts IH]; intros h Hlinks l Hl; [done|].
  simpl. rewrite IH; [| |done].
  - rewrite unassign_employee_at.
    destruct (Task.assigned_employee (task_at h t)) as [e|] eqn:He; [|done].
    rewrite decide_False; [done|]. intros ->.
    by apply (Hlinks t e); [left | |].
  - intros t' e Ht'. rewrite unassign_task_at.
    destruct (decide (t' = t)); [done|]. apply Hlinks. by right.
Qed.

(** With durations that are not negative, [unassign] only lowers hours. *)
Lemma unassign_loop_hours_le tasks h :
  (∀ task, task ∈ tasks → (0 <= Task.duration (task_at h task))%Q) →
  ∀ l, (Employee.current_hours (employee_at (unassign_loop tasks h) l)
        <= Employee.current_hours (employee_at h l))%Q.
Proof.
  revert h. induction tasks as [|t ts IH]; intros h Hdur l;
    [apply Qle_refl|]. simpl.
  eapply Qle_trans; [apply IH|].
  - intros t' Ht'.
    rewrite (same_static_duration h _ t' (unassign_static t h)).
    apply Hdur. by right.
  - rewrite unassign_employee_at.
    destruct (Task.assigned_employee (task_at h t)); [|apply Qle_refl].
    destruct (decide (l = l0)); [|apply Qle_refl]. simpl.
    assert (0 <= Task.duration (task_at h t))%Q as Hd by (apply Hdur; left).
    rewrite <- (Qplus_0_r (Employee.current_hours (employee_at h l))) at 2.
    unfold Qminus. apply Qplus_le_r.
    apply (Qopp_le_compat 0) in Hd. exact Hd.
Qed.

(** ** After [reset] *)

Lemma reset_task_at sch h l :
  task_at (Schedule.reset sch h) l
  = if decide (l ∈ Schedule.tasks sch)
    then Task.set_assigned_employee (task_at h l) None
    else task_at h l.
Proof.
  by rewrite reset_unfold, unassign_loop_task_at, reset_hours_loop_task_at.
Qed.

Lemma reset_unlinks sch h task :
  task ∈ Schedule.tasks sch →
  Task.assigned_employee (task_at (Schedule.reset sch h) task) = None.
Proof. intros Hin. rewrite reset_task_at. by rewrite decide_True. Qed.

Lemma reset_employee_untouched (S : loc → Prop) sch h :
  (∀ task e, task ∈ Schedule.tasks sch →
             Task.assigned_employee (task_at h task) = Some e → ¬ S e) →
  ∀ l, l ∈ Schedule.employees sch → S l →
       employee_at (Schedule.reset sch h) l
       = Employee.reset_hours (employee_at h l).
Proof.
  intros Hlinks l Hl HS. rewrite reset_unfold.
  rewrite (unassign_loop_untouched S); [| |done].
  - rewrite reset_hours_loop_employee_at. by rewrite decide_True.
  - intros t e Ht. rewrite reset_hours_loop_task_at. by apply Hlinks.
Qed.

Lemma reset_hours_nonpositive sch h :
  (∀ task, task ∈ Schedule.tasks sch →
           (0 <= Task.duration (task_at h task))%Q) →
  ∀ l, l ∈ Schedule.employees sch →
       (Employee.current_hours (employee_at (Schedule.reset sch h) l) <= 0)%Q.
Proof.
  intros Hdur l Hl. rewrite reset_unfold.
  eapply Qle_trans; [apply unassign_loop_hours_le|].
  - intros t Ht. rewrite reset_hours_loop_task_at. by apply Hdur.
  - rewrite reset_hours_loop_employee_at, decide_True by done.
    apply Qle_refl.
Qed.

(** C1, at a schedule where the claim fails.  One employee, one task of 20
    hours: [schedule_all] assigns the task, and a [reset] of the resulting
    schedule clears the link but leaves the employee with -20 hours, which
    [get_statistics] reports as [total_hours_scheduled]. *)
Theorem reset_after_run_leaves_negative_hours :
  ∃ (self : AutoScheduler.t) (h : Task.heap) (stats : Schedule.statistics),
    AutoScheduler.schedule_all (AutoScheduler.__init__ solo) solo_heap
    = Ok (true, self, h)
    ∧ Task.assigned_employee (task_at h 0) = Some 0%nat
    ∧ (Employee.current_hours (employee_at h 0%nat) == 20)%Q
    ∧ Task.assigned_employee (task_at (Schedule.reset solo h) 0) = None
    ∧ (Employee.current_hours (employee_at (Schedule.reset solo h) 0%nat)
       == -20)%Q
    ∧ Schedule.get_statistics solo (Schedule.reset solo h) = Ok stats
    ∧ Schedule.assigned_tasks stats = 0%Z
    ∧ (Schedule.total_hours_scheduled stats == -20)%Q.
Proof.
  eexists _, _, _.
  split; [vm_compute; reflexivity|].
  split; [vm_compute; reflexivity|].
  split; [vm_compute; reflexivity|].
  split; [vm_compute; reflexivity|].
  split; [vm_compute; reflexivity|].
  split; [vm_compute; reflexivity|].
  split; vm_compute; reflexivity.
Qed.

(** ** Ordering the tasks *)

Ltac order_cases :=
  unfold comes_before, mixed_deadlines, deadline_before, datetime_lt in *;
  repeat match goal with
         | a : Task.t |- _ => destruct a as [? ? ? ? ? ? [[?|?]|] ?]
         end;
  simpl in *;
  repeat match goal with
         | H : context [(?x <? ?y)%Z] |- _ => destruct (Z.ltb_spec x y)
         | H : context [(?x =? ?y)%Z] |- _ => destruct (Z.eqb_spec x y)
         | |- context [(?x <? ?y)%Z] => destruct (Z.ltb_spec x y)
         | |- context [(?x =? ?y)%Z] => destruct (Z.eqb_spec x y)
         end;
  simpl in *; try done; try lia.

(** Where the keys of two tasks can be compared, the comparison is the order
    of the specification; they cannot be compared when the deadlines are
    mixed. *)
Lemma sort_key_lt_spec (a b : Task.t) :
  AutoScheduler.sort_key_lt (AutoScheduler.sort_key a)
    (AutoScheduler.sort_key b)
  = if mixed_deadlines a b then Raise TypeError else Ok (comes_before a b).
Proof.
  unfold AutoScheduler.sort_key_lt, AutoScheduler.sort_key. order_cases.
Qed.

Lemma comes_before_asym a b :
  comes_before a b = true → comes_before b a = false.
Proof. order_cases. Qed.

Lemma comes_before_lt_le a b c :
  comes_before a b = true → comes_before c b = false →
  comes_before a c = true.
Proof. order_cases. Qed.

Lemma mixed_deadlines_irrefl a : mixed_deadlines a a = false.
Proof. order_cases. Qed.

Lemma mixed_deadlines_sym a b : mixed_deadlines a b = mixed_deadlines b a.
Proof. order_cases. Qed.

Lemma mixed_deadlines_between a b c :
  comes_before a b = true → comes_before c b = false →
  mixed_deadlines a b = false → mixed_deadlines b c = false →
  mixed_deadlines a c = false.
Proof. order_cases. Qed.


Lemma sort_key_lt_raise a b e :
  AutoScheduler.sort_key_lt a b = Raise e → e = TypeError.
Proof.
  unfold AutoScheduler.sort_key_lt.
  destruct (a.1 =? b.1)%Z; [|done].
  destruct a.2 as [[?|?]|], b.2 as [[?|?]|]; simpl; congruence.
Qed.

Lemma sort_tasks_by_priority_raise self h e :
  AutoScheduler._sort_tasks_by_priority self h = Raise e → e = TypeError.
Proof.
  unfold AutoScheduler._sort_tasks_by_priority, py_sorted. intros Hr.
  apply sort_onto_raise in Hr as (x & y & _ & _ & Hxy).
  by apply sort_key_lt_raise in Hxy.
Qed.

Lemma sort_tasks_by_priority_perm self h sorted :
  AutoScheduler._sort_tasks_by_priority self h = Ok sorted →
  sorted ≡ₚ Schedule.tasks (AutoScheduler.schedule self).
Proof.
  unfold AutoScheduler._sort_tasks_by_priority, py_sorted. intros Hr.
  by apply sort_onto_perm in Hr.
Qed.

Section SortTasks.
Context (h : Task.heap).

Lemma task_before_asym a b :
  task_before h a b = true → task_before h b a = false.
Proof. apply comes_before_asym. Qed.

Lemma task_before_lt_le a b c :
  task_before h a b = true → task_before h c b = false →
  task_before h a c = true.
Proof. apply comes_before_lt_le. Qed.

Lemma insert_sorted_tasks (x : loc) (acc r : list loc) :
  insert_sorted
    (λ a b, AutoScheduler.sort_key_lt (AutoScheduler.sort_key (task_at h a))
              (AutoScheduler.sort_key (task_at h b))) x acc = Ok r →
  sorted_by (task_before h) acc →
  (∀ a b, a ∈ acc → b ∈ acc → tasks_mixed h a b = false) →
  r = insert_pure (task_before h) x acc
  ∧ ∀ a, a ∈ acc → tasks_mixed h x a = false.
Proof.
  unfold sorted_by, task_before, tasks_mixed. revert r.
  induction acc as [|y ys IH]; intros r; simpl.
  { intros [= <-] _ _. split; [done|]. by intros a Ha%elem_of_nil. }
  rewrite sort_key_lt_spec.
  destruct (mixed_deadlines (task_at h x) (task_at h y)) eqn:Hm; [done|].
  simpl. destruct (comes_before (task_at h x) (task_at h y)) eqn:Hb.
  - intros [= <-] [HS Hy]%StronglySorted_inv Hnomix. split; [done|].
    intros a [->|Ha]%elem_of_cons; [done|].
    rewrite Forall_forall in Hy.
    apply (mixed_deadlines_between _ (task_at h y));
      [done | by apply Hy | done |].
    apply Hnomix; [left | by right].
  - destruct (insert_sorted _ x ys) as [r'|] eqn:Hins; simpl; [|done].
    intros [= <-] [HS Hy]%StronglySorted_inv Hnomix.
    destruct (IH r' eq_refl HS) as [-> Hx].
    { intros a b Ha Hb'. apply Hnomix; by right. }
    split; [done|]. intros a [->|Ha]%elem_of_cons; [done | by apply Hx].
Qed.

Lemma sort_onto_tasks (acc l r : list loc) :
  sort_onto
    (λ a b, AutoScheduler.sort_key_lt (AutoScheduler.sort_key (task_at h a))
              (AutoScheduler.sort_key (task_at h b))) acc l = Ok r →
  sorted_by (task_before h) acc →
  (∀ a b, a ∈ acc → b ∈ acc → tasks_mixed h a b = false) →
  r = isort_onto (task_before h) acc l
  ∧ ∀ a b, a ∈ acc ++ l → b ∈ acc ++ l → tasks_mixed h a b = false.
Proof.
  revert acc. induction l as [|x xs IH]; intros acc; simpl.
  { intros [= <-] _ Hnomix. split; [done|]. by rewrite app_nil_r. }
  destruct (insert_sorted _ x acc) as [acc'|] eqn:Hins; simpl; [|done].
  intros Hr HS Hnomix.
  destruct (insert_sorted_tasks x acc acc' Hins HS Hnomix) as [-> Hx].
  destruct (IH _ Hr) as [-> Hall].
  - by apply insert_pure_sorted;
      [apply task_before_asym | apply task_before_lt_le |].
  - intros a b [->|Ha]%insert_pure_elem [->|Hb']%insert_pure_elem.
    + apply mixed_deadlines_irrefl.
    + by apply Hx.
    + unfold tasks_mixed. rewrite mixed_deadlines_sym. by apply Hx.
    + by apply Hnomix.
  - split; [done|]. intros a b Ha Hb'.
    apply Hall; rewrite elem_of_app, insert_pure_elem;
      rewrite elem_of_app, elem_of_cons in Ha, Hb'; tauto.
Qed.


(** X14.  If two tasks of the list have the same priority and deadlines
    that cannot be ordered (one of them has a deadline and the other has
    none, or one deadline is naive and the other aware),
    [_sort_tasks_by_priority] raises [TypeError]. *)
Lemma sort_tasks_by_priority_mixed (self : AutoScheduler.t) (a b : loc) :
  a ∈ Schedule.tasks (AutoScheduler.schedule self) →
  b ∈ Schedule.tasks (AutoScheduler.schedule self) →
  tasks_mixed h a b = true →
  AutoScheduler._sort_tasks_by_priority self h = Raise TypeError.
Proof.
  intros Ha Hb Hmixed.
  destruct (AutoScheduler._sort_tasks_by_priority self h) as [sorted|e]
    eqn:Hsort.
  - unfold AutoScheduler._sort_tasks_by_priority, py_sorted in Hsort.
    apply sort_onto_tasks in Hsort as [_ Hall];
      [|constructor | by intros ? ? ?%elem_of_nil].
    rewrite (Hall a b) in Hmixed; done.
  - by apply sort_tasks_by_priority_raise in Hsort as ->.
Qed.
End SortTasks.

(** C3, at a schedule where the claim fails.  Two tasks of priority 5, the
    first with a deadline and the second without: comparing their sort keys
    compares a [datetime] with [float('inf')], and the [TypeError] leaves
    [_sort_tasks_by_priority] and [schedule_all]. *)
Theorem sort_tasks_raises_on_mixed_deadlines :
  AutoScheduler._sort_tasks_by_priority (AutoScheduler.__init__ mixed)
    mixed_heap = Raise TypeError
  ∧ AutoScheduler.schedule_all (AutoScheduler.__init__ mixed) mixed_heap
    = Raise TypeError.
Proof. split; vm_compute; reflexivity. Qed.

(** ** Tasks of an employee *)

Lemma employee_eqb_same_fields (a b : Employee.t) :
  Employee.eqb a b = true ↔ same_fields a b.
Proof.
  unfold Employee.eqb, same_fields, Float.eqb.
  rewrite !andb_true_iff, !Z.eqb_eq, !String.eqb_eq, !Qeq_bool_iff,
    bool_decide_eq_true.
  tauto.
Qed.

Lemma same_fields_refl (a : Employee.t) : same_fields a a.
Proof. repeat split; reflexivity. Qed.

(** A task is among those that [get_employee_tasks] returns exactly when it
    is in the task list and linked to an employee with the field values of
    the given one, which need not be the given object. *)
Lemma get_employee_tasks_elem sch h employee task :
  task ∈ Schedule.get_employee_tasks sch h employee
  ↔ task ∈ Schedule.tasks sch
    ∧ ∃ e, Task.assigned_employee (task_at h task) = Some e
           ∧ same_fields (employee_at h e) (employee_at h employee).
Proof.
  unfold Schedule.get_employee_tasks.
  rewrite !list_elem_of_In, filter_In.
  destruct (Task.assigned_employee (task_at h task)) as [e|].
  - rewrite employee_eqb_same_fields. split.
    + intros [? ?]. eauto.
    + intros [? (e' & [= <-] & ?)]. done.
  - split; [by intros [_ ?] | by intros [_ (e' & ? & _)]].
Qed.

(** C8, amended.  When every employee object that a task of the list is
    linked to and that has the field values of [employee] is [employee]
    itself, [get_employee_tasks] returns exactly the tasks whose link refers
    to [employee] by identity. *)
Theorem get_employee_tasks_by_identity
    (sch : Schedule.t) (h : Task.heap) (employee : loc) :
  (∀ task e,
     task ∈ Schedule.tasks sch →
     Task.assigned_employee (task_at h task) = Some e →
     same_fields (employee_at h e) (employee_at h employee) →
     e = employee) →
  Schedule.get_employee_tasks sch h employee = tasks_linked_to sch h employee.
Proof.
  intros Hdistinct. unfold Schedule.get_employee_tasks, tasks_linked_to.
  apply filter_ext_in. intros task Htask%list_elem_of_In.
  destruct (Task.assigned_employee (task_at h task)) as [e|] eqn:Hlink;
    [|done].
  destruct (Employee.eqb _ _) eqn:Heq.
  - apply employee_eqb_same_fields in Heq.
    rewrite (Hdistinct task e Htask Hlink Heq).
    by rewrite bool_decide_eq_true_2.
  - rewrite bool_decide_eq_false_2; [done|]. intros [= ->].
    pose proof (same_fields_refl (employee_at h employee)) as Hrefl.
    apply employee_eqb_same_fields in Hrefl. congruence.
Qed.

(** C8 fails on two employee objects with equal field values.  After
    [schedule_all] each of the two has one task of 20 hours, so the two
    objects are still equal, and [get_employee_tasks] returns both tasks for
    the first employee although the second task is linked to the other
    object. *)
Lemma get_employee_tasks_not_by_identity :
  ∃ (self : AutoScheduler.t) (h : Task.heap),
    AutoScheduler.schedule_all (AutoScheduler.__init__ twins) twins_heap
    = Ok (true, self, h)
    ∧ Task.assigned_employee (task_at h 1) = Some 1%nat
    ∧ Schedule.get_employee_tasks twins h 0 = [0; 1]%nat
    ∧ tasks_linked_to twins h 0 = [0]%nat
    ∧ Schedule.get_employee_tasks twins h 0 ≠ tasks_linked_to twins h 0.
Proof.
  eexists _, _.
  split; [vm_compute; reflexivity|].
  split; [vm_compute; reflexivity|].
  split; [vm_compute; reflexivity|].
  split; [vm_compute; reflexivity|].
  vm_compute. discriminate.
Qed.

(** ** One step of the pass *)

(** [_select_best_employee] returns one of the candidates and writes neither
    the schedule nor the recorded reasons. *)
Lemma select_best_employee_inv self h task eligible best self' :
  AutoScheduler._select_best_employee self h task eligible = Ok (best, self') →
  best ∈ eligible
  ∧ AutoScheduler.schedule self' = AutoScheduler.schedule self
  ∧ AutoScheduler.unassigned_reasons self'
    = AutoScheduler.unassigned_reasons self.
Proof.
  unfold AutoScheduler._select_best_employee.
  destruct (AutoScheduler.score_all h task eligible) as [scored|] eqn:Hscored;
    [simpl | done].
  destruct (py_sorted_reverse_perm (λ x y : loc * Q, Float.ltb x.2 y.2) scored)
    as (sorted & -> & Hperm). simpl.
  destruct sorted as [|[b s] sorted]; [done|]. intros [= <- <-]. simpl.
  split; [|done].
  assert ((b, s) ∈ scored) as Hin by (rewrite <- Hperm; left).
  apply list_elem_of_lookup in Hin as [i Hi].
  destruct (Forall2_lookup_r _ _ _ _ _ (score_all_Forall2 _ _ _ _ Hscored) Hi)
    as (e & He & <- & _).
  apply list_elem_of_lookup. eauto.
Qed.

Lemma select_best_employee_total self h task eligible :
  eligible ≠ [] →
  (∀ emp, emp ∈ eligible →
          ¬ (Employee.max_hours (employee_at h emp) == 0)%Q) →
  ∃ best self',
    AutoScheduler._select_best_employee self h task eligible
    = Ok (best, self').
Proof.
  intros Hne Hmax. unfold AutoScheduler._select_best_employee.
  destruct (score_all_total h task eligible Hmax) as [scored Hscored].
  rewrite Hscored. simpl.
  destruct (py_sorted_reverse_perm (λ x y : loc * Q, Float.ltb x.2 y.2) scored)
    as (sorted & -> & Hperm). simpl.
  destruct sorted as [|[b s] sorted]; [|eauto].
  apply Permutation_nil_l in Hperm. subst scored.
  apply score_all_Forall2, Forall2_nil_inv_r in Hscored. done.
Qed.

Lemma get_eligible_employees_elem self h task emp :
  emp ∈ AutoScheduler._get_eligible_employees self h task
  ↔ emp ∈ Schedule.employees (AutoScheduler.schedule self)
    ∧ Task.can_be_assigned_to (task_at h task) (employee_at h emp) = true.
Proof.
  unfold AutoScheduler._get_eligible_employees.
  rewrite !list_elem_of_In, filter_In. tauto.
Qed.

(** [_assign_task] either leaves the store alone or commits the task to an
    eligible employee of the roster. *)
Lemma assign_task_inv self h task ok self' h' :
  AutoScheduler._assign_task self h task = Ok (ok, self', h') →
  AutoScheduler.schedule self' = AutoScheduler.schedule self
  ∧ AutoScheduler.unassigned_reasons self'
    = AutoScheduler.unassigned_reasons self
  ∧ ((ok = false ∧ h' = h
      ∧ AutoScheduler._get_eligible_employees self h task = [])
     ∨ ∃ best,
         best ∈ Schedule.employees (AutoScheduler.schedule self)
         ∧ Task.can_be_assigned_to (task_at h task) (employee_at h best)
           = true
         ∧ Task.assign_to task best h = (ok, h')).
Proof.
  unfold AutoScheduler._assign_task.
  destruct (AutoScheduler._get_eligible_employees self h task)
    as [|e0 el] eqn:Hel.
  { intros [= <- <- <-]. split; [done|]. split; [done|]. by left. }
  destruct (AutoScheduler._select_best_employee _ _ _ _)
    as [[best self1]|] eqn:Hsel; [simpl | done].
  apply select_best_employee_inv in Hsel as (Hin & Hsch & Hreasons).
  destruct (Task.assign_to task best h) as [ok1 h1] eqn:Hassign.
  intros [= <- <- <-]. split; [done|]. split; [done|]. right.
  exists best. rewrite <- Hel in Hin.
  apply get_eligible_employees_elem in Hin as [? ?]. done.
Qed.

(** An invariant of the store that every commit to an eligible employee of
    the roster keeps is kept by the whole loop. *)
Lemma schedule_loop_inv `{Interp} (I : Task.heap → Prop) (sch : Schedule.t) :
  (∀ task best g,
     I g → best ∈ Schedule.employees sch →
     Task.can_be_assigned_to (task_at g task) (employee_at g best) = true →
     I (Task.assign_to task best g).2) →
  ∀ sorted_tasks self h self' h',
    AutoScheduler.schedule self = sch → I h →
    AutoScheduler.schedule_loop self h sorted_tasks = Ok (self', h') →
    I h' ∧ AutoScheduler.schedule self' = sch.
Proof.
  intros Hstep sorted_tasks.
  induction sorted_tasks as [|task rest IH]; intros self h self' h' Hsch HI;
    simpl.
  { by intros [= <- <-]. }
  destruct (AutoScheduler._assign_task self h task) as [[[ok self1] h1]|]
    eqn:Hassign; [simpl | done].
  apply assign_task_inv in Hassign as (Hsch1 & _ & Hcase).
  apply IH.
  - destruct ok; simpl; congruence.
  - destruct Hcase as [(_ & -> & _)|(best & Hin & Hcan & Hassign)]; [done|].
    rewrite Hsch in Hin. pose proof (Hstep task best h HI Hin Hcan) as HI'.
    by rewrite Hassign in HI'.
Qed.

(** [_assign_task] scores the candidates on the store as it is before the
    commit, and links the task to the candidate that
    [_select_best_employee] returns. *)
Lemma assign_task_scores_before_commit self h task ok self' h' :
  AutoScheduler._get_eligible_employees self h task ≠ [] →
  AutoScheduler._assign_task self h task = Ok (ok, self', h') →
  ∃ scored best self1,
    AutoScheduler.score_all h task
      (AutoScheduler._get_eligible_employees self h task) = Ok scored
    ∧ AutoScheduler.score_log self'
      = AutoScheduler.score_log self ++ [(task, scored)]
    ∧ AutoScheduler._select_best_employee self h task
        (AutoScheduler._get_eligible_employees self h task)
      = Ok (best, self1)
    ∧ Task.assign_to task best h = (ok, h').
Proof.
  intros Hne. unfold AutoScheduler._assign_task.
  destruct (AutoScheduler._get_eligible_employees self h task)
    as [|e0 el] eqn:Hel; [done|].
  destruct (AutoScheduler._select_best_employee _ _ _ _)
    as [[best self1]|] eqn:Hsel; [cbn -[AutoScheduler.score_all] | done].
  destruct (Task.assign_to task best h) as [ok1 h1] eqn:Hassign.
  intros [= <- <- <-].
  pose proof Hsel as Hlog. unfold AutoScheduler._select_best_employee in Hlog.
  destruct (AutoScheduler.score_all h task (e0 :: el)) as [scored|];
    [cbn -[AutoScheduler.score_all] in Hlog | done].
  destruct (py_sorted_reverse _ scored) as [[|b sorted]|];
    cbn -[AutoScheduler.score_all] in Hlog; try done.
  injection Hlog as <- <-. exists scored. eexists _, _.
  split; [reflexivity|]. split; [|split; [reflexivity | exact Hassign]].
  reflexivity.
Qed.

(** ** The capacity invariant *)

Lemma assign_to_within_capacity task employee h l :
  (Employee.current_hours (employee_at h l)
   <= Employee.max_hours (employee_at h l))%Q →
  let h' := (Task.assign_to task employee h).2 in
  (Employee.current_hours (employee_at h' l)
   <= Employee.max_hours (employee_at h' l))%Q.
Proof.
  intros Hle. unfold Task.assign_to.
  destruct (Task.can_be_assigned_to _ _) eqn:Hcan; simpl; [|done].
  unfold upd. destruct (Nat.eqb_spec l employee) as [->|]; [simpl|done].
  unfold Task.can_be_assigned_to in Hcan.
  apply andb_true_iff in Hcan as [Hcan _].
  apply andb_true_iff in Hcan as [_ Hcan].
  apply Float_leb_le in Hcan. by rewrite Nat.eqb_refl.
Qed.

(** C4.  On a roster whose [max_hours] are not negative and a task list
    whose durations are not negative, a [schedule_all] that returns leaves
    every employee of the roster with [current_hours <= max_hours]. *)
Theorem schedule_all_within_capacity `{Interp}
    (self self' : AutoScheduler.t) (h h' : Task.heap) (ok : bool) :
  let sch := AutoScheduler.schedule self in
  (∀ l, l ∈ Schedule.employees sch →
        (0 <= Employee.max_hours (employee_at h l))%Q) →
  (∀ t, t ∈ Schedule.tasks sch → (0 <= Task.duration (task_at h t))%Q) →
  AutoScheduler.schedule_all self h = Ok (ok, self', h') →
  ∀ l, l ∈ Schedule.employees sch →
       (Employee.current_hours (employee_at h' l)
        <= Employee.max_hours (employee_at h' l))%Q.
Proof.
  intros sch Hmax Hdur. unfold AutoScheduler.schedule_all. fold sch.
  destruct (AutoScheduler._sort_tasks_by_priority _ _) as [sorted|];
    [simpl | done].
  destruct (AutoScheduler.schedule_loop _ _ sorted) as [[self1 h1]|] eqn:Hloop;
    [simpl | done].
  intros [= <- <- <-].
  apply (schedule_loop_inv
           (λ g, ∀ l, l ∈ Schedule.employees sch →
                      (Employee.current_hours (employee_at g l)
                       <= Employee.max_hours (employee_at g l))%Q) sch)
    in Hloop as [Hinv _]; [done | | done |].
  - intros task best g Hg _ _ l Hl. apply assign_to_within_capacity. auto.
  - intros l Hl.
    rewrite (same_static_max_hours h _ l (reset_static sch h)).
    eapply Qle_trans; [by apply reset_hours_nonpositive | by apply Hmax].
Qed.

(** ** An employee without capacity *)

Lemma assign_to_other_employee task employee h l :
  l ≠ employee →
  employee_at (Task.assign_to task employee h).2 l = employee_at h l.
Proof.
  intros Hne. unfold Task.assign_to.
  destruct (Task.can_be_assigned_to _ _); simpl; [|done]. by apply upd_ne.
Qed.

Lemma eligible_has_capacity sch h task best :
  no_capacity_idle sch h →
  (0 < Task.duration (task_at h task))%Q →
  best ∈ Schedule.employees sch →
  Task.can_be_assigned_to (task_at h task) (employee_at h best) = true →
  ¬ (Employee.max_hours (employee_at h best) == 0)%Q.
Proof.
  intros Hidle Hdur Hin Hcan Hzero.
  unfold Task.can_be_assigned_to in Hcan.
  apply andb_true_iff in Hcan as [Hcan _].
  apply andb_true_iff in Hcan as [_ Hcan].
  apply Float_leb_le in Hcan.
  rewrite Hzero, (Hidle best Hin Hzero), Qplus_0_l in Hcan.
  by apply Qle_not_lt in Hcan.
Qed.

Lemma assign_task_total self h task :
  no_capacity_idle (AutoScheduler.schedule self) h →
  (0 < Task.duration (task_at h task))%Q →
  ∃ ok self' h', AutoScheduler._assign_task self h task = Ok (ok, self', h').
Proof.
  intros Hidle Hdur. unfold AutoScheduler._assign_task.
  destruct (AutoScheduler._get_eligible_employees self h task)
    as [|e0 el] eqn:Hel; [eauto|].
  destruct (select_best_employee_total self h task (e0 :: el))
    as (best & self1 & ->); [done | |].
  - intros emp Hemp. rewrite <- Hel in Hemp.
    apply get_eligible_employees_elem in Hemp as [Hin Hcan].
    by eapply eligible_has_capacity.
  - simpl. destruct (Task.assign_to task best h). eauto.
Qed.

Lemma schedule_loop_total `{Interp} (sch : Schedule.t) (h0 : Task.heap)
    (sorted_tasks : list loc) :
  (∀ t, t ∈ sorted_tasks → (0 < Task.duration (task_at h0 t))%Q) →
  ∀ self h,
    AutoScheduler.schedule self = sch →
    same_static h0 h → no_capacity_idle sch h →
    ∃ self' h',
      AutoScheduler.schedule_loop self h sorted_tasks = Ok (self', h')
      ∧ AutoScheduler.schedule self' = sch
      ∧ same_static h0 h' ∧ no_capacity_idle sch h'.
Proof.
  induction sorted_tasks as [|task rest IH]; intros Hdur self h Hsch Hst Hidle;
    simpl; [by exists self, h|].
  assert (0 < Task.duration (task_at h task))%Q as Hd.
  { rewrite (same_static_duration h0 h task Hst). apply Hdur. left. }
  destruct (assign_task_total self h task) as (ok & self1 & h1 & Hassign);
    [by rewrite Hsch | done |].
  rewrite Hassign. simpl.
  apply assign_task_inv in Hassign as (Hsch1 & _ & Hcase).
  apply IH.
  - intros t Ht. apply Hdur. by right.
  - destruct ok; simpl; congruence.
  - destruct Hcase as [(_ & -> & _)|(best & _ & _ & Hassign)]; [done|].
    eapply same_static_trans; [done|].
    pose proof (assign_to_static task best h) as Hs.
    by rewrite Hassign in Hs.
  - destruct Hcase as [(_ & -> & _)|(best & Hin & Hcan & Hassign)]; [done|].
    rewrite Hsch in Hin.
    pose proof (eligible_has_capacity sch h task best Hidle Hd Hin Hcan)
      as Hbest.
    pose proof (assign_to_static task best h) as Hs.
    rewrite Hassign in Hs. simpl in Hs.
    intros l Hl. rewrite (same_static_max_hours h h1 l Hs). intros Hzero.
    assert (l ≠ best) as Hne by (by intros ->).
    pose proof (assign_to_other_employee task best h l Hne) as Hl'.
    rewrite Hassign in Hl'. simpl in Hl'. rewrite Hl'. by apply Hidle.
Qed.

(** ** The reporting queries return *)

Lemma inject_Z_len_nonzero {A} (x : A) (l : list A) :
  ¬ (inject_Z (Schedule.len (x :: l)) == 0)%Q.
Proof. unfold Schedule.len, Qeq. simpl. lia. Qed.

Lemma get_statistics_total sch h :
  ∃ stats, Schedule.get_statistics sch h = Ok stats.
Proof.
  unfold Schedule.get_statistics, Schedule.get_completion_rate.
  destruct (Schedule.tasks sch) as [|t ts], (Schedule.employees sch) as [|e es];
    rewrite ?Float_div_nonzero by apply inject_Z_len_nonzero; simpl; eauto.
Qed.

Lemma workload_of_total self h employee :
  ∃ entry,
    AutoScheduler.workload_of self h employee = Ok entry
    ∧ AutoScheduler.available_hours entry
      = Employee.available_hours (employee_at h employee)
    ∧ (¬ (0 < Employee.max_hours (employee_at h employee))%Q →
       AutoScheduler.utilization entry = 0%Q).
Proof.
  unfold AutoScheduler.workload_of.
  destruct (Float.ltb 0 _) eqn:Hmax; simpl.
  - apply Float_ltb_lt in Hmax.
    rewrite Float_div_nonzero; simpl.
    + eexists. split; [done|]. split; [done|]. intros Hn. by destruct Hn.
    + intros Hzero. rewrite Hzero in Hmax. by apply Qlt_irrefl in Hmax.
  - eexists. split; [done|]. by split.
Qed.

Lemma workload_entries_total self h employees :
  ∃ report,
    AutoScheduler.workload_entries self h employees = Ok report
    ∧ ∀ e, e ∈ employees →
           ∃ entry, AutoScheduler.workload_of self h e = Ok entry
                    ∧ entry ∈ report.
Proof.
  induction employees as [|e es (report & IH & Hall)]; simpl.
  - eexists. split; [done|]. by intros e He%elem_of_nil.
  - destruct (workload_of_total self h e) as (entry & Hentry & _).
    rewrite Hentry, IH. simpl. eexists. split; [done|].
    intros e' [->|He']%elem_of_cons.
    + exists entry. split; [done | left].
    + destruct (Hall e' He') as (entry' & ? & ?).
      exists entry'. split; [done | by right].
Qed.

Lemma get_employee_workload_report_total self h :
  ∃ report,
    AutoScheduler.get_employee_workload_report self h = Ok report
    ∧ ∀ e, e ∈ Schedule.employees (AutoScheduler.schedule self) →
           ∃ entry, AutoScheduler.workload_of self h e = Ok entry
                    ∧ entry ∈ report.
Proof.
  unfold AutoScheduler.get_employee_workload_report.
  destruct (workload_entries_total self h
              (Schedule.employees (AutoScheduler.schedule self)))
    as (entries & -> & Hall). simpl.
  destruct (py_sorted_reverse_perm
              (λ x y, Float.ltb (AutoScheduler.utilization x)
                                (AutoScheduler.utilization y)) entries)
    as (report & -> & Hperm).
  exists report. split; [done|]. intros e He.
  destruct (Hall e He) as (entry & ? & ?). exists entry.
  by rewrite Hperm.
Qed.

(** X27.  Let every task of the list have a positive duration, and let no
    task be linked, when [schedule_all] is called, to an employee of the
    roster whose [max_hours] is 0.  Then no division by zero happens: the
    only exception that can leave [schedule_all] is the [TypeError] of the
    task ordering, and otherwise the pass returns, [get_statistics] and
    [get_employee_workload_report] return, and the report has an entry
    for every employee without capacity, with utilization 0 and 0 available
    hours. *)
Theorem zero_capacity_employee_is_handled `{Interp}
    (self : AutoScheduler.t) (h : Task.heap) :
  let sch := AutoScheduler.schedule self in
  (∀ t, t ∈ Schedule.tasks sch → (0 < Task.duration (task_at h t))%Q) →
  (∀ t e, t ∈ Schedule.tasks sch →
          Task.assigned_employee (task_at h t) = Some e →
          e ∈ Schedule.employees sch →
          ¬ (Employee.max_hours (employee_at h e) == 0)%Q) →
  AutoScheduler.schedule_all self h = Raise TypeError
  ∨ ∃ ok self' h' stats report,
      AutoScheduler.schedule_all self h = Ok (ok, self', h')
      ∧ Schedule.get_statistics sch h' = Ok stats
      ∧ AutoScheduler.get_employee_workload_report self' h' = Ok report
      ∧ ∀ e, e ∈ Schedule.employees sch →
             (Employee.max_hours (employee_at h e) == 0)%Q →
             ∃ entry,
               AutoScheduler.workload_of self' h' e = Ok entry
               ∧ entry ∈ report
               ∧ AutoScheduler.utilization entry = 0%Q
               ∧ AutoScheduler.available_hours entry = 0%Q.
Proof.
  intros sch Hdur Hlinks. unfold AutoScheduler.schedule_all. fold sch.
  destruct (AutoScheduler._sort_tasks_by_priority _ _) as [sorted|e] eqn:Hsort;
    simpl.
  2: { left. by apply sort_tasks_by_priority_raise in Hsort as ->. }
  right. apply sort_tasks_by_priority_perm in Hsort. simpl in Hsort.
  fold sch in Hsort.
  pose proof (reset_static sch h) as Hst.
  destruct (schedule_loop_total sch h sorted) with
    (self := {| AutoScheduler.schedule := sch;
                AutoScheduler.unassigned_reasons := ∅;
                AutoScheduler.score_log := [] |})
    (h := Schedule.reset sch h)
    as (self1 & h1 & -> & Hsch1 & Hst1 & Hidle1); [| done | done | |].
  - intros t Ht. apply Hdur. by rewrite <- Hsort.
  - intros l Hl. rewrite (same_static_max_hours h _ l Hst). intros Hzero.
    rewrite (reset_employee_untouched
               (λ e, e ∈ Schedule.employees sch
                     ∧ (Employee.max_hours (employee_at h e) == 0)%Q));
      [done | | done | done].
    intros t e Ht He [Hin Hz]. by apply (Hlinks t e).
  - simpl.
    destruct (get_statistics_total sch h1) as [stats Hstats].
    destruct (get_employee_workload_report_total self1 h1)
      as (report & Hreport & Hall).
    exists (Nat.eqb (length (Schedule.get_unassigned_tasks sch h1)) 0),
      self1, h1, stats, report.
    rewrite Hsch1. split; [done|]. split; [done|]. split; [done|].
    intros e He Hzero. rewrite Hsch1 in Hall.
    destruct (Hall e He) as (entry & Hentry & Hin).
    exists entry. split; [done|]. split; [done|].
    destruct (workload_of_total self1 h1 e) as (entry' & Hentry' & Hav & Hut).
    rewrite Hentry in Hentry'. injection Hentry' as <-.
    rewrite <- (same_static_max_hours h h1 e Hst1) in Hzero.
    split.
    + apply Hut. rewrite Hzero. apply Qlt_irrefl.
    + rewrite Hav. unfold Employee.available_hours, Float.max.
      destruct (Float.ltb 0 _) eqn:Hlt; [|done].
      apply Float_ltb_lt in Hlt.
      rewrite Hzero, (Hidle1 e He Hzero) in Hlt. by apply Qlt_irrefl in Hlt.
Qed.

(** C9, at a schedule where the claim fails.  Zed has [max_hours] 0 and is
    linked to the only task, of 70 hours.  The [reset] inside
    [schedule_all] leaves Zed with -70 hours, which makes Zed eligible for
    the task, and the score of Zed divides by [max_hours]. *)
Theorem zero_capacity_employee_divides_by_zero :
  let h := Schedule.reset idle idle_linked_heap in
  (Employee.max_hours (employee_at idle_linked_heap 0%nat) == 0)%Q
  ∧ (0 < Task.duration (task_at idle_linked_heap 0%nat))%Q
  ∧ Task.assigned_employee (task_at idle_linked_heap 0) = Some 0%nat
  ∧ (Employee.current_hours (employee_at h 0%nat) == -70)%Q
  ∧ AutoScheduler._get_eligible_employees (AutoScheduler.__init__ idle) h 0
    = [0; 1]%nat
  ∧ AutoScheduler._score_employee_for_task (task_at h 0)
      (employee_at h 0%nat) = Raise ZeroDivisionError
  ∧ AutoScheduler.schedule_all (AutoScheduler.__init__ idle)
      idle_linked_heap = Raise ZeroDivisionError.
Proof.
  repeat split; vm_compute; reflexivity.
Qed.

(** ** Stores that agree on the schedule *)

Lemma clean_agree sch h0 h1 h2 :
  clean sch h0 h1 → clean sch h0 h2 → agree sch h1 h2.
Proof.
  intros [He1 Ht1] [He2 Ht2]. split; intros l Hl.
  - by rewrite He1, He2.
  - by rewrite Ht1, Ht2.
Qed.

Lemma clean_same_static sch h0 h h' :
  same_static h0 h → clean sch h h' → clean sch h0 h'.
Proof.
  intros [He Ht] [Hce Hct]. split; intros l Hl.
  - rewrite (Hce l Hl). apply He.
  - rewrite (Hct l Hl). apply Ht.
Qed.

(** [reset] cleans a store in which no task of the list is linked to an
    employee of the roster. *)
Lemma reset_clean sch h :
  (∀ task e, task ∈ Schedule.tasks sch →
             Task.assigned_employee (task_at h task) = Some e →
             e ∉ Schedule.employees sch) →
  clean sch h (Schedule.reset sch h).
Proof.
  intros Hlinks. split; intros l Hl.
  - by rewrite (reset_employee_untouched (λ e, e ∈ Schedule.employees sch)).
  - rewrite reset_task_at. by rewrite decide_True.
Qed.

Lemma reset_reset_clean sch h :
  clean sch h (Schedule.reset sch (Schedule.reset sch h)).
Proof.
  apply (clean_same_static sch h (Schedule.reset sch h));
    [apply reset_static|].
  apply reset_clean. intros task e Htask. by rewrite reset_unlinks.
Qed.

Lemma agree_write_employee sch h1 h2 l e :
  agree sch h1 h2 → agree sch (write_employee h1 l e) (write_employee h2 l e).
Proof.
  intros [He Ht]. split; [|done]. intros l' Hl'. simpl. unfold upd.
  destruct (Nat.eqb l' l); auto.
Qed.

Lemma agree_write_task sch h1 h2 l t :
  agree sch h1 h2 → agree sch (write_task h1 l t) (write_task h2 l t).
Proof.
  intros [He Ht]. split; [done|]. intros l' Hl'. simpl. unfold upd.
  destruct (Nat.eqb l' l); auto.
Qed.

Lemma assign_to_agree sch h1 h2 task best :
  agree sch h1 h2 →
  task ∈ Schedule.tasks sch → best ∈ Schedule.employees sch →
  (Task.assign_to task best h1).1 = (Task.assign_to task best h2).1
  ∧ agree sch (Task.assign_to task best h1).2 (Task.assign_to task best h2).2.
Proof.
  intros Hag Htask Hbest. pose proof Hag as [He Ht].
  unfold Task.assign_to. rewrite (He best Hbest), (Ht task Htask).
  destruct (Task.can_be_assigned_to _ _); simpl; [|done].
  split; [done|]. rewrite !upd_eq, (He best Hbest), ?(Ht task Htask).
  apply (agree_write_employee sch (write_task h1 task _)
           (write_task h2 task _)).
  by apply agree_write_task.
Qed.

Lemma get_eligible_employees_agree self h1 h2 task :
  agree (AutoScheduler.schedule self) h1 h2 →
  task ∈ Schedule.tasks (AutoScheduler.schedule self) →
  AutoScheduler._get_eligible_employees self h1 task
  = AutoScheduler._get_eligible_employees self h2 task.
Proof.
  intros [He Ht] Htask. unfold AutoScheduler._get_eligible_employees.
  apply filter_ext_in. intros e Hin%list_elem_of_In.
  by rewrite (He e Hin), (Ht task Htask).
Qed.

Lemma score_all_agree sch h1 h2 task eligible :
  agree sch h1 h2 → task ∈ Schedule.tasks sch →
  (∀ e, e ∈ eligible → e ∈ Schedule.employees sch) →
  AutoScheduler.score_all h1 task eligible
  = AutoScheduler.score_all h2 task eligible.
Proof.
  intros [He Ht] Htask. induction eligible as [|e el IH]; intros Hsub; [done|].
  simpl. rewrite (Ht task Htask), (He e) by (apply Hsub; left).
  rewrite IH; [done|]. intros e' He'. apply Hsub. by right.
Qed.

Lemma get_all_unassignment_reasons_agree `{Interp} self h1 h2 task :
  agree (AutoScheduler.schedule self) h1 h2 →
  task ∈ Schedule.tasks (AutoScheduler.schedule self) →
  AutoScheduler._get_all_unassignment_reasons self h1 task
  = AutoScheduler._get_all_unassignment_reasons self h2 task.
Proof.
  intros [He Ht] Htask. unfold AutoScheduler._get_all_unassignment_reasons.
  rewrite (Ht task Htask).
  assert (∀ (l : list loc) (acc : gset string),
            (∀ e, e ∈ l →
                  e ∈ Schedule.employees (AutoScheduler.schedule self)) →
            fold_left
              (λ all_reasons employee,
                 all_reasons
                 ∪ list_to_set
                     (Task.get_unassignment_reasons (task_at h2 task)
                        (employee_at h1 employee))) l acc
            = fold_left
                (λ all_reasons employee,
                   all_reasons
                   ∪ list_to_set
                       (Task.get_unassignment_reasons (task_at h2 task)
                          (employee_at h2 employee))) l acc) as Hfold.
  { induction l as [|e l IH]; intros acc Hsub; [done|]. simpl.
    rewrite (He e) by (apply Hsub; left). apply IH.
    intros e' He'. apply Hsub. by right. }
  by rewrite Hfold.
Qed.

Lemma assign_task_agree self h1 h2 task :
  agree (AutoScheduler.schedule self) h1 h2 →
  task ∈ Schedule.tasks (AutoScheduler.schedule self) →
  same_outcome (AutoScheduler.schedule self)
    (AutoScheduler._assign_task self h1 task)
    (AutoScheduler._assign_task self h2 task).
Proof.
  intros Hag Htask. unfold AutoScheduler._assign_task.
  rewrite (get_eligible_employees_agree self h1 h2 task Hag Htask).
  destruct (AutoScheduler._get_eligible_employees self h2 task)
    as [|e0 el] eqn:Hel; [done|].
  assert (∀ e, e ∈ e0 :: el →
               e ∈ Schedule.employees (AutoScheduler.schedule self)) as Hsub.
  { intros e He. rewrite <- Hel in He.
    by apply get_eligible_employees_elem in He as [? _]. }
  unfold AutoScheduler._select_best_employee at 1.
  rewrite (score_all_agree _ h1 h2 task (e0 :: el) Hag Htask Hsub).
  fold (AutoScheduler._select_best_employee self h2 task (e0 :: el)).
  destruct (AutoScheduler._select_best_employee self h2 task (e0 :: el))
    as [[best self1]|] eqn:Hsel; simpl; [|done].
  apply select_best_employee_inv in Hsel as (Hbest & _ & _).
  destruct (assign_to_agree _ h1 h2 task best Hag Htask (Hsub _ Hbest))
    as [Hok Hag'].
  destruct (Task.assign_to task best h1), (Task.assign_to task best h2).
  simpl in *. by subst.
Qed.

Lemma schedule_loop_agree `{Interp} (sorted_tasks : list loc) :
  ∀ self h1 h2,
    agree (AutoScheduler.schedule self) h1 h2 →
    (∀ t, t ∈ sorted_tasks →
          t ∈ Schedule.tasks (AutoScheduler.schedule self)) →
    same_outcome (AutoScheduler.schedule self)
      (AutoScheduler.schedule_loop self h1 sorted_tasks)
      (AutoScheduler.schedule_loop self h2 sorted_tasks).
Proof.
  induction sorted_tasks as [|task rest IH]; intros self h1 h2 Hag Hsub;
    simpl; [done|].
  assert (task ∈ Schedule.tasks (AutoScheduler.schedule self)) as Htask
    by (apply Hsub; left).
  pose proof (assign_task_agree self h1 h2 task Hag Htask) as Hstep.
  destruct (AutoScheduler._assign_task self h1 task)
    as [[[ok1 self1] g1]|] eqn:H1,
     (AutoScheduler._assign_task self h2 task)
    as [[[ok2 self2] g2]|] eqn:H2; simpl in *; try done.
  destruct Hstep as [[= <- <-] Hag'].
  apply assign_task_inv in H1 as (Hsch & _ & _).
  rewrite <- Hsch in Hag', Hsub |- *.
  rewrite (get_all_unassignment_reasons_agree self1 g1 g2 task Hag')
    by (apply Hsub; left).
  destruct Hag' as [He Ht]. rewrite (Ht task) by (apply Hsub; left).
  assert (∀ t, t ∈ rest →
               t ∈ Schedule.tasks (AutoScheduler.schedule self1)) as Hrest
    by (intros t Ht'; apply Hsub; by right).
  destruct ok1; simpl; [by apply (IH self1)|].
  by apply (IH (AutoScheduler.record_reasons self1 _ _)).
Qed.

Lemma sort_tasks_by_priority_agree self h1 h2 :
  agree (AutoScheduler.schedule self) h1 h2 →
  AutoScheduler._sort_tasks_by_priority self h1
  = AutoScheduler._sort_tasks_by_priority self h2.
Proof.
  intros [_ Ht]. unfold AutoScheduler._sort_tasks_by_priority, py_sorted.
  apply sort_onto_ext. simpl. intros x y Hx Hy. by rewrite (Ht x), (Ht y).
Qed.

Lemma get_unassigned_tasks_agree sch h1 h2 :
  agree sch h1 h2 →
  Schedule.get_unassigned_tasks sch h1 = Schedule.get_unassigned_tasks sch h2.
Proof.
  intros [_ Ht]. unfold Schedule.get_unassigned_tasks.
  apply filter_ext_in. intros t Hin%list_elem_of_In. by rewrite (Ht t).
Qed.

(** Two invocations of [schedule_all] on the same schedule, from stores
    that agree once they are reset, show the same. *)
Lemma schedule_all_agree `{Interp} self1 self2 h1 h2 :
  AutoScheduler.schedule self1 = AutoScheduler.schedule self2 →
  agree (AutoScheduler.schedule self1)
    (Schedule.reset (AutoScheduler.schedule self1) h1)
    (Schedule.reset (AutoScheduler.schedule self1) h2) →
  observation (AutoScheduler.schedule self1)
    (AutoScheduler.schedule_all self1 h1)
  = observation (AutoScheduler.schedule self1)
      (AutoScheduler.schedule_all self2 h2).
Proof.
  intros Hsch Hag. unfold AutoScheduler.schedule_all. rewrite <- Hsch.
  set (sch := AutoScheduler.schedule self1) in *.
  set (self := {| AutoScheduler.schedule := sch;
                  AutoScheduler.unassigned_reasons := ∅;
                  AutoScheduler.score_log := [] |}).
  rewrite (sort_tasks_by_priority_agree self _ _ Hag).
  destruct (AutoScheduler._sort_tasks_by_priority self _) as [sorted|]
    eqn:Hsort; simpl; [|done].
  apply sort_tasks_by_priority_perm in Hsort.
  pose proof (schedule_loop_agree sorted self _ _ Hag) as Hloop.
  destruct (AutoScheduler.schedule_loop self (Schedule.reset sch h1) sorted)
    as [[self1' g1]|] eqn:H1,
     (AutoScheduler.schedule_loop self (Schedule.reset sch h2) sorted)
    as [[self2' g2]|] eqn:H2; simpl in *;
    try (by destruct Hloop; [intros t Ht; by rewrite <- Hsort|..]).
  destruct Hloop as [<- Hag']; [intros t Ht; by rewrite <- Hsort|].
  apply (schedule_loop_inv (λ _, True) sch) in H1 as [_ Hsch1]; try done.
  rewrite Hsch1. rewrite (get_unassigned_tasks_agree sch g1 g2 Hag').
  destruct Hag' as [He Ht].
  rewrite (map_ext_in (λ task, Task.assigned_employee (task_at g1 task))
             (λ task, Task.assigned_employee (task_at g2 task)))
    by (intros t Hin%list_elem_of_In; by rewrite (Ht t)).
  rewrite (map_ext_in (λ emp, Employee.current_hours (employee_at g1 emp))
             (λ emp, Employee.current_hours (employee_at g2 emp)))
    by (intros e Hin%list_elem_of_In; by rewrite (He e)).
  done.
Qed.

Lemma schedule_all_static `{Interp} self h ok self' h' :
  AutoScheduler.schedule_all self h = Ok (ok, self', h') →
  same_static h h' ∧ AutoScheduler.schedule self' = AutoScheduler.schedule self.
Proof.
  unfold AutoScheduler.schedule_all.
  destruct (AutoScheduler._sort_tasks_by_priority _ _) as [sorted|];
    [simpl | done].
  destruct (AutoScheduler.schedule_loop _ _ sorted) as [[self1 h1]|] eqn:Hloop;
    [simpl | done].
  intros [= <- <- <-].
  apply (schedule_loop_inv (same_static h) (AutoScheduler.schedule self))
    in Hloop; [done | | done | apply reset_static].
  intros task best g Hg _ _.
  eapply same_static_trans; [done | apply assign_to_static].
Qed.

Lemma rerun_static `{Interp} n self h ok self' h' :
  rerun n self h = Ok (ok, self', h') →
  same_static h h' ∧ AutoScheduler.schedule self' = AutoScheduler.schedule self.
Proof.
  revert ok self' h'. induction n as [|n IH]; intros ok self' h'; simpl.
  { apply schedule_all_static. }
  destruct (rerun n self h) as [[[ok1 self1] h1]|]; [simpl | done].
  destruct (IH _ _ _ eq_refl) as [Hst Hsch]. intros Hrun.
  apply schedule_all_static in Hrun as [Hst' Hsch']. split; [|congruence].
  eapply same_static_trans; [done|].
  eapply same_static_trans; [apply reset_static | done].
Qed.

(** X26.  Let no task of the list be linked, when [schedule_all] is first
    called, to an employee of the roster (as when the tasks are new).  Then
    every later invocation, each preceded by a [reset], shows what the first
    one showed: the same returned value or exception, the same employee for
    each task, the same hours, the same recorded reasons and the same scores
    for the candidates of each task. *)
Theorem schedule_all_deterministic `{Interp}
    (self : AutoScheduler.t) (h : Task.heap) (n : nat) :
  let sch := AutoScheduler.schedule self in
  (∀ task e, task ∈ Schedule.tasks sch →
             Task.assigned_employee (task_at h task) = Some e →
             e ∉ Schedule.employees sch) →
  observation sch (rerun n self h)
  = observation sch (AutoScheduler.schedule_all self h).
Proof.
  intros sch Hlinks. subst sch. induction n as [|n IH]; [done|]. simpl.
  destruct (rerun n self h) as [[[ok1 self1] h1]|] eqn:Hrun; [simpl | exact IH].
  apply rerun_static in Hrun as [Hst Hsch].
  rewrite <- Hsch. apply schedule_all_agree; [done|].
  rewrite Hsch. apply (clean_agree _ h).
  - apply (clean_same_static _ h h1); [done|]. apply reset_reset_clean.
  - by apply reset_clean.
Qed.

(** ** Invocations that do not start from new tasks *)

(** Two invocations that follow a [reset], on stores with the same
    unwritten fields, show the same. *)
Lemma schedule_all_after_reset `{Interp} self1 self2 h g1 g2 :
  AutoScheduler.schedule self1 = AutoScheduler.schedule self2 →
  same_static h g1 → same_static h g2 →
  observation (AutoScheduler.schedule self1)
    (AutoScheduler.schedule_all self1
       (Schedule.reset (AutoScheduler.schedule self1) g1))
  = observation (AutoScheduler.schedule self1)
      (AutoScheduler.schedule_all self2
         (Schedule.reset (AutoScheduler.schedule self1) g2)).
Proof.
  intros Hsch Hst1 Hst2. apply schedule_all_agree; [done|].
  apply (clean_agree _ h).
  - apply (clean_same_static _ h g1); [done|]. apply reset_reset_clean.
  - apply (clean_same_static _ h g2); [done|]. apply reset_reset_clean.
Qed.

Lemma rerun_raise `{Interp} n self h e :
  AutoScheduler.schedule_all self h = Raise e → rerun n self h = Raise e.
Proof. intros Hr. induction n as [|n IH]; simpl; [done|]. by rewrite IH. Qed.

(** X15.  Whatever the store at the first call, all the invocations that
    follow a [reset] show the same. *)
Lemma schedule_all_repeatable `{Interp}
    (self : AutoScheduler.t) (h : Task.heap) (n : nat) :
  observation (AutoScheduler.schedule self) (rerun (S n) self h)
  = observation (AutoScheduler.schedule self) (rerun 1 self h).
Proof.
  induction n as [|n IH]; [done|].
  change (rerun (S (S n)) self h)
    with ('(_, self, h) ← rerun (S n) self h;
          AutoScheduler.schedule_all self
            (Schedule.reset (AutoScheduler.schedule self) h)).
  destruct (rerun (S n) self h) as [[[ok2 self2] h2]|] eqn:Hrun; [|exact IH].
  pose proof Hrun as [Hst2 Hsch2]%rerun_static. simpl.
  destruct (AutoScheduler.schedule_all self h) as [[[ok0 self0] h0]|e]
    eqn:Hfirst; simpl.
  - apply schedule_all_static in Hfirst as [Hst0 Hsch0].
    rewrite <- Hsch2. rewrite (schedule_all_after_reset self2 self0 h h2 h0);
      [by rewrite Hsch2, Hsch0 | congruence | done | done].
  - by rewrite (rerun_raise (S n) self h e Hfirst) in Hrun.
Qed.

(** A second [schedule_all] without a [reset] in between, on one employee
    with 80 hours and two tasks of 50 hours.  The first invocation assigns
    one task; the second starts from -50 hours and assigns both. *)
Lemma schedule_all_twice_differs :
  ∃ (self1 self2 : AutoScheduler.t) (h1 h2 : Task.heap),
    AutoScheduler.schedule_all (AutoScheduler.__init__ busy) busy_heap
    = Ok (false, self1, h1)
    ∧ map (λ t, Task.assigned_employee (task_at h1 t)) [0; 1]%nat
      = [Some 0%nat; None]
    ∧ AutoScheduler.schedule_all self1 h1 = Ok (true, self2, h2)
    ∧ map (λ t, Task.assigned_employee (task_at h2 t)) [0; 1]%nat
      = [Some 0%nat; Some 0%nat]
    ∧ (Employee.current_hours (employee_at h2 0%nat) == 50)%Q.
Proof.
  eexists _, _, _, _.
  split; [vm_compute; reflexivity|].
  split; [vm_compute; reflexivity|].
  split; [vm_compute; reflexivity|].
  split; vm_compute; reflexivity.
Qed.

(** C2, at a schedule where the claim fails.  Bob has 80 hours, the two
    tasks take 50 hours each, and the first is assigned to Bob when
    [schedule_all] is first called.  The [reset] inside that call sets Bob
    to 0 hours and then takes the 50 hours of the first task off, so that
    with -50 hours Bob gets both tasks.  After the [reset] between the calls
    the next call finds no link, starts Bob from 0, and assigns the first
    task only. *)
Theorem schedule_all_differs_after_reset :
  ∃ (self1 self2 : AutoScheduler.t) (h1 h2 : Task.heap),
    Task.assigned_employee (task_at busy_linked_heap 0) = Some 0%nat
    ∧ Employee.current_hours (employee_at busy_linked_heap 0%nat) = 50%Q
    ∧ AutoScheduler.schedule_all (AutoScheduler.__init__ busy)
        busy_linked_heap = Ok (true, self1, h1)
    ∧ map (λ t, Task.assigned_employee (task_at h1 t)) (Schedule.tasks busy)
      = [Some 0%nat; Some 0%nat]
    ∧ AutoScheduler.schedule_all self1 (Schedule.reset busy h1)
      = Ok (false, self2, h2)
    ∧ map (λ t, Task.assigned_employee (task_at h2 t)) (Schedule.tasks busy)
      = [Some 0%nat; None]
    ∧ observation busy
        (rerun 1 (AutoScheduler.__init__ busy) busy_linked_heap)
      ≠ observation busy
          (AutoScheduler.schedule_all (AutoScheduler.__init__ busy)
             busy_linked_heap).
Proof.
  eexists _, _, _, _.
  split; [vm_compute; reflexivity|].
  split; [vm_compute; reflexivity|].
  split; [vm_compute; reflexivity|].
  split; [vm_compute; reflexivity|].
  split; [vm_compute; reflexivity|].
  split; [vm_compute; reflexivity|].
  vm_compute. discriminate.
Qed.

(** ** Reasons *)

(** The reason for missing skills lists them in the order in which the
    interpreter iterates the set difference. *)
Lemma missing_training_reason `{Interp}
    (task : Task.t) (employee : Employee.t) :
  ¬ Task.required_training task ⊆ Employee.training employee →
  let missing := Task.required_training task ∖ Employee.training employee in
  set_iter missing ≡ₚ elements missing
  ∧ "Missing required training: " +:+ String.concat ", " (set_iter missing)
    ∈ Task.get_unassignment_reasons task employee.
Proof.
  intros Hmissing missing. split; [apply set_iter_perm|].
  unfold Task.get_unassignment_reasons, Employee.has_training.
  rewrite bool_decide_eq_false_2 by done. simpl.
  destruct (negb _), (_ <? _)%Z; rewrite ?elem_of_app, !elem_of_cons; tauto.
Qed.

(** With a single missing skill the order does not matter. *)
Lemma missing_training_reason_single `{Interp}
    (task : Task.t) (employee : Employee.t) (skill : string) :
  Task.required_training task ∖ Employee.training employee = {[skill]} →
  "Missing required training: " +:+ skill
  ∈ Task.get_unassignment_reasons task employee.
Proof.
  intros Hone.
  destruct (missing_training_reason task employee) as [Hperm Hin].
  { intros Hsub. assert (skill ∈ ({[skill]} : gset string)) as Hs
      by by apply elem_of_singleton.
    rewrite <- Hone in Hs. apply elem_of_difference in Hs as [? ?]. auto. }
  rewrite Hone in Hperm, Hin. rewrite elements_singleton in Hperm.
  apply Permutation_singleton_r in Hperm. rewrite Hperm in Hin.
  exact Hin.
Qed.

Lemma fold_union_elem {A} (f : A → list string) (l : list A)
    (acc : gset string) (r : string) :
  r ∈ fold_left (λ acc a, acc ∪ list_to_set (f a)) l acc
  ↔ r ∈ acc ∨ ∃ a, a ∈ l ∧ r ∈ f a.
Proof.
  revert acc. induction l as [|a l IH]; intros acc; simpl.
  - split; [by left | intros [?|(a & Ha%elem_of_nil & _)]; done].
  - rewrite IH, elem_of_union, elem_of_list_to_set. split.
    + intros [[?|?]|(b & ? & ?)]; [by left | right | right].
      * exists a. split; [left | done].
      * exists b. split; [by right | done].
    + intros [?|(b & [->|?]%elem_of_cons & ?)];
        [by left; left | by left; right |].
      right. by exists b.
Qed.

(** Every reason of every employee of the roster is among the reasons
    that [schedule_all] records for a task. *)
Lemma get_all_unassignment_reasons_elem `{Interp}
    (self : AutoScheduler.t) (h : Task.heap) (task e : loc) (r : string) :
  e ∈ Schedule.employees (AutoScheduler.schedule self) →
  r ∈ Task.get_unassignment_reasons (task_at h task) (employee_at h e) →
  r ∈ AutoScheduler._get_all_unassignment_reasons self h task.
Proof.
  intros He Hr. unfold AutoScheduler._get_all_unassignment_reasons.
  destruct (Schedule.employees (AutoScheduler.schedule self)) as [|e0 es]
    eqn:Hes; [by apply elem_of_nil in He|].
  rewrite <- Hes.
  set (all_reasons := fold_left _ _ _).
  assert (r ∈ all_reasons) as Hin.
  { apply (fold_union_elem
             (λ employee, Task.get_unassignment_reasons (task_at h task)
                            (employee_at h employee))).
    right. exists e. by rewrite Hes. }
  destruct (decide (all_reasons = ∅)) as [Hempty|_].
  - rewrite Hempty in Hin. by apply not_elem_of_empty in Hin.
  - rewrite set_iter_perm. by apply elem_of_elements.
Qed.

(** C7, at a schedule where the claim fails.  The only task requires Rust
    and Go, which the only employee lacks; with an interpreter that iterates
    the set of the two missing skills as Rust, Go, the recorded reason lists
    them in that order and not sorted. *)
Theorem missing_training_reason_unsorted :
  ∃ (self : AutoScheduler.t) (h : Task.heap),
    AutoScheduler.schedule_all (AutoScheduler.__init__ unskilled)
      unskilled_heap = Ok (false, self, h)
    ∧ AutoScheduler.unassigned_reasons self !! 1%Z
      = Some ["Missing required training: Rust, Go"]
    ∧ AutoScheduler.unassigned_reasons self !! 1%Z
      ≠ Some ["Missing required training: Go, Rust"].
Proof.
  eexists _, _.
  split; [vm_compute; reflexivity|].
  split; [vm_compute; reflexivity|].
  vm_compute. discriminate.
Qed.

(** ** Explanations and eligibility *)

(** The three explanations are three different texts, whatever is printed
    in them. *)
Lemma reason_texts_differ (a b c : string) :
  "Missing required training: " +:+ a ≠ "Insufficient hours available (" +:+ b
  ∧ "Missing required training: " +:+ a ≠ "Rank too low (rank " +:+ c
  ∧ "Insufficient hours available (" +:+ b ≠ "Rank too low (rank " +:+ c.
Proof. repeat split; simpl; discriminate. Qed.

(** X1.  [get_unassignment_reasons] explains exactly the refusals of
    [can_be_assigned_to]: the list of reasons for an employee is empty if
    and only if the task can be assigned to that employee, each of the
    three explanations is in the list if and only if its own condition
    fails (training is missing, the hours do not fit, the rank is below the
    minimum), and the list holds nothing else. *)
Theorem unassignment_reasons_explain_eligibility `{Interp}
    (task : Task.t) (employee : Employee.t) :
  let reasons := Task.get_unassignment_reasons task employee in
  let missing := Task.required_training task ∖ Employee.training employee in
  let training_reason :=
    "Missing required training: " +:+ String.concat ", " (set_iter missing) in
  let hours_reason :=
    "Insufficient hours available ("
    +:+ str_float (Employee.available_hours employee)
    +:+ "h available, " +:+ str_float (Task.duration task) +:+ "h needed)" in
  let rank_reason :=
    "Rank too low (rank " +:+ str_int (Employee.rank employee)
    +:+ ", minimum " +:+ str_int (Task.min_rank task) +:+ " required)" in
  (reasons = [] ↔ Task.can_be_assigned_to task employee = true)
  ∧ (training_reason ∈ reasons
     ↔ ¬ Task.required_training task ⊆ Employee.training employee)
  ∧ (hours_reason ∈ reasons
     ↔ ¬ (Employee.current_hours employee + Task.duration task
          <= Employee.max_hours employee)%Q)
  ∧ (rank_reason ∈ reasons
     ↔ (Employee.rank employee < Task.min_rank task)%Z)
  ∧ ∀ r, r ∈ reasons →
         r = training_reason ∨ r = hours_reason ∨ r = rank_reason.
Proof.
  intros reasons missing training_reason hours_reason rank_reason.
  destruct (reason_texts_differ (String.concat ", " (set_iter missing))
              (str_float (Employee.available_hours employee)
               +:+ "h available, " +:+ str_float (Task.duration task)
               +:+ "h needed)")
              (str_int (Employee.rank employee)
               +:+ ", minimum " +:+ str_int (Task.min_rank task)
               +:+ " required)")) as (Hth & Htr & Hhr).
  fold training_reason hours_reason rank_reason in Hth, Htr, Hhr.
  assert (Employee.has_training employee (Task.required_training task) = true
          ↔ Task.required_training task ⊆ Employee.training employee)
    as Htraining by apply bool_decide_eq_true.
  assert (Employee.can_work_hours employee (Task.duration task) = true
          ↔ (Employee.current_hours employee + Task.duration task
             <= Employee.max_hours employee)%Q)
    as Hhours by apply Float_leb_le.
  subst reasons.
  unfold Task.get_unassignment_reasons, Task.can_be_assigned_to.
  fold missing training_reason hours_reason rank_reason.
  clearbody training_reason hours_reason rank_reason.
  destruct (Employee.has_training employee (Task.required_training task)),
    (Employee.can_work_hours employee (Task.duration task)),
    (Z.ltb_spec (Employee.rank employee) (Task.min_rank task)),
    (Z.leb_spec (Task.min_rank task) (Employee.rank employee));
    try lia; simpl;
    rewrite ?elem_of_cons, ?elem_of_nil;
    (split; [split; intros; done|]);
    (split; [split; [intros ? ?|intros ?]; intuition (try congruence; try lia)|]);
    (split; [split; [intros ? ?|intros ?]; intuition (try congruence; try lia)|]);
    (split; [split; intros; intuition (try congruence; try lia)|]);
    intros r; rewrite ?elem_of_cons, ?elem_of_nil; intuition.
Qed.

Lemma get_unassignment_reasons_nonempty `{Interp}
    (task : Task.t) (employee : Employee.t) :
  Task.can_be_assigned_to task employee = false →
  ∃ r, r ∈ Task.get_unassignment_reasons task employee.
Proof.
  unfold Task.get_unassignment_reasons, Task.can_be_assigned_to.
  destruct (Employee.has_training employee (Task.required_training task)),
    (Employee.can_work_hours employee (Task.duration task)),
    (Z.ltb_spec (Employee.rank employee) (Task.min_rank task)),
    (Z.leb_spec (Task.min_rank task) (Employee.rank employee));
    simpl; intros; try done; try lia;
    eexists; apply list_elem_of_here.
Qed.

Lemma set_iter_elem `{Interp} (X : gset string) (r : string) :
  r ∈ set_iter X ↔ r ∈ X.
Proof. by rewrite set_iter_perm, elem_of_elements. Qed.

Lemma set_iter_NoDup `{Interp} (X : gset string) : NoDup (set_iter X).
Proof. rewrite set_iter_perm. apply NoDup_elements. Qed.

(** X2.  What [_get_all_unassignment_reasons] returns for a roster that is
    not empty and has no eligible employee: a list without repetition, not
    empty, whose members are exactly the reasons of the employees of the
    roster. The branch that answers "Unknown reason" is not taken. *)
Theorem all_unassignment_reasons_spec `{Interp}
    (self : AutoScheduler.t) (h : Task.heap) (task : loc) :
  Schedule.employees (AutoScheduler.schedule self) ≠ [] →
  AutoScheduler._get_eligible_employees self h task = [] →
  let reasons := AutoScheduler._get_all_unassignment_reasons self h task in
  reasons ≠ []
  ∧ NoDup reasons
  ∧ ∀ r, r ∈ reasons
         ↔ ∃ e, e ∈ Schedule.employees (AutoScheduler.schedule self)
                ∧ r ∈ Task.get_unassignment_reasons (task_at h task)
                        (employee_at h e).
Proof.
  intros Hne Hel reasons. subst reasons.
  unfold AutoScheduler._get_all_unassignment_reasons.
  destruct (Schedule.employees (AutoScheduler.schedule self)) as [|e0 es]
    eqn:Hes; [done|]. clear Hne. rewrite <- Hes.
  set (all_reasons := fold_left _ _ _).
  assert (∀ r, r ∈ all_reasons
               ↔ ∃ e, e ∈ Schedule.employees (AutoScheduler.schedule self)
                      ∧ r ∈ Task.get_unassignment_reasons (task_at h task)
                              (employee_at h e)) as Hall.
  { intros r. unfold all_reasons.
    rewrite (fold_union_elem
               (λ employee, Task.get_unassignment_reasons (task_at h task)
                              (employee_at h employee))).
    split; [intros [Hr|Hr]; [by apply not_elem_of_empty in Hr | done]
           | by right]. }
  assert (e0 ∈ Schedule.employees (AutoScheduler.schedule self)) as He0
    by (rewrite Hes; left).
  destruct (get_unassignment_reasons_nonempty (task_at h task)
              (employee_at h e0)) as [r0 Hr0].
  { destruct (Task.can_be_assigned_to _ _) eqn:Hcan; [|done].
    assert (e0 ∈ AutoScheduler._get_eligible_employees self h task) as Hin
      by by apply get_eligible_employees_elem.
    rewrite Hel in Hin. by apply elem_of_nil in Hin. }
  assert (r0 ∈ all_reasons) as Hin by (apply Hall; eauto).
  destruct (decide (all_reasons = ∅)) as [Hempty|_].
  { rewrite Hempty in Hin. by apply not_elem_of_empty in Hin. }
  split; [|split].
  - intros Hnil. apply set_iter_elem in Hin. rewrite Hnil in Hin.
    by apply elem_of_nil in Hin.
  - apply set_iter_NoDup.
  - intros r. by rewrite set_iter_elem.
Qed.

(** ** Counting the tasks *)

Lemma filter_negb_length {A} (p : A → bool) (l : list A) :
  (length (List.filter p l) + length (List.filter (λ a, negb (p a)) l))%nat
  = length l.
Proof.
  induction l as [|a l IH]; simpl; [done|].
  destruct (p a); simpl; lia.
Qed.

Lemma assigned_unassigned_length sch h :
  (Schedule.len (Schedule.get_assigned_tasks sch h)
   + Schedule.len (Schedule.get_unassigned_tasks sch h))%Z
  = Schedule.len (Schedule.tasks sch).
Proof.
  unfold Schedule.len, Schedule.get_assigned_tasks,
    Schedule.get_unassigned_tasks.
  pose proof (filter_negb_length
                (λ task, Task.is_assigned (task_at h task))
                (Schedule.tasks sch)).
  lia.
Qed.

(** X3.  [get_statistics] returns for every schedule, also one without
    employees or without tasks, and in what it returns the assigned and the
    unassigned tasks add up to all tasks. *)
Theorem get_statistics_counts (sch : Schedule.t) (h : Task.heap) :
  ∃ stats,
    Schedule.get_statistics sch h = Ok stats
    ∧ (Schedule.assigned_tasks stats + Schedule.unassigned_tasks stats
       = Schedule.total_tasks stats)%Z
    ∧ Schedule.total_tasks stats = Schedule.len (Schedule.tasks sch)
    ∧ Schedule.total_employees stats = Schedule.len (Schedule.employees sch)
    ∧ (Schedule.employees sch = [] →
       Schedule.average_hours_per_employee stats = 0%Q
       ∧ Schedule.total_hours_scheduled stats = 0%Q).
Proof.
  pose proof (assigned_unassigned_length sch h) as Hlen.
  unfold Schedule.get_statistics, Schedule.get_completion_rate.
  destruct (Schedule.tasks sch) as [|t ts] eqn:Hts,
    (Schedule.employees sch) as [|e es] eqn:Hes;
    rewrite ?Float_div_nonzero by apply inject_Z_len_nonzero; simpl;
    eexists; (split; [reflexivity|]); simpl; repeat split; try done.
Qed.

(** X4.  [get_completion_rate] returns a number from 0 to 100, and 100
    exactly when no task of the list is unassigned (in particular for an
    empty list). *)
Theorem completion_rate_bounds (sch : Schedule.t) (h : Task.heap) :
  ∃ r,
    Schedule.get_completion_rate sch h = Ok r
    ∧ (0 <= r)%Q ∧ (r <= 100)%Q
    ∧ ((r == 100)%Q ↔ Schedule.get_unassigned_tasks sch h = []).
Proof.
  pose proof (assigned_unassigned_length sch h) as Hlen.
  unfold Schedule.get_completion_rate.
  destruct (Schedule.tasks sch) as [|t ts] eqn:Hts.
  - exists 100%Q. repeat split; try done.
    unfold Schedule.get_unassigned_tasks. by rewrite Hts.
  - rewrite Float_div_nonzero by apply inject_Z_len_nonzero. simpl.
    eexists. split; [reflexivity|].
    set (a := Schedule.len (Schedule.get_assigned_tasks sch h)) in *.
    set (u := Schedule.len (Schedule.get_unassigned_tasks sch h)) in *.
    set (n := Schedule.len (t :: ts)) in *.
    assert (0 < n)%Z as Hn by (unfold n, Schedule.len; simpl; lia).
    assert (0 ≤ a)%Z as Ha by (unfold a, Schedule.len; lia).
    assert (0 ≤ u)%Z as Hu by (unfold u, Schedule.len; lia).
    assert (Schedule.get_unassigned_tasks sch h = [] ↔ u = 0%Z) as ->.
    { unfold u, Schedule.len.
      destruct (Schedule.get_unassigned_tasks sch h); simpl; split;
        intros; try done; lia. }
    assert (0 < inject_Z n)%Q as HnQ by (rewrite <- (Zlt_Qlt 0); done).
    assert (inject_Z a / inject_Z n * 100 == inject_Z (a * 100) / inject_Z n)%Q
      as Heq.
    { rewrite inject_Z_mult. field. intros H0. rewrite H0 in HnQ.
      by apply Qlt_irrefl in HnQ. }
    rewrite Heq. split; [|split; [|split]].
    + apply Qle_shift_div_l; [done|]. rewrite Qmult_0_l.
      rewrite <- (Zle_Qle 0). lia.
    + apply Qle_shift_div_r; [done|].
      change 100%Q with (inject_Z 100). rewrite <- inject_Z_mult.
      rewrite <- Zle_Qle. lia.
    + intros Hr.
      assert (inject_Z (a * 100) == inject_Z (100 * n))%Q as Hz.
      { rewrite (inject_Z_mult 100 n). rewrite <- Hr. field.
        intros H0. rewrite H0 in HnQ. by apply Qlt_irrefl in HnQ. }
      apply (proj1 (inject_Z_injective _ _)) in Hz. lia.
    + intros Hu0.
      assert (a = n) as -> by lia.
      rewrite inject_Z_mult. field. intros H0. rewrite H0 in HnQ.
      by apply Qlt_irrefl in HnQ.
Qed.

(** ** Assigning and taking back *)

(** X5.  A successful [assign_to] followed by [unassign] of the same task:
    the task is unlinked and otherwise as before, the employee has the hours
    [(c + d) - d] for the hours [c] it had and the duration [d] of the task,
    which for exact numbers is [c] again, and no other object has changed.
    *)
Theorem assign_then_unassign (task employee : loc) (h h' : Task.heap) :
  Task.assign_to task employee h = (true, h') →
  let h'' := Task.unassign task h' in
  let c := Employee.current_hours (employee_at h employee) in
  let d := Task.duration (task_at h task) in
  task_at h'' task = Task.set_assigned_employee (task_at h task) None
  ∧ employee_at h'' employee
    = Employee.set_current_hours (employee_at h employee) (c + d - d)
  ∧ same_fields (employee_at h'' employee) (employee_at h employee)
  ∧ (∀ l, l ≠ task → task_at h'' l = task_at h l)
  ∧ (∀ l, l ≠ employee → employee_at h'' l = employee_at h l).
Proof.
  intros Ha h'' c d. subst h''. unfold Task.assign_to in Ha.
  destruct (Task.can_be_assigned_to _ _); [|done].
  injection Ha as <-.
  unfold Task.unassign. simpl. rewrite !upd_eq. simpl. rewrite !upd_eq.
  split; [done|]. split; [done|]. split.
  - repeat split; simpl; try reflexivity. unfold c, d. ring.
  - split.
    + intros l Hl. by rewrite !upd_ne.
    + intros l Hl. by rewrite !upd_ne.
Qed.

(** ** The validity check *)

(** [is_valid] as a proposition. *)
Lemma is_valid_spec (sch : Schedule.t) (h : Task.heap) :
  Schedule.is_valid sch h = true
  ↔ (∀ e, e ∈ Schedule.employees sch →
          (Employee.current_hours (employee_at h e)
           <= Employee.max_hours (employee_at h e))%Q)
    ∧ (∀ t e, t ∈ Schedule.tasks sch →
              Task.assigned_employee (task_at h t) = Some e →
              Task.required_training (task_at h t)
              ⊆ Employee.training (employee_at h e)
              ∧ (Employee.current_hours (employee_at h e)
                 + Task.duration (task_at h t)
                 <= Employee.max_hours (employee_at h e))%Q
              ∧ (Task.min_rank (task_at h t)
                 ≤ Employee.rank (employee_at h e))%Z).
Proof.
  unfold Schedule.is_valid.
  rewrite andb_true_iff, !forallb_forall.
  apply Morphisms_Prop.and_iff_morphism.
  - split.
    + intros Hall e He%list_elem_of_In. apply Hall in He.
      apply negb_true_iff in He. by apply Float_ltb_ge.
    + intros Hall e He%list_elem_of_In. apply negb_true_iff, Float_ltb_ge.
      by apply Hall.
  - unfold Schedule.get_assigned_tasks. split.
    + intros Hall t e Ht%list_elem_of_In Hlink.
      specialize (Hall t). rewrite filter_In in Hall.
      unfold Task.is_assigned in Hall. rewrite Hlink in Hall.
      specialize (Hall (conj Ht eq_refl)).
      unfold Task.can_be_assigned_to in Hall.
      apply andb_true_iff in Hall as [[Htr Hh]%andb_true_iff Hr].
      split; [by apply bool_decide_eq_true in Htr|].
      split; [by apply Float_leb_le|by apply Z.leb_le].
    + intros Hall t [Ht%list_elem_of_In Has]%filter_In.
      destruct (Task.assigned_employee (task_at h t)) as [e|] eqn:Hlink;
        [|done].
      destruct (Hall t e Ht Hlink) as (Htr & Hh & Hr).
      unfold Task.can_be_assigned_to.
      rewrite !andb_true_iff. split; [split|].
      * by apply bool_decide_eq_true.
      * by apply Float_leb_le.
      * by apply Z.leb_le.
Qed.

(** ** The pass as a whole *)

(** What [assign_to] writes when it accepts. *)
Lemma assign_to_accepts task employee h :
  Task.can_be_assigned_to (task_at h task) (employee_at h employee) = true →
  let h' := (Task.assign_to task employee h).2 in
  (Task.assign_to task employee h).1 = true
  ∧ (∀ l, task_at h' l
          = if decide (l = task)
            then Task.set_assigned_employee (task_at h l) (Some employee)
            else task_at h l)
  ∧ (∀ l, employee_at h' l
          = if decide (l = employee)
            then Employee.set_current_hours (employee_at h l)
                   (Employee.current_hours (employee_at h l)
                    + Task.duration (task_at h task))
            else employee_at h l).
Proof.
  intros Hcan. unfold Task.assign_to. rewrite Hcan. simpl.
  split; [done|]. split; intros l.
  - destruct (decide (l = task)) as [->|Hne];
      [by rewrite upd_eq | by rewrite upd_ne].
  - destruct (decide (l = employee)) as [->|Hne];
      [rewrite upd_eq | by rewrite upd_ne].
    unfold Employee.assign_hours. simpl. by rewrite upd_eq.
Qed.

Lemma same_static_employee h h' l :
  same_static h h' →
  Employee.training (employee_at h' l) = Employee.training (employee_at h l)
  ∧ Employee.rank (employee_at h' l) = Employee.rank (employee_at h l).
Proof.
  intros [He _].
  split; [exact (f_equal Employee.training (He l))
         | exact (f_equal Employee.rank (He l))].
Qed.

Lemma same_static_task h h' l :
  same_static h h' →
  Task.id (task_at h' l) = Task.id (task_at h l)
  ∧ Task.required_training (task_at h' l)
    = Task.required_training (task_at h l)
  ∧ Task.min_rank (task_at h' l) = Task.min_rank (task_at h l)
  ∧ Task.priority (task_at h' l) = Task.priority (task_at h l)
  ∧ Task.deadline (task_at h' l) = Task.deadline (task_at h l).
Proof.
  intros [_ Ht].
  repeat split;
    [exact (f_equal Task.id (Ht l))
    | exact (f_equal Task.required_training (Ht l))
    | exact (f_equal Task.min_rank (Ht l))
    | exact (f_equal Task.priority (Ht l))
    | exact (f_equal Task.deadline (Ht l))].
Qed.

(** The parts of [schedule_all]. *)
Lemma schedule_all_inv `{Interp} self h ok self' h' :
  AutoScheduler.schedule_all self h = Ok (ok, self', h') →
  ∃ self0 sorted,
    AutoScheduler.schedule self0 = AutoScheduler.schedule self
    ∧ AutoScheduler.unassigned_reasons self0 = ∅
    ∧ AutoScheduler._sort_tasks_by_priority self0
        (Schedule.reset (AutoScheduler.schedule self) h) = Ok sorted
    ∧ sorted ≡ₚ Schedule.tasks (AutoScheduler.schedule self)
    ∧ AutoScheduler.schedule_loop self0
        (Schedule.reset (AutoScheduler.schedule self) h) sorted
      = Ok (self', h')
    ∧ ok = Nat.eqb
             (length (Schedule.get_unassigned_tasks
                        (AutoScheduler.schedule self') h')) 0.
Proof.
  unfold AutoScheduler.schedule_all.
  set (self0 := {| AutoScheduler.schedule := AutoScheduler.schedule self;
                   AutoScheduler.unassigned_reasons := ∅;
                   AutoScheduler.score_log := [] |}).
  destruct (AutoScheduler._sort_tasks_by_priority self0 _) as [sorted|]
    eqn:Hsort; [simpl | done].
  destruct (AutoScheduler.schedule_loop _ _ sorted) as [[self1 h1]|] eqn:Hloop;
    [simpl | done].
  intros [= <- <- <-]. exists self0, sorted.
  repeat split; try done.
  by apply sort_tasks_by_priority_perm in Hsort.
Qed.

(** Induction on the loop of [schedule_all] with the tasks already
    handled. *)
Lemma schedule_loop_ind `{Interp} (sorted : list loc)
    (P : list loc → AutoScheduler.t → Task.heap → Prop) :
  (∀ done task rest self g ok self1 g1,
     done ++ task :: rest = sorted →
     P done self g →
     AutoScheduler._assign_task self g task = Ok (ok, self1, g1) →
     P (done ++ [task])
       (if ok : bool then self1
        else AutoScheduler.record_reasons self1 (Task.id (task_at g1 task))
               (AutoScheduler._get_all_unassignment_reasons self1 g1 task))
       g1) →
  ∀ rest done self g self' g',
    done ++ rest = sorted → P done self g →
    AutoScheduler.schedule_loop self g rest = Ok (self', g') →
    P sorted self' g'.
Proof.
  intros Hstep rest.
  induction rest as [|task rest IH]; intros done self g self' g' Hsplit HP;
    simpl.
  { intros [= <- <-]. by rewrite app_nil_r in Hsplit; subst. }
  destruct (AutoScheduler._assign_task self g task) as [[[ok self1] g1]|]
    eqn:Hassign; [simpl | done].
  apply (IH (done ++ [task])).
  - by rewrite <- app_assoc.
  - by eapply Hstep.
Qed.

(** After [schedule_all], every task of the list that has an employee has
    one of the roster, with the required training and at least the minimum
    rank. *)
Lemma schedule_all_links_eligible `{Interp} self h ok self' h' :
  AutoScheduler.schedule_all self h = Ok (ok, self', h') →
  ∀ t e, t ∈ Schedule.tasks (AutoScheduler.schedule self) →
         Task.assigned_employee (task_at h' t) = Some e →
         e ∈ Schedule.employees (AutoScheduler.schedule self)
         ∧ Task.required_training (task_at h' t)
           ⊆ Employee.training (employee_at h' e)
         ∧ (Task.min_rank (task_at h' t)
            ≤ Employee.rank (employee_at h' e))%Z.
Proof.
  intros Hall. set (sch := AutoScheduler.schedule self).
  apply schedule_all_inv in Hall
    as (self0 & sorted & Hsch0 & _ & _ & _ & Hloop & _). fold sch in Hsch0.
  apply (schedule_loop_inv
           (λ g, ∀ t e, t ∈ Schedule.tasks sch →
                        Task.assigned_employee (task_at g t) = Some e →
                        e ∈ Schedule.employees sch
                        ∧ Task.required_training (task_at g t)
                          ⊆ Employee.training (employee_at g e)
                        ∧ (Task.min_rank (task_at g t)
                           ≤ Employee.rank (employee_at g e))%Z) sch)
    in Hloop as [Hinv _]; [done| | done |].
  - intros task best g Hg Hbest Hcan t e Ht Hlink.
    destruct (assign_to_accepts task best g Hcan) as (_ & Htask & Hemp).
    pose proof (assign_to_static task best g) as Hstatic.
    destruct (same_static_employee _ _ e Hstatic) as [-> ->].
    destruct (same_static_task _ _ t Hstatic) as (_ & -> & -> & _).
    rewrite Htask in Hlink. destruct (decide (t = task)) as [->|Hne].
    + injection Hlink as <-. split; [done|].
      unfold Task.can_be_assigned_to in Hcan.
      apply andb_true_iff in Hcan as [[Htr _]%andb_true_iff Hr].
      split; [by apply bool_decide_eq_true in Htr | by apply Z.leb_le].
    + by apply Hg.
  - intros t e Ht Hlink. by rewrite reset_unlinks in Hlink.
Qed.

(** X9.  After [schedule_all], every task of the list that has an employee
    has one of the roster, with the required training and at least the
    minimum rank; and the value returned tells whether every task of the
    list has an employee. *)
Theorem schedule_all_assigns_eligible `{Interp}
    (self self' : AutoScheduler.t) (h h' : Task.heap) (ok : bool) :
  let sch := AutoScheduler.schedule self in
  AutoScheduler.schedule_all self h = Ok (ok, self', h') →
  (∀ t e, t ∈ Schedule.tasks sch →
          Task.assigned_employee (task_at h' t) = Some e →
          e ∈ Schedule.employees sch
          ∧ Task.required_training (task_at h' t)
            ⊆ Employee.training (employee_at h' e)
          ∧ (Task.min_rank (task_at h' t)
             ≤ Employee.rank (employee_at h' e))%Z)
  ∧ (ok = true
     ↔ ∀ t, t ∈ Schedule.tasks sch →
            Task.is_assigned (task_at h' t) = true).
Proof.
  intros sch Hall. split; [by eapply schedule_all_links_eligible|].
  apply schedule_all_inv in Hall
    as (self0 & sorted & Hsch0 & _ & _ & _ & Hloop & Hok). fold sch in Hsch0.
  apply (schedule_loop_inv (λ _, True) sch) in Hloop as [_ Hsch'];
    [|done..].
  subst ok. rewrite Hsch'.
  unfold Schedule.get_unassigned_tasks.
  rewrite Nat.eqb_eq, length_zero_iff_nil. split.
  - intros Hnil t Ht%list_elem_of_In.
    destruct (Task.is_assigned (task_at h' t)) eqn:Has; [done|].
    assert (In t []) as []. rewrite <- Hnil. apply filter_In.
    by rewrite Has.
  - intros Hassigned. apply filter_none. intros t Ht.
    by rewrite (Hassigned t Ht).
Qed.

(** X6.  What [is_valid] tells after a pass.  On a roster whose [max_hours]
    are not negative and a task list whose durations are not negative,
    after [schedule_all] the hours of the roster are within [max_hours] and
    every assigned task has an employee with the training and the rank, so
    that [is_valid] is true exactly when every assigned task could be
    given to its employee once more: the employee has room for the duration
    of the task on top of the hours that already count it. *)
Theorem is_valid_after_schedule_all `{Interp}
    (self self' : AutoScheduler.t) (h h' : Task.heap) (ok : bool) :
  let sch := AutoScheduler.schedule self in
  (∀ l, l ∈ Schedule.employees sch →
        (0 <= Employee.max_hours (employee_at h l))%Q) →
  (∀ t, t ∈ Schedule.tasks sch → (0 <= Task.duration (task_at h t))%Q) →
  AutoScheduler.schedule_all self h = Ok (ok, self', h') →
  Schedule.is_valid sch h' = true
  ↔ ∀ t e, t ∈ Schedule.tasks sch →
           Task.assigned_employee (task_at h' t) = Some e →
           (Employee.current_hours (employee_at h' e)
            + Task.duration (task_at h' t)
            <= Employee.max_hours (employee_at h' e))%Q.
Proof.
  intros sch Hmax Hdur Hall. rewrite is_valid_spec.
  pose proof (schedule_all_links_eligible _ _ _ _ _ Hall) as Hlinks.
  fold sch in Hlinks.
  split; [intros [_ Hvalid] t e Ht Hlink; by apply Hvalid|].
  intros Hroom. split.
  - apply schedule_all_inv in Hall
      as (self0 & sorted & Hsch0 & _ & _ & _ & Hloop & _).
    fold sch in Hsch0, Hloop.
    apply (schedule_loop_inv
             (λ g, ∀ l, l ∈ Schedule.employees sch →
                        (Employee.current_hours (employee_at g l)
                         <= Employee.max_hours (employee_at g l))%Q) sch)
      in Hloop as [Hinv _]; [done | | done |].
    + intros task best g Hg _ _ l Hl. apply assign_to_within_capacity. auto.
    + intros l Hl.
      rewrite (same_static_max_hours h _ l (reset_static sch h)).
      eapply Qle_trans; [by apply reset_hours_nonpositive | by apply Hmax].
  - intros t e Ht Hlink.
    destruct (Hlinks t e Ht Hlink) as (_ & Htraining & Hrank).
    split; [done|]. split; [by apply Hroom | done].
Qed.

(** X20.  On a roster whose employees have different ids, after
    [schedule_all] the tasks that [get_employee_tasks] returns for an
    employee of the roster are exactly the tasks of the list linked to that
    employee: the links of the pass go to employees of the roster, and
    among these the comparison of the fields tells the objects apart. *)
Theorem get_employee_tasks_after_schedule_all `{Interp}
    (self self' : AutoScheduler.t) (h h' : Task.heap) (ok : bool) :
  let sch := AutoScheduler.schedule self in
  (∀ a b, a ∈ Schedule.employees sch → b ∈ Schedule.employees sch →
          Employee.id (employee_at h a) = Employee.id (employee_at h b) →
          a = b) →
  AutoScheduler.schedule_all self h = Ok (ok, self', h') →
  ∀ e, e ∈ Schedule.employees sch →
       Schedule.get_employee_tasks sch h' e = tasks_linked_to sch h' e.
Proof.
  intros sch Hids Hall e He.
  pose proof (schedule_all_links_eligible _ _ _ _ _ Hall) as Hlinks.
  fold sch in Hlinks.
  apply schedule_all_static in Hall as [[Hstatic _] _].
  unfold Schedule.get_employee_tasks, tasks_linked_to.
  apply filter_ext_in. intros task Htask%list_elem_of_In.
  destruct (Task.assigned_employee (task_at h' task)) as [e'|] eqn:Hlink;
    [|done].
  destruct (Hlinks task e' Htask Hlink) as (He' & _).
  destruct (Employee.eqb _ _) eqn:Heq.
  - apply employee_eqb_same_fields in Heq as (Hid & _).
    rewrite (Hids e' e He' He); [by rewrite bool_decide_eq_true_2|].
    pose proof (f_equal Employee.id (Hstatic e')) as Hid1.
    pose proof (f_equal Employee.id (Hstatic e)) as Hid2.
    simpl in Hid1, Hid2. congruence.
  - rewrite bool_decide_eq_false_2; [done|]. intros [= ->].
    pose proof (same_fields_refl (employee_at h' e)) as Hrefl.
    apply employee_eqb_same_fields in Hrefl. congruence.
Qed.

(** ** The recorded reasons *)

Lemma get_all_unassignment_reasons_nonempty `{Interp} self h task :
  AutoScheduler._get_all_unassignment_reasons self h task ≠ [].
Proof.
  unfold AutoScheduler._get_all_unassignment_reasons.
  destruct (Schedule.employees (AutoScheduler.schedule self)); [done|].
  destruct (decide (_ = ∅)) as [|Hne]; [done|].
  intros Hnil. apply Hne, leibniz_equiv, elements_empty_inv.
  apply Permutation_nil_r. by rewrite <- set_iter_perm, Hnil.
Qed.

(** X11.  After [schedule_all], every entry of [get_unassigned_tasks_report]
    carries the reasons recorded under the id of its task, and they are not
    empty: the default ["Unknown"] of the report is not used. *)
Theorem unassigned_report_has_recorded_reasons `{Interp}
    (self self' : AutoScheduler.t) (h h' : Task.heap) (ok : bool) :
  AutoScheduler.schedule_all self h = Ok (ok, self', h') →
  ∀ entry, entry ∈ AutoScheduler.get_unassigned_tasks_report self' h' →
           AutoScheduler.unassigned_reasons self'
             !! AutoScheduler.task_id entry
           = Some (AutoScheduler.reasons entry)
           ∧ AutoScheduler.reasons entry ≠ [].
Proof.
  intros Hall.
  apply schedule_all_inv in Hall
    as (self0 & sorted & Hsch0 & Hempty & _ & Hperm & Hloop & _).
  set (sch := AutoScheduler.schedule self) in *.
  pose proof Hloop as Hsch'.
  apply (schedule_loop_inv (λ _, True) sch) in Hsch' as [_ Hsch'];
    [|done..].
  assert (∀ t, t ∈ sorted →
               Task.is_assigned (task_at h' t) = true
               ∨ ∃ rs, AutoScheduler.unassigned_reasons self'
                         !! Task.id (task_at h' t) = Some rs
                       ∧ rs ≠ []) as Hrec.
  { refine (schedule_loop_ind sorted
              (λ done self1 g,
                 ∀ t, t ∈ done →
                      Task.is_assigned (task_at g t) = true
                      ∨ ∃ rs, AutoScheduler.unassigned_reasons self1
                                !! Task.id (task_at g t) = Some rs
                              ∧ rs ≠ [])
              _ sorted [] self0 _ self' h' eq_refl _ Hloop).
    - intros done task rest self1 g ok1 self2 g1 _ HP Hassign t Ht.
      apply assign_task_inv in Hassign as (_ & Hreasons & Hcase).
      assert (Task.id (task_at g1 t) = Task.id (task_at g t)
              ∧ (Task.is_assigned (task_at g t) = true →
                 Task.is_assigned (task_at g1 t) = true)
              ∧ (ok1 = true → Task.is_assigned (task_at g1 task) = true))
        as (Hid & Hmono & Hdone).
      { destruct Hcase as [(-> & -> & _)|(best & _ & Hcan & Hassign)];
          [done|].
        destruct (assign_to_accepts task best g Hcan) as (_ & Htask & _).
        rewrite Hassign in Htask. simpl in Htask. rewrite !Htask.
        rewrite (decide_True (P := task = task)) by done.
        destruct (decide (t = task)); done. }
      apply elem_of_app in Ht as [Ht|Ht%list_elem_of_singleton].
      + destruct (HP t Ht) as [Has|(rs & Hrs & Hne)]; [left; auto|].
        destruct ok1; [right; exists rs; by rewrite Hid, Hreasons|].
        right. simpl. rewrite Hid.
        destruct (decide (Task.id (task_at g1 task) = Task.id (task_at g t)))
          as [->|Hne'].
        * rewrite lookup_insert_eq. eexists. split; [done|].
          apply get_all_unassignment_reasons_nonempty.
        * rewrite lookup_insert_ne by done. exists rs. by rewrite Hreasons.
      + subst t. destruct ok1; [left; auto|]. right. simpl.
        rewrite lookup_insert_eq. eexists. split; [done|].
        apply get_all_unassignment_reasons_nonempty.
    - intros t Ht. by apply elem_of_nil in Ht. }
  intros entry Hentry.
  unfold AutoScheduler.get_unassigned_tasks_report in Hentry.
  apply list_elem_of_fmap in Hentry as (t & -> & Ht). simpl.
  rewrite Hsch' in Ht. unfold Schedule.get_unassigned_tasks in Ht.
  apply list_elem_of_In, filter_In in Ht as [Ht%list_elem_of_In Hun].
  apply negb_true_iff in Hun. rewrite <- Hperm in Ht.
  destruct (Hrec t Ht) as [Has|(rs & Hrs & Hne)]; [congruence|].
  by rewrite Hrs.
Qed.

(** ** Exceptions of the pass *)

Lemma score_raise task employee e :
  AutoScheduler._score_employee_for_task task employee = Raise e →
  e = ZeroDivisionError ∧ (Employee.max_hours employee == 0)%Q.
Proof.
  unfold AutoScheduler._score_employee_for_task, Float.div.
  destruct (Qeq_bool (Employee.max_hours employee) 0) eqn:Hz; simpl; [|done].
  intros [= <-]. split; [done | by apply Qeq_bool_iff].
Qed.

Lemma score_all_raise h task eligible e :
  AutoScheduler.score_all h task eligible = Raise e →
  e = ZeroDivisionError
  ∧ ∃ emp, emp ∈ eligible ∧ (Employee.max_hours (employee_at h emp) == 0)%Q.
Proof.
  induction eligible as [|emp rest IH]; simpl; [done|].
  destruct (AutoScheduler._score_employee_for_task _ _) as [s|e'] eqn:Hs;
    simpl.
  - destruct (AutoScheduler.score_all h task rest) as [l|e'']; simpl; [done|].
    intros [= <-]. destruct IH as (-> & emp' & Hin & Hz); [done|].
    split; [done|]. exists emp'. split; [by right | done].
  - intros [= <-]. apply score_raise in Hs as [-> Hz].
    split; [done|]. exists emp. split; [left | done].
Qed.

Lemma assign_task_raise self h task e :
  AutoScheduler._assign_task self h task = Raise e →
  e = ZeroDivisionError
  ∧ ∃ emp, emp ∈ Schedule.employees (AutoScheduler.schedule self)
           ∧ (Employee.max_hours (employee_at h emp) == 0)%Q.
Proof.
  unfold AutoScheduler._assign_task.
  destruct (AutoScheduler._get_eligible_employees self h task)
    as [|e0 el] eqn:Hel; [done|].
  unfold AutoScheduler._select_best_employee.
  destruct (AutoScheduler.score_all h task (e0 :: el)) as [scored|e'] eqn:Hs;
    cbn -[AutoScheduler.score_all].
  - destruct (py_sorted_reverse_perm (λ x y : loc * Q, Float.ltb x.2 y.2)
                scored) as (sorted & -> & Hperm).
    cbn -[AutoScheduler.score_all].
    destruct sorted as [|[b s] sorted].
    + apply Permutation_nil_l in Hperm. subst scored.
      apply score_all_Forall2, Forall2_nil_inv_r in Hs. done.
    + cbn -[AutoScheduler.score_all].
      by destruct (Task.assign_to task b h).
  - intros [= <-]. apply score_all_raise in Hs as (-> & emp & Hin & Hz).
    split; [done|]. exists emp. split; [|done].
    rewrite <- Hel in Hin. by apply get_eligible_employees_elem in Hin as [? _].
Qed.

Lemma schedule_loop_raise `{Interp} (h0 : Task.heap) sorted_tasks :
  ∀ self h e,
    same_static h0 h →
    AutoScheduler.schedule_loop self h sorted_tasks = Raise e →
    e = ZeroDivisionError
    ∧ ∃ emp, emp ∈ Schedule.employees (AutoScheduler.schedule self)
             ∧ (Employee.max_hours (employee_at h0 emp) == 0)%Q.
Proof.
  induction sorted_tasks as [|task rest IH]; intros self h e Hstatic; simpl;
    [done|].
  destruct (AutoScheduler._assign_task self h task) as [[[ok self1] h1]|e']
    eqn:Hassign; simpl.
  - intros Hraise.
    apply assign_task_inv in Hassign as (Hsch & _ & Hcase).
    apply IH in Hraise as (-> & emp & Hin & Hz).
    + split; [done|]. exists emp. split; [|done].
      destruct ok; simpl in Hin; by rewrite <- Hsch.
    + eapply same_static_trans; [exact Hstatic|].
      destruct Hcase as [(_ & -> & _)|(best & _ & _ & Hassign)];
        [apply same_static_refl|].
      pose proof (assign_to_static task best h) as Hs.
      by rewrite Hassign in Hs.
  - intros [= <-]. apply assign_task_raise in Hassign as (-> & emp & Hin & Hz).
    split; [done|]. exists emp. split; [done|].
    by rewrite <- (same_static_max_hours h0 h emp Hstatic).
Qed.

(** X12.  The two ways in which [schedule_all] raises: a [TypeError], from
    the sort, with two tasks of the list of equal priority whose deadlines
    cannot be ordered (one has a deadline and one has none, or one deadline
    is naive and one aware); or a [ZeroDivisionError], from the score, with
    an employee of the roster whose [max_hours] is 0.  It raises nothing
    else, in particular no [IndexError] from an empty list of candidates. *)
Theorem schedule_all_raises_only `{Interp}
    (self : AutoScheduler.t) (h : Task.heap) (e : exn) :
  let sch := AutoScheduler.schedule self in
  AutoScheduler.schedule_all self h = Raise e →
  (e = TypeError
   ∧ ∃ a b, a ∈ Schedule.tasks sch ∧ b ∈ Schedule.tasks sch
            ∧ tasks_mixed h a b = true)
  ∨ (e = ZeroDivisionError
     ∧ ∃ emp, emp ∈ Schedule.employees sch
              ∧ (Employee.max_hours (employee_at h emp) == 0)%Q).
Proof.
  intros sch. unfold AutoScheduler.schedule_all. fold sch.
  pose proof (reset_static sch h) as Hstatic.
  destruct (AutoScheduler._sort_tasks_by_priority _ _) as [sorted|e']
    eqn:Hsort; simpl.
  - destruct (AutoScheduler.schedule_loop _ _ sorted) as [[self1 h1]|e']
      eqn:Hloop; simpl; [done|].
    intros [= <-]. right.
    by apply (schedule_loop_raise h _ _ _ _ Hstatic) in Hloop.
  - intros [= <-]. left.
    unfold AutoScheduler._sort_tasks_by_priority, py_sorted in Hsort.
    apply sort_onto_raise in Hsort as (a & b & Ha & Hb & Hlt).
    simpl in Ha, Hb. rewrite sort_key_lt_spec in Hlt.
    destruct (mixed_deadlines _ _) eqn:Hmixed; [|done].
    injection Hlt as <-. split; [done|]. exists a, b.
    split; [done|]. split; [done|].
    unfold tasks_mixed, mixed_deadlines in *.
    destruct (same_static_task _ _ a Hstatic) as (_ & _ & _ & <- & <-).
    by destruct (same_static_task _ _ b Hstatic) as (_ & _ & _ & <- & <-).
Qed.

(** ** Hours and links *)

Lemma fold_left_Qplus (l : list Q) (acc : Q) :
  (fold_left Qplus l acc == acc + fold_left Qplus l 0)%Q.
Proof.
  revert acc. induction l as [|x l IH]; intros acc; simpl; [ring|].
  rewrite IH, (IH (0 + x)%Q). ring.
Qed.

Lemma linked_hours_cons h e t l :
  (linked_hours h e (t :: l)
   == (if bool_decide (Task.assigned_employee (task_at h t) = Some e)
       then Task.duration (task_at h t) else 0)
      + linked_hours h e l)%Q.
Proof.
  unfold linked_hours. simpl.
  destruct (bool_decide _); simpl; [|ring].
  unfold Schedule.sum. simpl. rewrite fold_left_Qplus. ring.
Qed.

(** The total depends on the links and the durations of the tasks of the
    list only. *)
Lemma linked_hours_ext h h' e l :
  (∀ t, t ∈ l → task_at h' t = task_at h t) →
  (linked_hours h' e l == linked_hours h e l)%Q.
Proof.
  induction l as [|t l IH]; intros Hsame; [done|].
  rewrite !linked_hours_cons, IH, Hsame; [done | left |].
  intros t' Ht'. apply Hsame. by right.
Qed.

(** Linking a task that had no employee adds its duration to the total of
    the new employee, once, if the task occurs once. *)
Lemma linked_hours_link h h' e task best l :
  NoDup l →
  Task.assigned_employee (task_at h task) = None →
  (∀ t, task_at h' t
        = if decide (t = task)
          then Task.set_assigned_employee (task_at h t) (Some best)
          else task_at h t) →
  (linked_hours h' e l
   == linked_hours h e l
      + (if bool_decide (task ∈ l ∧ e = best)
         then Task.duration (task_at h task) else 0))%Q.
Proof.
  intros Hnodup Hnone Htask.
  induction l as [|t l IH]; [unfold linked_hours; simpl; ring|].
  apply NoDup_cons in Hnodup as [Hnotin Hnodup].
  rewrite !linked_hours_cons. destruct (decide (t = task)) as [->|Hne].
  - rewrite (linked_hours_ext h h' e l).
    2:{ intros t Ht. rewrite Htask. rewrite decide_False; [done|].
        by intros ->. }
    rewrite Htask, decide_True by done. simpl. rewrite Hnone.
    rewrite (bool_decide_eq_false_2 (None = Some e)) by done.
    destruct (decide (e = best)) as [->|Hne].
    + rewrite !bool_decide_eq_true_2; [ring | |done].
      split; [left | done].
    + rewrite !bool_decide_eq_false_2; [ring | |]; [intros [_ ?]|intros [=]];
        done.
  - rewrite IH by done. rewrite Htask, decide_False by done.
    assert (bool_decide (task ∈ t :: l ∧ e = best)
            = bool_decide (task ∈ l ∧ e = best)) as ->; [|ring].
    apply bool_decide_ext. rewrite elem_of_cons.
    split; [intros [[?|?] ?]; [congruence | done] | intros [? ?]; auto].
Qed.

(** Unlinking a task that occurs once. *)
Lemma linked_hours_unlink h e task l :
  task ∉ l →
  (linked_hours (Task.unassign task h) e l == linked_hours h e l)%Q.
Proof.
  intros Hnotin. apply linked_hours_ext. intros t Ht.
  rewrite unassign_task_at, decide_False; [done|]. by intros ->.
Qed.

(** What the second loop of [reset] does to the hours. *)
Lemma unassign_loop_hours tasks :
  NoDup tasks →
  ∀ h e,
    (Employee.current_hours (employee_at (unassign_loop tasks h) e)
     == Employee.current_hours (employee_at h e) - linked_hours h e tasks)%Q.
Proof.
  unfold unassign_loop.
  induction tasks as [|t l IH]; intros Hnodup h e; simpl.
  { unfold linked_hours, Schedule.sum. simpl. ring. }
  apply NoDup_cons in Hnodup as [Hnotin Hnodup].
  rewrite IH by done. rewrite linked_hours_unlink by done.
  rewrite linked_hours_cons, unassign_employee_at.
  destruct (Task.assigned_employee (task_at h t)) as [e'|] eqn:Hlink.
  - destruct (decide (e = e')) as [->|Hne]; simpl.
    + rewrite bool_decide_eq_true_2 by done. ring.
    + rewrite bool_decide_eq_false_2; [ring|]. by intros [= ->].
  - rewrite bool_decide_eq_false_2 by done. ring.
Qed.

(** X7.  What [reset] leaves in [current_hours], for a task list without
    repetition: an employee of the roster is set to 0 and then pays for
    every task of the list that was linked to it, which leaves minus the
    total duration of these tasks; an employee outside the roster keeps its
    hours less that total. The hours are exact numbers here: the code
    subtracts the durations one by one, the statement subtracts their sum.
    *)
Theorem reset_subtracts_linked_durations
    (sch : Schedule.t) (h : Task.heap) (e : loc) :
  NoDup (Schedule.tasks sch) →
  (Employee.current_hours (employee_at (Schedule.reset sch h) e)
   == (if decide (e ∈ Schedule.employees sch) then 0
       else Employee.current_hours (employee_at h e))
      - Schedule.sum
          (map (λ task, Task.duration (task_at h task))
             (tasks_linked_to sch h e)))%Q.
Proof.
  intros Hnodup. rewrite reset_unfold, unassign_loop_hours by done.
  rewrite reset_hours_loop_employee_at.
  change (Schedule.sum _) with (linked_hours h e (Schedule.tasks sch)).
  rewrite (linked_hours_ext h (reset_hours_loop (Schedule.employees sch) h)).
  2:{ intros t _. by rewrite reset_hours_loop_task_at. }
  by destruct (decide (e ∈ Schedule.employees sch)).
Qed.

(** X8.  [reset] applied twice leaves every employee of the roster with 0
    hours and every task of the list without employee, whatever the store
    was, and changes nothing else in these objects. *)
Theorem reset_twice_is_clean (sch : Schedule.t) (h : Task.heap) :
  let h2 := Schedule.reset sch (Schedule.reset sch h) in
  (∀ e, e ∈ Schedule.employees sch →
        employee_at h2 e = Employee.reset_hours (employee_at h e))
  ∧ (∀ t, t ∈ Schedule.tasks sch →
          task_at h2 t = Task.set_assigned_employee (task_at h t) None).
Proof. exact (reset_reset_clean sch h). Qed.

(** X10.  After [schedule_all] on a task list without repetition, none of
    whose tasks is linked to an employee of the roster at the start, the
    hours of every employee of the roster are the total duration of the
    tasks of the list linked to it. The hours are exact numbers here: the
    code adds the durations in the order of the pass, the statement in the
    order of the task list. *)
Theorem schedule_all_hours_are_linked_durations `{Interp}
    (self self' : AutoScheduler.t) (h h' : Task.heap) (ok : bool) :
  let sch := AutoScheduler.schedule self in
  NoDup (Schedule.tasks sch) →
  (∀ task e, task ∈ Schedule.tasks sch →
             Task.assigned_employee (task_at h task) = Some e →
             e ∉ Schedule.employees sch) →
  AutoScheduler.schedule_all self h = Ok (ok, self', h') →
  ∀ e, e ∈ Schedule.employees sch →
       (Employee.current_hours (employee_at h' e)
        == Schedule.sum
             (map (λ task, Task.duration (task_at h' task))
                (tasks_linked_to sch h' e)))%Q.
Proof.
  intros sch Hnodup Hfresh Hall.
  apply schedule_all_inv in Hall
    as (self0 & sorted & Hsch0 & _ & _ & Hperm & Hloop & _).
  fold sch in Hsch0, Hperm, Hloop.
  assert (NoDup sorted) as Hnodup' by by rewrite Hperm.
  assert ((∀ t, t ∈ Schedule.tasks sch → t ∉ sorted →
                Task.assigned_employee (task_at h' t) = None)
          ∧ ∀ e, e ∈ Schedule.employees sch →
                 (Employee.current_hours (employee_at h' e)
                  == linked_hours h' e (Schedule.tasks sch))%Q) as [_ Hinv];
    [|done].
  refine (schedule_loop_ind sorted
            (λ done _ g,
               (∀ t, t ∈ Schedule.tasks sch → t ∉ done →
                     Task.assigned_employee (task_at g t) = None)
               ∧ ∀ e, e ∈ Schedule.employees sch →
                      (Employee.current_hours (employee_at g e)
                       == linked_hours g e (Schedule.tasks sch))%Q)
            _ sorted [] self0 _ self' h' eq_refl _ Hloop).
  - intros done task rest self1 g ok1 self2 g1 Hsplit [Hrest Hhours] Hassign.
    assert (task ∈ Schedule.tasks sch ∧ task ∉ done) as [Htask Hnew].
    { rewrite <- Hsplit in Hnodup', Hperm. split.
      - rewrite <- Hperm. apply elem_of_app. right. left.
      - apply NoDup_app in Hnodup' as (_ & Hdisj & _). intros Hin.
        apply (Hdisj task Hin). left. }
    apply assign_task_inv in Hassign
      as (_ & _ & [(_ & -> & _)|(best & Hbest & Hcan & Hassign)]).
    { split; [|done]. intros t Ht Hnotin. apply Hrest; [done|].
      intros Hin. apply Hnotin, elem_of_app. by left. }
    destruct (assign_to_accepts task best g Hcan) as (_ & Htask_at & Hemp_at).
    rewrite Hassign in Htask_at, Hemp_at. simpl in Htask_at, Hemp_at. split.
    + intros t Ht Hnotin. rewrite Htask_at.
      destruct (decide (t = task)) as [->|Hne].
      * exfalso. apply Hnotin, elem_of_app. right. left.
      * apply Hrest; [done|]. intros Hin. apply Hnotin, elem_of_app. by left.
    + intros e He.
      rewrite (linked_hours_link g g1 e task best) by auto.
      rewrite Hemp_at. destruct (decide (e = best)) as [->|Hne]; simpl.
      * rewrite bool_decide_eq_true_2 by done. by rewrite Hhours.
      * rewrite bool_decide_eq_false_2 by (by intros [_ ?]).
        rewrite Hhours by done. ring.
  - split.
    + intros t Ht _. by apply reset_unlinks.
    + intros e He.
      rewrite (reset_employee_untouched (λ l, l ∈ Schedule.employees sch))
        by done.
      unfold linked_hours. rewrite filter_none; [done|].
      intros t Ht. rewrite reset_unlinks by done. done.
Qed.

(** ** What the pass leaves unassigned *)

(** More hours do not make an employee eligible. *)
Lemma can_be_assigned_to_more_hours (task : Task.t) (employee : Employee.t)
    (hours : Q) :
  (Employee.current_hours employee <= hours)%Q →
  Task.can_be_assigned_to task employee = false →
  Task.can_be_assigned_to task (Employee.set_current_hours employee hours)
  = false.
Proof.
  unfold Task.can_be_assigned_to, Employee.has_training,
    Employee.can_work_hours. simpl. intros Hle.
  destruct (bool_decide _); [simpl | done].
  destruct (_ <=? _)%Z; [rewrite !andb_true_r | by rewrite !andb_false_r].
  intros Hfull. apply not_true_is_false. intros Hroom.
  apply Float_leb_le in Hroom. apply not_true_iff_false in Hfull.
  apply Hfull, Float_leb_le. lra.
Qed.

(** X24.  The pass is maximal: when the durations of the tasks of the list
    are not negative and [schedule_all] returns, no task of the list that
    is left without employee can be assigned to an employee of the roster
    in the state the pass leaves. *)
Theorem schedule_all_leaves_nothing_assignable `{Interp}
    (self self' : AutoScheduler.t) (h h' : Task.heap) (ok : bool) :
  let sch := AutoScheduler.schedule self in
  (∀ t, t ∈ Schedule.tasks sch → (0 <= Task.duration (task_at h t))%Q) →
  AutoScheduler.schedule_all self h = Ok (ok, self', h') →
  ∀ t e, t ∈ Schedule.tasks sch → e ∈ Schedule.employees sch →
         Task.assigned_employee (task_at h' t) = None →
         Task.can_be_assigned_to (task_at h' t) (employee_at h' e) = false.
Proof.
  intros sch Hdur Hall.
  apply schedule_all_inv in Hall
    as (self0 & sorted & Hsch0 & _ & _ & Hperm & Hloop & _).
  fold sch in Hsch0, Hperm, Hloop.
  assert (AutoScheduler.schedule self' = sch
          ∧ same_static h h'
          ∧ ∀ t, t ∈ sorted →
                 Task.assigned_employee (task_at h' t) = None →
                 ∀ e, e ∈ Schedule.employees sch →
                      Task.can_be_assigned_to (task_at h' t) (employee_at h' e)
                      = false) as (_ & _ & Hinv).
  2:{ intros t e Ht He Hlink. rewrite <- Hperm in Ht. by apply Hinv. }
  refine (schedule_loop_ind sorted
            (λ done self1 g,
               AutoScheduler.schedule self1 = sch
               ∧ same_static h g
               ∧ ∀ t, t ∈ done →
                      Task.assigned_employee (task_at g t) = None →
                      ∀ e, e ∈ Schedule.employees sch →
                           Task.can_be_assigned_to (task_at g t)
                             (employee_at g e) = false)
            _ sorted [] self0 _ self' h' eq_refl _ Hloop).
  - intros done task rest self1 g ok1 self2 g1 Hsplit (Hsch & Hstatic & HP)
      Hassign.
    assert (task ∈ Schedule.tasks sch) as Htask.
    { rewrite <- Hperm, <- Hsplit. apply elem_of_app. right. left. }
    apply assign_task_inv in Hassign as (Hsch2 & _ & Hcase).
    split; [destruct ok1; simpl; congruence|].
    destruct Hcase as [(_ & -> & Hnone)|(best & Hbest & Hcan & Hassign)].
    + split; [done|]. intros t [Ht|Ht%list_elem_of_singleton]%elem_of_app;
        [by apply HP|].
      subst t. intros _ e He.
      destruct (Task.can_be_assigned_to _ _) eqn:Hcan; [|done].
      assert (e ∈ AutoScheduler._get_eligible_employees self1 g task) as Hin.
      { apply get_eligible_employees_elem. by rewrite Hsch. }
      rewrite Hnone in Hin. by apply elem_of_nil in Hin.
    + destruct (assign_to_accepts task best g Hcan) as (_ & Htask_at & Hemp_at).
      pose proof (assign_to_static task best g) as Hstep.
      rewrite Hassign in Htask_at, Hemp_at, Hstep.
      simpl in Htask_at, Hemp_at, Hstep.
      split; [by eapply same_static_trans|].
      intros t Ht Hlink e He. rewrite Htask_at in Hlink |- *.
      destruct (decide (t = task)) as [->|Hne]; [done|].
      apply elem_of_app in Ht as [Ht|Ht%list_elem_of_singleton]; [|done].
      specialize (HP t Ht Hlink e He). rewrite Hemp_at.
      destruct (decide (e = best)) as [->|_]; [|done].
      apply can_be_assigned_to_more_hours; [|done].
      rewrite (same_static_duration h g task Hstatic).
      specialize (Hdur task Htask). lra.
  - split; [done|]. split; [apply reset_static|].
    intros t Ht. by apply elem_of_nil in Ht.
Qed.

(** ** The scheduled hours *)

Lemma sum_cons (x : Q) (l : list Q) :
  (Schedule.sum (x :: l) == x + Schedule.sum l)%Q.
Proof. unfold Schedule.sum. simpl. rewrite fold_left_Qplus. ring. Qed.

(** Adding hours to one employee of a roster without repetition. *)
Lemma roster_hours_update (g g1 : Task.heap) (best : loc) (d : Q)
    (employees : list loc) :
  NoDup employees →
  (∀ e, employee_at g1 e
        = if decide (e = best)
          then Employee.set_current_hours (employee_at g e)
                 (Employee.current_hours (employee_at g e) + d)
          else employee_at g e) →
  (Schedule.sum
     (map (λ emp, Employee.current_hours (employee_at g1 emp)) employees)
   == Schedule.sum
        (map (λ emp, Employee.current_hours (employee_at g emp)) employees)
      + (if bool_decide (best ∈ employees) then d else 0))%Q.
Proof.
  intros Hnodup Hemp.
  induction employees as [|e l IH]; [unfold Schedule.sum; simpl; ring|].
  apply NoDup_cons in Hnodup as [Hnotin Hnodup]. simpl.
  rewrite !sum_cons, IH, Hemp by done.
  destruct (decide (e = best)) as [->|Hne]; simpl.
  - rewrite (bool_decide_eq_true_2 (best ∈ best :: l)) by left.
    rewrite (bool_decide_eq_false_2 (best ∈ l)) by done. ring.
  - assert (bool_decide (best ∈ e :: l) = bool_decide (best ∈ l)) as ->;
      [|ring].
    apply bool_decide_ext. rewrite elem_of_cons.
    split; [intros [?|?]; [congruence | done] | auto].
Qed.

(** Linking a task of a list without repetition that had no employee. *)
Lemma assigned_hours_link (g g1 : Task.heap) (task best : loc)
    (tasks : list loc) :
  NoDup tasks →
  Task.assigned_employee (task_at g task) = None →
  (∀ t, task_at g1 t
        = if decide (t = task)
          then Task.set_assigned_employee (task_at g t) (Some best)
          else task_at g t) →
  (Schedule.sum
     (map (λ t, Task.duration (task_at g1 t))
        (List.filter (λ t, Task.is_assigned (task_at g1 t)) tasks))
   == Schedule.sum
        (map (λ t, Task.duration (task_at g t))
           (List.filter (λ t, Task.is_assigned (task_at g t)) tasks))
      + (if bool_decide (task ∈ tasks)
         then Task.duration (task_at g task) else 0))%Q.
Proof.
  intros Hnodup Hnone Htask.
  induction tasks as [|t l IH]; [unfold Schedule.sum; simpl; ring|].
  apply NoDup_cons in Hnodup as [Hnotin Hnodup]. specialize (IH Hnodup).
  destruct (decide (t = task)) as [->|Hne].
  - assert (Task.is_assigned (task_at g1 task) = true) as Hnew
      by (by rewrite Htask, decide_True).
    assert (Task.is_assigned (task_at g task) = false) as Hold
      by (unfold Task.is_assigned; by rewrite Hnone).
    assert (Task.duration (task_at g1 task) = Task.duration (task_at g task))
      as Hdur by (by rewrite Htask, decide_True).
    simpl. rewrite Hnew, Hold. simpl. rewrite sum_cons, IH, Hdur.
    rewrite (bool_decide_eq_true_2 (task ∈ task :: l)) by left.
    rewrite (bool_decide_eq_false_2 (task ∈ l)) by done. ring.
  - assert (bool_decide (task ∈ t :: l) = bool_decide (task ∈ l)) as ->.
    { apply bool_decide_ext. rewrite elem_of_cons.
      split; [intros [?|?]; [congruence | done] | auto]. }
    assert (task_at g1 t = task_at g t) as Hsame
      by (by rewrite Htask, decide_False).
    simpl. rewrite Hsame.
    destruct (Task.is_assigned (task_at g t)); simpl; [|done].
    rewrite !sum_cons, IH, Hsame. ring.
Qed.

(** X25.  After [schedule_all] on a roster and a task list without
    repetition, none of whose tasks is linked to an employee of the roster
    at the start, the [total_hours_scheduled] that [get_statistics] reports
    are the total duration of the assigned tasks.  The hours are exact
    numbers here. *)
Theorem statistics_hours_are_assigned_durations `{Interp}
    (self self' : AutoScheduler.t) (h h' : Task.heap) (ok : bool) :
  let sch := AutoScheduler.schedule self in
  NoDup (Schedule.employees sch) →
  NoDup (Schedule.tasks sch) →
  (∀ task e, task ∈ Schedule.tasks sch →
             Task.assigned_employee (task_at h task) = Some e →
             e ∉ Schedule.employees sch) →
  AutoScheduler.schedule_all self h = Ok (ok, self', h') →
  ∃ stats,
    Schedule.get_statistics sch h' = Ok stats
    ∧ (Schedule.total_hours_scheduled stats
       == Schedule.sum
            (map (λ task, Task.duration (task_at h' task))
               (Schedule.get_assigned_tasks sch h')))%Q.
Proof.
  intros sch Hroster Hnodup Hfresh Hall.
  destruct (get_statistics_total sch h') as [stats Hstats].
  exists stats. split; [done|].
  assert (Schedule.total_hours_scheduled stats
          = Schedule.sum
              (map (λ emp, Employee.current_hours (employee_at h' emp))
                 (Schedule.employees sch))) as ->.
  { unfold Schedule.get_statistics in Hstats.
    destruct (Schedule.get_completion_rate sch h'); [simpl in Hstats | done].
    destruct (match Schedule.employees sch with [] => _ | _ => _ end);
      [simpl in Hstats | done].
    by injection Hstats as <-. }
  apply schedule_all_inv in Hall
    as (self0 & sorted & Hsch0 & _ & _ & Hperm & Hloop & _).
  fold sch in Hsch0, Hperm, Hloop.
  assert (NoDup sorted) as Hnodup' by by rewrite Hperm.
  unfold Schedule.get_assigned_tasks.
  assert (AutoScheduler.schedule self' = sch
          ∧ (∀ t, t ∈ Schedule.tasks sch → t ∉ sorted →
                  Task.assigned_employee (task_at h' t) = None)
          ∧ (Schedule.sum
               (map (λ emp, Employee.current_hours (employee_at h' emp))
                  (Schedule.employees sch))
             == Schedule.sum
                  (map (λ t, Task.duration (task_at h' t))
                     (List.filter (λ t, Task.is_assigned (task_at h' t))
                        (Schedule.tasks sch))))%Q) as (_ & _ & Hinv);
    [|done].
  refine (schedule_loop_ind sorted
            (λ done self1 g,
               AutoScheduler.schedule self1 = sch
               ∧ (∀ t, t ∈ Schedule.tasks sch → t ∉ done →
                       Task.assigned_employee (task_at g t) = None)
               ∧ (Schedule.sum
                    (map (λ emp, Employee.current_hours (employee_at g emp))
                       (Schedule.employees sch))
                  == Schedule.sum
                       (map (λ t, Task.duration (task_at g t))
                          (List.filter (λ t, Task.is_assigned (task_at g t))
                             (Schedule.tasks sch))))%Q)
            _ sorted [] self0 _ self' h' eq_refl _ Hloop).
  - intros done task rest self1 g ok1 self2 g1 Hsplit (Hsch & Hrest & Hhours)
      Hassign.
    assert (task ∈ Schedule.tasks sch ∧ task ∉ done) as [Htask Hnew].
    { rewrite <- Hsplit in Hnodup', Hperm. split.
      - rewrite <- Hperm. apply elem_of_app. right. left.
      - apply NoDup_app in Hnodup' as (_ & Hdisj & _). intros Hin.
        apply (Hdisj task Hin). left. }
    apply assign_task_inv in Hassign as (Hsch2 & _ & Hcase).
    split; [destruct ok1; simpl; congruence|].
    destruct Hcase as [(_ & -> & _)|(best & Hbest & Hcan & Hassign)].
    { split; [|done]. intros t Ht Hnotin. apply Hrest; [done|].
      intros Hin. apply Hnotin, elem_of_app. by left. }
    rewrite Hsch in Hbest.
    destruct (assign_to_accepts task best g Hcan) as (_ & Htask_at & Hemp_at).
    rewrite Hassign in Htask_at, Hemp_at. simpl in Htask_at, Hemp_at. split.
    + intros t Ht Hnotin. rewrite Htask_at.
      destruct (decide (t = task)) as [->|Hne].
      * exfalso. apply Hnotin, elem_of_app. right. left.
      * apply Hrest; [done|]. intros Hin. apply Hnotin, elem_of_app. by left.
    + rewrite (roster_hours_update g g1 best (Task.duration (task_at g task)))
        by done.
      rewrite (assigned_hours_link g g1 task best) by auto.
      rewrite !bool_decide_eq_true_2 by done. by rewrite Hhours.
  - split; [done|]. split; [intros t Ht _; by apply reset_unlinks|].
    rewrite filter_none.
    2:{ intros t Ht. unfold Task.is_assigned.
        by rewrite reset_unlinks. }
    assert (∀ l : list loc,
              (∀ e, e ∈ l → e ∈ Schedule.employees sch) →
              Schedule.sum
                (map (λ emp, Employee.current_hours
                               (employee_at (Schedule.reset sch h) emp)) l)
              == 0)%Q as Hzero; [|by apply Hzero].
    induction l as [|e l IH]; intros Hl; [done|]. simpl.
    rewrite sum_cons, IH by (intros e' He'; apply Hl; by right).
    rewrite (reset_employee_untouched (λ l, l ∈ Schedule.employees sch));
      [simpl; ring | done | apply Hl; left..].
Qed.

(** ** The workload report *)

Lemma workload_entries_length self h employees report :
  AutoScheduler.workload_entries self h employees = Ok report →
  length report = length employees.
Proof.
  revert report. induction employees as [|e rest IH]; intros report; simpl.
  { by intros [= <-]. }
  destruct (AutoScheduler.workload_of self h e) as [entry|]; [simpl | done].
  destruct (AutoScheduler.workload_entries self h rest) as [r|];
    [simpl | done].
  intros [= <-]. simpl. by rewrite (IH r).
Qed.

Lemma sorted_by_lookup {A} (ltb : A → A → bool) (l : list A) :
  sorted_by ltb l →
  ∀ i j a b, (i < j)%nat → l !! i = Some a → l !! j = Some b →
             ltb b a = false.
Proof.
  induction 1 as [|x l Hsorted IH Hall]; intros i j a b Hij Hi Hj.
  { by rewrite lookup_nil in Hi. }
  destruct j as [|j]; [lia|]. simpl in Hj. destruct i as [|i].
  - injection Hi as <-. rewrite Forall_forall in Hall. apply Hall.
    by eapply list_elem_of_lookup_2.
  - simpl in Hi. apply (IH i j); [lia | done..].
Qed.

(** X16.  [get_employee_workload_report] returns for every schedule, with
    one entry for each entry of the roster, the entries in the order of
    utilization from the highest to the lowest. *)
Theorem workload_report_sorted (self : AutoScheduler.t) (h : Task.heap) :
  ∃ report,
    AutoScheduler.get_employee_workload_report self h = Ok report
    ∧ length report
      = length (Schedule.employees (AutoScheduler.schedule self))
    ∧ ∀ i j a b, (i < j)%nat →
                 report !! i = Some a → report !! j = Some b →
                 (AutoScheduler.utilization b
                  <= AutoScheduler.utilization a)%Q.
Proof.
  destruct (workload_entries_total self h
              (Schedule.employees (AutoScheduler.schedule self)))
    as (report0 & Hreport0 & _).
  unfold AutoScheduler.get_employee_workload_report. rewrite Hreport0. simpl.
  set (ltb := λ x y, Float.ltb (AutoScheduler.utilization x)
                       (AutoScheduler.utilization y)).
  rewrite (py_sorted_reverse_total ltb). eexists. split; [reflexivity|].
  set (sorted := isort_onto ltb [] (reverse report0)).
  assert (length sorted = length report0) as Hlen.
  { unfold sorted. rewrite isort_onto_perm. simpl. apply length_reverse. }
  split.
  - rewrite length_reverse, Hlen. by eapply workload_entries_length.
  - intros i j a b Hij Hi Hj.
    pose proof (lookup_lt_Some _ _ _ Hi) as Hi'.
    pose proof (lookup_lt_Some _ _ _ Hj) as Hj'.
    rewrite length_reverse in Hi', Hj'.
    rewrite reverse_lookup in Hi, Hj by done.
    apply Float_ltb_ge.
    apply (sorted_by_lookup ltb sorted) with (i := (length sorted - S j)%nat)
                                             (j := (length sorted - S i)%nat);
      [|lia|done..].
    apply isort_onto_sorted; [| |constructor]; unfold ltb.
    + intros x y. rewrite Float_ltb_lt, Float_ltb_ge. apply Qlt_le_weak.
    + intros x y z. rewrite !Float_ltb_lt, Float_ltb_ge. apply Qlt_le_trans.
Qed.

(** ** The size of a score *)

Lemma rank_fit_cases (d : Z) :
  let r := if (d =? 0)%Z then (0 + 50)%Q
           else if (d <=? 2)%Z then (0 + 40)%Q
           else if (d <=? 4)%Z then (0 + 20)%Q
           else (0 + 10)%Q in
  (10 <= r)%Q ∧ (r <= 50)%Q ∧ (d ≠ 0%Z → (r <= 40)%Q)
  ∧ (d = 0%Z → (r == 50)%Q).
Proof.
  simpl. destruct (Z.eqb_spec d 0), (Z.leb_spec d 2), (Z.leb_spec d 4);
    repeat split; intros; try lra; lia.
Qed.

(** The score as a number: the rank term, and 50 times the free share of
    the hours when the hours are within [max_hours], or 20 times that
    (negative) share when they exceed it. *)
Lemma score_value (task : Task.t) (employee : Employee.t) :
  (0 < Employee.max_hours employee)%Q →
  ∃ s,
    AutoScheduler._score_employee_for_task task employee = Ok s
    ∧ (s == (if (Employee.rank employee - Task.min_rank task =? 0)%Z
             then (0 + 50)%Q
             else if (Employee.rank employee - Task.min_rank task <=? 2)%Z
                  then (0 + 40)%Q
                  else if (Employee.rank employee - Task.min_rank task <=? 4)%Z
                       then (0 + 20)%Q
                       else (0 + 10)%Q)
            + Qmax 0 (Employee.max_hours employee
                      - Employee.current_hours employee)
              / Employee.max_hours employee * 30
            + (1 - Employee.current_hours employee
                   / Employee.max_hours employee) * 20)%Q.
Proof.
  intros Hmax. unfold AutoScheduler._score_employee_for_task.
  assert (¬ (Employee.max_hours employee == 0)%Q) as Hnz.
  { intros H0. rewrite H0 in Hmax. by apply Qlt_irrefl in Hmax. }
  rewrite !Float_div_nonzero by done. simpl.
  eexists. split; [reflexivity|].
  unfold Employee.available_hours. by rewrite Float_max_0.
Qed.

Lemma Qdiv_le_compat (a b m : Q) :
  (0 < m)%Q → (a <= b)%Q → (a / m <= b / m)%Q.
Proof.
  intros Hm Hab. apply Qle_shift_div_l; [done|].
  assert (a / m * m == a)%Q as -> by (field; lra). done.
Qed.

Lemma Qdiv_lt_compat (a b m : Q) :
  (0 < m)%Q → (a < b)%Q → (a / m < b / m)%Q.
Proof.
  intros Hm Hab. apply Qlt_shift_div_l; [done|].
  assert (a / m * m == a)%Q as -> by (field; lra). done.
Qed.

(** X17.  For an employee whose hours are from 0 to a positive [max_hours],
    the score is a number from 10 to 100. *)
Theorem score_bounds (task : Task.t) (employee : Employee.t) :
  (0 < Employee.max_hours employee)%Q →
  (0 <= Employee.current_hours employee)%Q →
  (Employee.current_hours employee <= Employee.max_hours employee)%Q →
  ∃ s,
    AutoScheduler._score_employee_for_task task employee = Ok s
    ∧ (10 <= s)%Q ∧ (s <= 100)%Q.
Proof.
  intros Hmax H0 Hle.
  destruct (score_value task employee Hmax) as (s & Hs & Heq).
  exists s. split; [done|]. rewrite Heq. clear Hs Heq.
  destruct (rank_fit_cases (Employee.rank employee - Task.min_rank task))
    as (Hlo & Hhi & _). simpl in Hlo, Hhi.
  set (r := if (_ =? 0)%Z then _ else _) in *. clearbody r.
  set (m := Employee.max_hours employee) in *.
  set (c := Employee.current_hours employee) in *.
  rewrite Q.max_r by lra.
  pose proof (Qdiv_le_compat 0 c m Hmax H0) as Hx0.
  pose proof (Qdiv_le_compat c m m Hmax Hle) as Hx1.
  assert (0 / m == 0)%Q as Hz by (field; lra).
  assert (m / m == 1)%Q as Ho by (field; lra).
  assert ((m - c) / m == 1 - c / m)%Q as -> by (field; lra).
  rewrite Hz in Hx0. rewrite Ho in Hx1.
  set (x := (c / m)%Q) in *. clearbody x. split; lra.
Qed.

(** X18.  Of two employees of the same rank and the same positive
    [max_hours], the one with fewer hours does not score lower for a task,
    and scores higher, as an exact number, if it has strictly fewer hours.
    *)
Theorem score_prefers_lighter_load
    (task : Task.t) (employee1 employee2 : Employee.t) :
  Employee.rank employee1 = Employee.rank employee2 →
  (Employee.max_hours employee1 == Employee.max_hours employee2)%Q →
  (0 < Employee.max_hours employee1)%Q →
  (Employee.current_hours employee1 <= Employee.current_hours employee2)%Q →
  ∃ s1 s2,
    AutoScheduler._score_employee_for_task task employee1 = Ok s1
    ∧ AutoScheduler._score_employee_for_task task employee2 = Ok s2
    ∧ (s2 <= s1)%Q
    ∧ ((Employee.current_hours employee1
        < Employee.current_hours employee2)%Q → (s2 < s1)%Q).
Proof.
  intros Hrank Hmaxeq Hmax Hle.
  assert (0 < Employee.max_hours employee2)%Q as Hmax2
    by by rewrite <- Hmaxeq.
  destruct (score_value task employee1 Hmax) as (s1 & Hs1 & Heq1).
  destruct (score_value task employee2 Hmax2) as (s2 & Hs2 & Heq2).
  exists s1, s2. split; [done|]. split; [done|].
  rewrite Heq1, Heq2, <- Hrank, <- Hmaxeq. clear Hs1 Hs2 Heq1 Heq2.
  set (r := if (_ =? 0)%Z then _ else _). clearbody r.
  set (m := Employee.max_hours employee1) in *.
  set (c1 := Employee.current_hours employee1) in *.
  set (c2 := Employee.current_hours employee2) in *.
  assert (Qmax 0 (m - c2) / m <= Qmax 0 (m - c1) / m)%Q as Ha.
  { apply Qdiv_le_compat; [done|].
    apply Q.max_le_compat_l. lra. }
  pose proof (Qdiv_le_compat c1 c2 m Hmax Hle) as Hx.
  split; [lra|]. intros Hlt.
  pose proof (Qdiv_lt_compat c1 c2 m Hmax Hlt). lra.
Qed.

(** X19.  Of two employees with the same hours, from 0 to the same positive
    [max_hours], one whose rank is the minimum rank of the task scores
    higher than one of another rank.  The rank gives 50 points to the first
    and at most 40 to the second, and the two other terms are the same; the
    bounds on the hours keep these terms from 0 to 30 and from 0 to 20, so
    that the rounding of the sums cannot make up for the 10 points. *)
Theorem score_prefers_exact_rank
    (task : Task.t) (employee1 employee2 : Employee.t) :
  Employee.rank employee1 = Task.min_rank task →
  Employee.rank employee2 ≠ Task.min_rank task →
  (Employee.max_hours employee1 == Employee.max_hours employee2)%Q →
  (Employee.current_hours employee1 == Employee.current_hours employee2)%Q →
  (0 < Employee.max_hours employee1)%Q →
  (0 <= Employee.current_hours employee1)%Q →
  (Employee.current_hours employee1 <= Employee.max_hours employee1)%Q →
  ∃ s1 s2,
    AutoScheduler._score_employee_for_task task employee1 = Ok s1
    ∧ AutoScheduler._score_employee_for_task task employee2 = Ok s2
    ∧ (s2 < s1)%Q.
Proof.
  intros Hrank1 Hrank2 Hmaxeq Hcureq Hmax _ _.
  assert (0 < Employee.max_hours employee2)%Q as Hmax2
    by by rewrite <- Hmaxeq.
  destruct (score_value task employee1 Hmax) as (s1 & Hs1 & Heq1).
  destruct (score_value task employee2 Hmax2) as (s2 & Hs2 & Heq2).
  exists s1, s2. split; [done|]. split; [done|].
  rewrite Heq1, Heq2, <- Hmaxeq, <- Hcureq. clear Hs1 Hs2 Heq1 Heq2.
  destruct (rank_fit_cases (Employee.rank employee1 - Task.min_rank task))
    as (_ & _ & _ & H1).
  destruct (rank_fit_cases (Employee.rank employee2 - Task.min_rank task))
    as (_ & _ & H2 & _).
  simpl in H1, H2.
  set (r1 := if (_ =? 0)%Z then _ else _) in *.
  set (r2 := if (Employee.rank employee2 - _ =? 0)%Z then _ else _) in *.
  clearbody r1 r2.
  specialize (H1 ltac:(lia)). specialize (H2 ltac:(lia)).
  set (x := (Qmax 0 _ / _ * 30)%Q). set (y := ((1 - _) * 20)%Q).
  clearbody x y. lra.
Qed.

(** ** Training lists *)

Lemma split_app sep x rest :
  contains sep x = false →
  Utils.split sep (x +:+ String sep rest) = x :: Utils.split sep rest.
Proof.
  induction x as [|c x IH]; simpl; intros Hx.
  - by rewrite Ascii.eqb_refl.
  - apply orb_false_iff in Hx as [Hc Hx]. rewrite Hc, IH; done.
Qed.

Lemma split_no_sep sep x : contains sep x = false → Utils.split sep x = [x].
Proof.
  induction x as [|c x IH]; simpl; intros Hx; [done|].
  apply orb_false_iff in Hx as [Hc Hx]. rewrite Hc, IH; done.
Qed.

Lemma split_concat x l :
  (∀ y, y ∈ x :: l → contains "," y = false) →
  Utils.split "," (String.concat ", " (x :: l)) = x :: map (String " ") l.
Proof.
  revert x. induction l as [|y l IH]; intros x Hclean.
  - simpl. apply split_no_sep, Hclean. left.
  - change (String.concat ", " (x :: y :: l))
      with (x +:+ String "," (String " " (String.concat ", " (y :: l)))).
    rewrite split_app by (apply Hclean; left).
    change (Utils.split "," (String " " ?s))
      with (match Utils.split "," s with
            | item :: items => String " " item :: items
            | [] => [String " " EmptyString]
            end).
    rewrite IH; [done|]. intros z Hz. apply Hclean. by right.
Qed.

Lemma concat_nonempty x l :
  x ≠ EmptyString → String.concat ", " (x :: l) ≠ EmptyString.
Proof. destruct x, l; simpl; done. Qed.

Lemma strip_after_space s : Utils.strip (String " " s) = Utils.strip s.
Proof. done. Qed.

Lemma parse_concat l :
  (∀ y, y ∈ l → clean_item y) →
  Utils.parse_training_list (String.concat ", " l) = list_to_set l.
Proof.
  intros Hclean. destruct l as [|x l]; [done|].
  unfold Utils.parse_training_list.
  destruct (String.eqb_spec (String.concat ", " (x :: l)) "") as [Hnil|_].
  { apply concat_nonempty in Hnil; [done|]. apply (Hclean x). left. }
  rewrite split_concat by (intros y Hy; by apply Hclean).
  f_equal.
  assert (∀ l0 : list string, (∀ y, y ∈ l0 → clean_item y) →
            map Utils.strip
              (List.filter (λ item, negb (String.eqb (Utils.strip item) ""))
                 (map (String " ") l0)) = l0) as Hrest.
  { induction l0 as [|y l0 IH]; intros Hl0; [done|]. simpl.
    destruct (Hl0 y) as (Hne & Hstrip & _); [left|].
    rewrite strip_after_space, Hstrip.
    destruct (String.eqb_spec y ""); [done|]. simpl.
    rewrite strip_after_space, Hstrip, IH; [done|].
    intros z Hz. apply Hl0. by right. }
  simpl. destruct (Hclean x) as (Hne & Hstrip & _); [left|].
  rewrite Hstrip. destruct (String.eqb_spec x ""); [done|]. simpl.
  rewrite Hstrip, Hrest; [done|]. intros z Hz. apply Hclean. by right.
Qed.

Lemma format_training_list_sorted `{Interp} (X : gset string) :
  Utils.format_training_list X
  = Ok (String.concat ", " (isort_onto String.ltb [] (set_iter X))).
Proof.
  unfold Utils.format_training_list, py_sorted.
  by rewrite (sort_onto_total String.ltb).
Qed.

(** X21.  A set of items that are not empty and have neither a comma nor
    white space at an end is read back by [parse_training_list] from the
    string that [format_training_list] writes for it. *)
Theorem parse_format_training_list `{Interp} (X : gset string) :
  (∀ x, x ∈ X → clean_item x) →
  ∃ s, Utils.format_training_list X = Ok s
       ∧ Utils.parse_training_list s = X.
Proof.
  intros Hclean. rewrite format_training_list_sorted.
  eexists. split; [reflexivity|].
  assert (isort_onto String.ltb [] (set_iter X) ≡ₚ elements X) as Hperm.
  { rewrite isort_onto_perm. simpl. apply set_iter_perm. }
  rewrite parse_concat.
  - rewrite Hperm. apply list_to_set_elements_L.
  - intros y Hy. apply Hclean. rewrite Hperm in Hy.
    by apply elem_of_elements in Hy.
Qed.

(** *** What [parse_training_list] returns *)

Lemma split_pieces sep s item :
  item ∈ Utils.split sep s → contains sep item = false.
Proof.
  revert item. induction s as [|c s IH]; intros item; simpl.
  { by intros ->%list_elem_of_singleton. }
  destruct (Ascii.eqb c sep) eqn:Hc.
  - intros [->|Hin]%elem_of_cons; [done | by apply IH].
  - destruct (Utils.split sep s) as [|x xs].
    + intros ->%list_elem_of_singleton. simpl. by rewrite Hc.
    + intros [->|Hin]%elem_of_cons.
      * simpl. rewrite Hc. apply IH. left.
      * apply IH. by right.
Qed.

Lemma contains_lstrip c s :
  contains c s = false → contains c (Utils.lstrip s) = false.
Proof.
  induction s as [|c' s IH]; simpl; [done|].
  intros [Hc Hs]%orb_false_iff.
  destruct (Utils.isspace c'); [by apply IH|]. simpl. by rewrite Hc, Hs.
Qed.

Lemma contains_rstrip c s :
  contains c s = false → contains c (Utils.rstrip s) = false.
Proof.
  induction s as [|c' s IH]; simpl; [done|].
  intros [Hc Hs]%orb_false_iff. specialize (IH Hs).
  destruct (Utils.rstrip s) as [|c'' r].
  - destruct (Utils.isspace c'); simpl; [done|]. by rewrite Hc.
  - simpl in *. by rewrite Hc, IH.
Qed.

Lemma rstrip_idemp s : Utils.rstrip (Utils.rstrip s) = Utils.rstrip s.
Proof.
  induction s as [|c s IH]; simpl; [done|].
  destruct (Utils.rstrip s) as [|c' r] eqn:Hr.
  - destruct (Utils.isspace c) eqn:Hc; simpl; [done|]. by rewrite Hc.
  - change (Utils.rstrip (String c (String c' r)))
      with (match Utils.rstrip (String c' r) with
            | EmptyString =>
                if Utils.isspace c then EmptyString else String c EmptyString
            | r0 => String c r0
            end).
    by rewrite IH.
Qed.

Lemma lstrip_rstrip s :
  Utils.lstrip (Utils.rstrip (Utils.lstrip s)) = Utils.rstrip (Utils.lstrip s).
Proof.
  induction s as [|c s IH]; simpl; [done|].
  destruct (Utils.isspace c) eqn:Hc; [done|]. simpl.
  destruct (Utils.rstrip s); simpl; rewrite ?Hc; simpl; by rewrite ?Hc.
Qed.

Lemma strip_idemp s : Utils.strip (Utils.strip s) = Utils.strip s.
Proof. unfold Utils.strip. by rewrite lstrip_rstrip, rstrip_idemp. Qed.

(** X22.  Every item of the set that [parse_training_list] returns is not
    empty and has neither a comma nor white space at an end; the set is
    empty for the empty string. *)
Theorem parse_training_list_items (training_str x : string) :
  x ∈ Utils.parse_training_list training_str → clean_item x.
Proof.
  unfold Utils.parse_training_list.
  destruct (String.eqb training_str ""); [by intros ?%not_elem_of_empty|].
  rewrite elem_of_list_to_set, list_elem_of_fmap.
  intros (item & -> & Hin).
  apply list_elem_of_In, filter_In in Hin as [Hin%list_elem_of_In Hne].
  split; [|split].
  - intros Hnil. by rewrite Hnil in Hne.
  - apply strip_idemp.
  - by apply contains_rstrip, contains_lstrip, (split_pieces _ training_str).
Qed.

(** *** The order of the items *)

Lemma ascii_compare_trans a b c :
  Ascii.compare a b = Lt ∨ Ascii.compare a b = Eq →
  Ascii.compare b c = Lt ∨ Ascii.compare b c = Eq →
  (Ascii.compare a c = Lt ∨ Ascii.compare a c = Eq)
  ∧ (Ascii.compare a c = Eq →
     Ascii.compare a b = Eq ∧ Ascii.compare b c = Eq).
Proof.
  unfold Ascii.compare.
  destruct (N.compare_spec (N_of_ascii a) (N_of_ascii b)),
    (N.compare_spec (N_of_ascii b) (N_of_ascii c)),
    (N.compare_spec (N_of_ascii a) (N_of_ascii c));
    intros [?|?] [?|?]; try done; try lia; split; auto; try done.
Qed.

Lemma string_compare_trans x :
  ∀ y z, String.compare x y = Lt → String.compare y z = Lt →
         String.compare x z = Lt.
Proof.
  induction x as [|a x IH]; intros [|b y] [|c z]; simpl; try done.
  intros Hxy Hyz.
  destruct (ascii_compare_trans a b c) as [Hac Heq].
  { destruct (Ascii.compare a b); auto; done. }
  { destruct (Ascii.compare b c); auto; done. }
  destruct (Ascii.compare a c) eqn:Hcmp; [|done|by destruct Hac].
  destruct Heq as [Hab Hbc]; [done|]. rewrite Hab in Hxy. rewrite Hbc in Hyz.
  by apply (IH y z).
Qed.

Lemma string_ltb_asym x y : String.ltb x y = true → String.ltb y x = false.
Proof.
  unfold String.ltb. rewrite (String.compare_antisym y x).
  by destruct (String.compare x y).
Qed.

Lemma string_ltb_lt_le x y z :
  String.ltb x y = true → String.ltb z y = false → String.ltb x z = true.
Proof.
  unfold String.ltb. rewrite (String.compare_antisym z y).
  destruct (String.compare x y) eqn:Hxy; [done| |done].
  destruct (String.compare y z) eqn:Hyz; simpl; try done.
  - apply String.compare_eq_iff in Hyz as <-. by rewrite Hxy.
  - by rewrite (string_compare_trans x y z).
Qed.

Lemma string_ltb_antisym x y :
  String.ltb y x = false → String.ltb x y = false → x = y.
Proof.
  unfold String.ltb. rewrite (String.compare_antisym y x).
  destruct (String.compare x y) eqn:Hxy; simpl; try done.
  intros _ _. by apply String.compare_eq_iff.
Qed.

(** X23.  The string that [format_training_list] writes does not depend on
    the order in which the interpreter iterates the set: the items are
    joined in ascending order. *)
Theorem format_training_list_fixed_order
    (interp1 interp2 : Interp) (X : gset string) :
  ∃ sorted,
    @Utils.format_training_list interp1 X = Ok (String.concat ", " sorted)
    ∧ @Utils.format_training_list interp2 X = Ok (String.concat ", " sorted)
    ∧ sorted ≡ₚ elements X
    ∧ sorted_by String.ltb sorted.
Proof.
  rewrite !format_training_list_sorted.
  assert (∀ I : Interp,
            sorted_by String.ltb (isort_onto String.ltb [] (@set_iter I X)))
    as Hsorted.
  { intros I. apply isort_onto_sorted;
      [apply string_ltb_asym | apply string_ltb_lt_le | constructor]. }
  assert (∀ I : Interp,
            isort_onto String.ltb [] (@set_iter I X) ≡ₚ elements X) as Hperm.
  { intros I. rewrite isort_onto_perm. simpl. apply set_iter_perm. }
  exists (isort_onto String.ltb [] (@set_iter interp1 X)).
  split; [done|]. split; [|split; [apply Hperm | apply Hsorted]].
  do 2 f_equal.
  apply (StronglySorted_unique_strong (λ a b, String.ltb b a = false));
    [|apply Hsorted..|by rewrite !Hperm].
  intros x1 x2 _ _. apply string_ltb_antisym.
Qed.

(** * The statements at concrete schedules *)

Ltac elem_cases H :=
  apply list_elem_of_In in H; simpl in H;
  repeat (destruct H as [<-|H]; [|]); try contradiction.

(** C6 at the end-to-end scenario: Alice, of rank 8, for a task of minimum
    rank 5. *)
Lemma score_is_sum_of_three_terms_witness :
  Task.can_be_assigned_to backend alice = true
  ∧ ¬ (Employee.max_hours alice == 0)%Q
  ∧ ∃ score rank_fit : Q,
      AutoScheduler._score_employee_for_task backend alice = Ok score
      ∧ (score == rank_fit
                 + Employee.available_hours alice / Employee.max_hours alice
                   * 30
                 + (1 - Employee.current_hours alice
                        / Employee.max_hours alice) * 20)%Q
      ∧ (Employee.available_hours alice
         == Qmax 0 (Employee.max_hours alice - Employee.current_hours alice))%Q
      ∧ (0 ≤ Employee.rank alice - Task.min_rank backend)%Z
      ∧ ((Employee.rank alice - Task.min_rank backend)%Z = 0%Z
         → rank_fit = 50%Q)
      ∧ ((0 < Employee.rank alice - Task.min_rank backend ≤ 2)%Z
         → rank_fit = 40%Q)
      ∧ ((2 < Employee.rank alice - Task.min_rank backend ≤ 4)%Z
         → rank_fit = 20%Q)
      ∧ ((4 < Employee.rank alice - Task.min_rank backend)%Z
         → rank_fit = 10%Q).
Proof.
  assert (Task.can_be_assigned_to backend alice = true) as Hcan
    by (vm_compute; reflexivity).
  assert (¬ (Employee.max_hours alice == 0)%Q) as Hmax
    by (vm_compute; discriminate).
  split; [exact Hcan|]. split; [exact Hmax|].
  exact (score_is_sum_of_three_terms backend alice Hcan Hmax).
Defined.

(** C5 at the twins: both candidates score 70, and the first is chosen. *)
Lemma select_best_employee_first_maximum_witness :
  let score emp :=
    AutoScheduler._score_employee_for_task (task_at twins_heap 0)
      (employee_at twins_heap emp) in
  ∃ (i : nat) (best : loc) (s : Q) (self' : AutoScheduler.t),
    AutoScheduler._select_best_employee (AutoScheduler.__init__ twins)
      twins_heap 0 [0; 1]%nat = Ok (best, self')
    ∧ [0; 1]%nat !! i = Some best
    ∧ score best = Ok s
    ∧ (∀ j emp s', [0; 1]%nat !! j = Some emp → score emp = Ok s' →
                   (s' <= s)%Q)
    ∧ (∀ j emp s', [0; 1]%nat !! j = Some emp → score emp = Ok s' →
                   (j < i)%nat → (s' < s)%Q).
Proof.
  apply (select_best_employee_first_maximum (AutoScheduler.__init__ twins)
           twins_heap 0%nat [0; 1]%nat).
  - discriminate.
  - intros emp Hemp. elem_cases Hemp; vm_compute; discriminate.
Defined.

(** C4 at the end-to-end scenario. *)
Lemma schedule_all_within_capacity_witness :
  ∃ (ok : bool) (self' : AutoScheduler.t) (h' : Task.heap),
    AutoScheduler.schedule_all (AutoScheduler.__init__ team) team_heap
    = Ok (ok, self', h')
    ∧ ∀ l, l ∈ Schedule.employees team →
           (Employee.current_hours (employee_at h' l)
            <= Employee.max_hours (employee_at h' l))%Q.
Proof.
  eexists _, _, _. split; [vm_compute; reflexivity|].
  eapply schedule_all_within_capacity
    with (self := AutoScheduler.__init__ team) (h := team_heap) (ok := true).
  - intros l Hl. elem_cases Hl; vm_compute; discriminate.
  - intros t Ht. elem_cases Ht; vm_compute; discriminate.
  - vm_compute; reflexivity.
Defined.

(** X26 at the twins: three invocations with a [reset] between them. *)
Lemma schedule_all_deterministic_witness :
  observation twins (rerun 2 (AutoScheduler.__init__ twins) twins_heap)
  = observation twins
      (AutoScheduler.schedule_all (AutoScheduler.__init__ twins) twins_heap).
Proof.
  apply (schedule_all_deterministic (AutoScheduler.__init__ twins)
           twins_heap 2).
  intros task e Htask Hlink. elem_cases Htask; vm_compute in Hlink;
    discriminate.
Defined.

(** C8, amended, at the end-to-end scenario after [schedule_all]. *)
Lemma get_employee_tasks_by_identity_witness :
  ∃ (ok : bool) (self : AutoScheduler.t) (h : Task.heap),
    AutoScheduler.schedule_all (AutoScheduler.__init__ team) team_heap
    = Ok (ok, self, h)
    ∧ Schedule.get_employee_tasks team h 0 = tasks_linked_to team h 0.
Proof.
  eexists _, _, _. split; [vm_compute; reflexivity|].
  apply get_employee_tasks_by_identity.
  intros task e Htask Hlink Hsame.
  elem_cases Htask; vm_compute in Hlink; injection Hlink as <-;
    [reflexivity|].
  destruct Hsame as [Hid _]. vm_compute in Hid. discriminate.
Defined.

(** X27 at a roster with an employee without capacity. *)
Lemma zero_capacity_employee_is_handled_witness :
  AutoScheduler.schedule_all (AutoScheduler.__init__ idle) idle_heap
  = Raise TypeError
  ∨ ∃ ok self' h' stats report,
      AutoScheduler.schedule_all (AutoScheduler.__init__ idle) idle_heap
      = Ok (ok, self', h')
      ∧ Schedule.get_statistics idle h' = Ok stats
      ∧ AutoScheduler.get_employee_workload_report self' h' = Ok report
      ∧ ∀ e, e ∈ Schedule.employees idle →
             (Employee.max_hours (employee_at idle_heap e) == 0)%Q →
             ∃ entry,
               AutoScheduler.workload_of self' h' e = Ok entry
               ∧ entry ∈ report
               ∧ AutoScheduler.utilization entry = 0%Q
               ∧ AutoScheduler.available_hours entry = 0%Q.
Proof.
  apply (zero_capacity_employee_is_handled (AutoScheduler.__init__ idle)
           idle_heap).
  - intros t Ht. elem_cases Ht. vm_compute. reflexivity.
  - intros t e Ht Hlink. elem_cases Ht. vm_compute in Hlink. discriminate.
Defined.

(** X2 at the schedule whose only employee lacks both skills of the only
    task. *)
Lemma all_unassignment_reasons_spec_witness :
  let reasons :=
    AutoScheduler._get_all_unassignment_reasons
      (AutoScheduler.__init__ unskilled) unskilled_heap 0 in
  reasons ≠ []
  ∧ NoDup reasons
  ∧ ∀ r, r ∈ reasons
         ↔ ∃ e, e ∈ Schedule.employees unskilled
                ∧ r ∈ Task.get_unassignment_reasons
                        (task_at unskilled_heap 0)
                        (employee_at unskilled_heap e).
Proof.
  apply (all_unassignment_reasons_spec (AutoScheduler.__init__ unskilled)
           unskilled_heap 0); [done | vm_compute; reflexivity].
Defined.

(** X5 at the schedule of one employee and one task. *)
Lemma assign_then_unassign_witness :
  ∃ h',
    Task.assign_to 0 0 solo_heap = (true, h')
    ∧ task_at (Task.unassign 0 h') 0
      = Task.set_assigned_employee (task_at solo_heap 0) None
    ∧ same_fields (employee_at (Task.unassign 0 h') 0)
        (employee_at solo_heap 0).
Proof.
  exists (Task.assign_to 0 0 solo_heap).2.
  split; [vm_compute; reflexivity|].
  destruct (assign_then_unassign 0 0 solo_heap (Task.assign_to 0 0 solo_heap).2)
    as (Htask & _ & Hemp & _); [vm_compute; reflexivity|].
  split; [exact Htask | exact Hemp].
Defined.

(** X7 at the store in which the only task is linked to the only
    employee. *)
Lemma reset_subtracts_linked_durations_witness :
  let h := (Task.assign_to 0 0 solo_heap).2 in
  NoDup (Schedule.tasks solo)
  ∧ (Employee.current_hours (employee_at (Schedule.reset solo h) 0%nat)
     == (if decide (0%nat ∈ Schedule.employees solo) then 0
         else Employee.current_hours (employee_at h 0%nat))
        - Schedule.sum
            (map (λ task, Task.duration (task_at h task))
               (tasks_linked_to solo h 0%nat)))%Q.
Proof.
  split; [compute_done|].
  apply reset_subtracts_linked_durations. compute_done.
Defined.

(** X9 at the end-to-end scenario. *)
Lemma schedule_all_assigns_eligible_witness :
  ∃ (ok : bool) (self' : AutoScheduler.t) (h' : Task.heap),
    AutoScheduler.schedule_all (AutoScheduler.__init__ team) team_heap
    = Ok (ok, self', h')
    ∧ (∀ t e, t ∈ Schedule.tasks team →
              Task.assigned_employee (task_at h' t) = Some e →
              e ∈ Schedule.employees team
              ∧ Task.required_training (task_at h' t)
                ⊆ Employee.training (employee_at h' e)
              ∧ (Task.min_rank (task_at h' t)
                 ≤ Employee.rank (employee_at h' e))%Z)
    ∧ (ok = true
       ↔ ∀ t, t ∈ Schedule.tasks team →
              Task.is_assigned (task_at h' t) = true).
Proof.
  eexists _, _, _. split; [vm_compute; reflexivity|].
  eapply schedule_all_assigns_eligible
    with (self := AutoScheduler.__init__ team) (h := team_heap).
  vm_compute; reflexivity.
Defined.

(** X10 at the end-to-end scenario. *)
Lemma schedule_all_hours_are_linked_durations_witness :
  ∃ (ok : bool) (self' : AutoScheduler.t) (h' : Task.heap),
    AutoScheduler.schedule_all (AutoScheduler.__init__ team) team_heap
    = Ok (ok, self', h')
    ∧ ∀ e, e ∈ Schedule.employees team →
           (Employee.current_hours (employee_at h' e)
            == Schedule.sum
                 (map (λ task, Task.duration (task_at h' task))
                    (tasks_linked_to team h' e)))%Q.
Proof.
  eexists _, _, _. split; [vm_compute; reflexivity|].
  eapply schedule_all_hours_are_linked_durations
    with (self := AutoScheduler.__init__ team) (h := team_heap) (ok := true).
  - compute_done.
  - intros task e Ht. elem_cases Ht; vm_compute; discriminate.
  - vm_compute; reflexivity.
Defined.

(** X11 at the schedule whose second task finds no room. *)
Lemma unassigned_report_has_recorded_reasons_witness :
  ∃ (ok : bool) (self' : AutoScheduler.t) (h' : Task.heap),
    AutoScheduler.schedule_all (AutoScheduler.__init__ busy) busy_heap
    = Ok (ok, self', h')
    ∧ AutoScheduler.get_unassigned_tasks_report self' h' ≠ []
    ∧ ∀ entry, entry ∈ AutoScheduler.get_unassigned_tasks_report self' h' →
               AutoScheduler.unassigned_reasons self'
                 !! AutoScheduler.task_id entry
               = Some (AutoScheduler.reasons entry)
               ∧ AutoScheduler.reasons entry ≠ [].
Proof.
  eexists _, _, _. split; [vm_compute; reflexivity|].
  split; [vm_compute; discriminate|].
  eapply unassigned_report_has_recorded_reasons
    with (self := AutoScheduler.__init__ busy) (h := busy_heap) (ok := false).
  vm_compute; reflexivity.
Defined.

(** X12 at the schedule with a naive and an aware deadline. *)
Lemma schedule_all_raises_only_witness :
  AutoScheduler.schedule_all (AutoScheduler.__init__ zoned) zoned_heap
  = Raise TypeError
  ∧ ((TypeError = TypeError
      ∧ ∃ a b, a ∈ Schedule.tasks zoned ∧ b ∈ Schedule.tasks zoned
               ∧ tasks_mixed zoned_heap a b = true)
     ∨ (TypeError = ZeroDivisionError
        ∧ ∃ emp, emp ∈ Schedule.employees zoned
                 ∧ (Employee.max_hours (employee_at zoned_heap emp) == 0)%Q)).
Proof.
  split; [vm_compute; reflexivity|].
  apply (schedule_all_raises_only (AutoScheduler.__init__ zoned) zoned_heap
           TypeError).
  vm_compute; reflexivity.
Defined.


(** X14 at the schedule with mixed deadlines. *)
Lemma sort_tasks_by_priority_mixed_witness :
  AutoScheduler._sort_tasks_by_priority (AutoScheduler.__init__ mixed)
    mixed_heap = Raise TypeError.
Proof.
  apply (sort_tasks_by_priority_mixed mixed_heap (AutoScheduler.__init__ mixed)
           0%nat 1%nat); [compute_done | compute_done | vm_compute; reflexivity].
Defined.

(** X17 for Alice and the backend task. *)
Lemma score_bounds_witness :
  ∃ s,
    AutoScheduler._score_employee_for_task backend alice = Ok s
    ∧ (10 <= s)%Q ∧ (s <= 100)%Q.
Proof.
  apply (score_bounds backend alice); vm_compute;
    first [reflexivity | discriminate].
Defined.

(** X18 for Bob without hours and Bob with 10 hours. *)
Lemma score_prefers_lighter_load_witness :
  ∃ s1 s2,
    AutoScheduler._score_employee_for_task scripts bob = Ok s1
    ∧ AutoScheduler._score_employee_for_task scripts
        (Employee.set_current_hours bob 10) = Ok s2
    ∧ (s2 <= s1)%Q
    ∧ ((Employee.current_hours bob
        < Employee.current_hours (Employee.set_current_hours bob 10))%Q
       → (s2 < s1)%Q).
Proof.
  apply (score_prefers_lighter_load scripts bob
           (Employee.set_current_hours bob 10)); vm_compute;
    first [reflexivity | discriminate].
Defined.

(** X19 for Bob, of the minimum rank of the backend task, and Alice. *)
Lemma score_prefers_exact_rank_witness :
  ∃ s1 s2,
    AutoScheduler._score_employee_for_task backend bob = Ok s1
    ∧ AutoScheduler._score_employee_for_task backend alice = Ok s2
    ∧ (s2 < s1)%Q.
Proof.
  apply (score_prefers_exact_rank backend bob alice); vm_compute;
    first [reflexivity | discriminate].
Defined.

(** X21 for the skills of Alice. *)
Lemma parse_format_training_list_witness :
  ∃ s, Utils.format_training_list {["Python"; "Database"]} = Ok s
       ∧ Utils.parse_training_list s = {["Python"; "Database"]}.
Proof.
  apply parse_format_training_list.
  intros x [Hx|Hx]%elem_of_union; apply elem_of_singleton in Hx; subst x;
    (split; [discriminate | split; vm_compute; reflexivity]).
Defined.

(** X22 for a list typed with spaces and empty items. *)
Lemma parse_training_list_items_witness :
  "Python" ∈ Utils.parse_training_list " Python ,Go,, "
  ∧ clean_item "Python".
Proof.
  assert ("Python" ∈ Utils.parse_training_list " Python ,Go,, ") as Hin
    by compute_done.
  split; [exact Hin|].
  exact (parse_training_list_items " Python ,Go,, " "Python" Hin).
Defined.

(** X24 at the schedule whose second task finds no room. *)
Lemma schedule_all_leaves_nothing_assignable_witness :
  ∃ (ok : bool) (self' : AutoScheduler.t) (h' : Task.heap),
    AutoScheduler.schedule_all (AutoScheduler.__init__ busy) busy_heap
    = Ok (ok, self', h')
    ∧ Task.assigned_employee (task_at h' 1) = None
    ∧ ∀ t e, t ∈ Schedule.tasks busy → e ∈ Schedule.employees busy →
             Task.assigned_employee (task_at h' t) = None →
             Task.can_be_assigned_to (task_at h' t) (employee_at h' e)
             = false.
Proof.
  eexists _, _, _. split; [vm_compute; reflexivity|].
  split; [vm_compute; reflexivity|].
  eapply schedule_all_leaves_nothing_assignable
    with (self := AutoScheduler.__init__ busy) (h := busy_heap) (ok := false).
  - intros t Ht. elem_cases Ht; vm_compute; discriminate.
  - vm_compute; reflexivity.
Defined.

(** X25 at the end-to-end scenario. *)
Lemma statistics_hours_are_assigned_durations_witness :
  ∃ (ok : bool) (self' : AutoScheduler.t) (h' : Task.heap),
    AutoScheduler.schedule_all (AutoScheduler.__init__ team) team_heap
    = Ok (ok, self', h')
    ∧ ∃ stats,
        Schedule.get_statistics team h' = Ok stats
        ∧ (Schedule.total_hours_scheduled stats
           == Schedule.sum
                (map (λ task, Task.duration (task_at h' task))
                   (Schedule.get_assigned_tasks team h')))%Q.
Proof.
  eexists _, _, _. split; [vm_compute; reflexivity|].
  eapply statistics_hours_are_assigned_durations
    with (self := AutoScheduler.__init__ team) (h := team_heap) (ok := true).
  - compute_done.
  - compute_done.
  - intros task e Ht. elem_cases Ht; vm_compute; discriminate.
  - vm_compute; reflexivity.
Defined.

(** X6 at the end-to-end scenario: Bob has 70 of 80 hours, all for one
    task, and could not take that task a second time. *)
Lemma is_valid_after_schedule_all_witness :
  ∃ (ok : bool) (self' : AutoScheduler.t) (h' : Task.heap),
    AutoScheduler.schedule_all (AutoScheduler.__init__ team) team_heap
    = Ok (ok, self', h')
    ∧ Schedule.is_valid team h' = false
    ∧ (Schedule.is_valid team h' = true
       ↔ ∀ t e, t ∈ Schedule.tasks team →
                Task.assigned_employee (task_at h' t) = Some e →
                (Employee.current_hours (employee_at h' e)
                 + Task.duration (task_at h' t)
                 <= Employee.max_hours (employee_at h' e))%Q).
Proof.
  eexists _, _, _. split; [vm_compute; reflexivity|].
  split; [vm_compute; reflexivity|].
  eapply is_valid_after_schedule_all
    with (self := AutoScheduler.__init__ team) (h := team_heap) (ok := true).
  - intros l Hl. elem_cases Hl; vm_compute; discriminate.
  - intros t Ht. elem_cases Ht; vm_compute; discriminate.
  - vm_compute; reflexivity.
Defined.

(** X20 at the end-to-end scenario. *)
Lemma get_employee_tasks_after_schedule_all_witness :
  ∃ (ok : bool) (self' : AutoScheduler.t) (h' : Task.heap),
    AutoScheduler.schedule_all (AutoScheduler.__init__ team) team_heap
    = Ok (ok, self', h')
    ∧ ∀ e, e ∈ Schedule.employees team →
           Schedule.get_employee_tasks team h' e = tasks_linked_to team h' e.
Proof.
  eexists _, _, _. split; [vm_compute; reflexivity|].
  eapply get_employee_tasks_after_schedule_all
    with (self := AutoScheduler.__init__ team) (h := team_heap) (ok := true).
  - intros a b Ha Hb.
    elem_cases Ha; elem_cases Hb; vm_compute; first [reflexivity | discriminate].
  - vm_compute; reflexivity.
Defined.
